(** * MagicMissile: order life cycle, order book, portfolio, paper broker
      and backtest loop

    A shallow embedding of [src/orders], [src/portfolio/manager.py],
    [src/broker/paper.py] and [src/backtesting/engine.py], with the trade
    statistics of [src/backtesting/metrics.py] and the strategy of
    [src/strategies/buy_and_hold.py].

    Conventions of the embedding.
    - Python [int] is [Z]; [datetime] and [timedelta] are [Z] (a count of
      microseconds, the resolution of both types; a [datetime] is counted
      from [datetime.min]).
    - Python [float] is idealised by exact rationals [Q]; arithmetic facts
      are stated with [==] ([Qeq]), structural facts with [=].
    - Python objects that are shared and mutated ([Order], [FillEvent]) live
      in a [Heap]; the containers of the program hold references (indices
      into the heap), so that aliasing is visible.
    - A Python [dict] is an association list in insertion order.
    - A raised exception is the [Raise] branch of [result]; [np.nan] is
      [None]. *)

From Stdlib Require Import ZArith QArith Qminmax List Bool Lia Sorted.
From stdpp Require Import base list strings.

Open Scope Z_scope.

(** ** Exceptions *)

Inductive exn : Type :=
| ValueError (msg : string)
| TypeError
| KeyError (key : string)
| ExecutionError (msg : string)
| ZeroDivisionError
| KeyError_label (label : Z)
| OverflowError.

Inductive result (A : Type) : Type :=
| Ok (a : A)
| Raise (e : exn).

Arguments Ok {A} a.
Arguments Raise {A} e.

#[global] Instance result_ret : MRet result := fun A a => Ok a.

#[global] Instance result_bind : MBind result := fun A B k m =>
  match m with
  | Ok a => k a
  | Raise e => Raise e
  end.

(** A [for] loop whose body may raise: the first exception ends the loop. *)
Fixpoint foldM {S A : Type} (body : S -> A -> result S) (l : list A) (s : S)
  : result S :=
  match l with
  | [] => Ok s
  | a :: l' => s' ← body s a; foldM body l' s'
  end.

(** ** Dates

    A [datetime] is its distance from [datetime.min], the first instant of
    the year 1, in microseconds; [datetime.max] is the last microsecond of
    the year 9999. *)



(** ** Floats, idealised *)

Definition Qlt_bool (a b : Q) : bool := negb (Qle_bool b a).

(** [min(a, b)] and [max(a, b)] of Python return the first argument unless
    the second is strictly smaller (resp. larger). *)
Definition py_min (a b : Q) : Q := if Qlt_bool b a then b else a.
Definition py_max (a b : Q) : Q := if Qlt_bool a b then b else a.

(** Truth value of a float: every number but zero. *)
Definition truthy (x : Q) : bool := negb (Qeq_bool x 0).

(** ** Dictionaries in insertion order *)

Fixpoint dict_get {V : Type} (k : string) (d : list (string * V)) : option V :=
  match d with
  | [] => None
  | (k', v) :: d' => if bool_decide (k' = k) then Some v else dict_get k d'
  end.

Fixpoint dict_set {V : Type} (k : string) (v : V) (d : list (string * V))
  : list (string * V) :=
  match d with
  | [] => [(k, v)]
  | (k', v') :: d' =>
      if bool_decide (k' = k) then (k', v) :: d' else (k', v') :: dict_set k v d'
  end.

(** ** src/strategies/signal.py, src/orders/types.py *)

Inductive SignalType : Type := BUY | SELL | HOLD.
Inductive OrderType : Type := MARKET | LIMIT | STOP.
Inductive OrderStatus : Type :=
  PENDING | PARTIALLY_FILLED | FILLED | CANCELLED | EXPIRED.

Record Signal : Type := mkSignal {
  signal_type : SignalType;
  confidence : Q
}.

Definition order_ref := nat.
Definition fill_ref := nat.

(** ** src/backtesting/events.py: FillEvent *)

Module FillEvent.
Record t : Type := mk {
  symbol : string;
  time : Z;
  fill_type : SignalType;
  quantity : Z;
  price : Q;
  commission : Q
}.

(** [f.price = p] *)
Definition set_price (f : t) (p : Q) : t :=
  mk (symbol f) (time f) (fill_type f) (quantity f) p (commission f).
End FillEvent.

(** ** src/orders/order.py: Order *)

Module Order.
Record t : Type := mk {
  symbol : string;
  side : SignalType;
  order_type : OrderType;
  quantity : Z;
  limit_price : option Q;
  stop_price : option Q;
  created_at : Z;
  timeout : option Z;
  id : string;
  filled_qty : Z;
  status : OrderStatus;
  fills : list fill_ref
}.

Definition set_status (o : t) (s : OrderStatus) : t :=
  mk (symbol o) (side o) (order_type o) (quantity o) (limit_price o)
     (stop_price o) (created_at o) (timeout o) (id o) (filled_qty o) s
     (fills o).

(** The dataclass constructor followed by [__post_init__].  The init
    parameters are the first eight fields and [filled_qty] (the only one
    of the four internal fields not declared [init=False]); [uuid] is the
    value produced by [uuid4().hex].  The checks run in source order. *)
Definition __init__ (symbol : string) (side : SignalType)
    (order_type : OrderType) (quantity : Z) (limit_price stop_price : option Q)
    (created_at : Z) (timeout : option Z) (filled_qty : Z) (uuid : string)
  : result t :=
  if quantity <=? 0 then Raise (ValueError "quantity must be positive")
  else if match order_type, limit_price with LIMIT, None => true | _, _ => false end
  then Raise (ValueError "limit_price required for LIMIT orders")
  else if match order_type, stop_price with STOP, None => true | _, _ => false end
  then Raise (ValueError "stop_price required for STOP orders")
  else if match side with HOLD => true | _ => false end
  then Raise (ValueError "Order side cannot be HOLD")
  else Ok (mk symbol side order_type quantity limit_price stop_price
              created_at timeout uuid filled_qty PENDING []).

Definition remaining (o : t) : Z := quantity o - filled_qty o.

Definition is_open (o : t) : bool :=
  match status o with
  | PENDING | PARTIALLY_FILLED => true
  | _ => false
  end.

(** [r] is the reference of the fill object [f]. *)
Definition _record_fill (o : t) (r : fill_ref) (f : FillEvent.t) : t :=
  let fq := filled_qty o + FillEvent.quantity f in
  mk (symbol o) (side o) (order_type o) (quantity o) (limit_price o)
     (stop_price o) (created_at o) (timeout o) (id o) fq
     (if quantity o <=? fq then FILLED else PARTIALLY_FILLED)
     (fills o ++ [r]).

Definition maybe_timeout (o : t) (now : Z) : t :=
  match timeout o with
  | None => o
  | Some d =>
      if negb (is_open o) then o
      else if d <? now - created_at o then set_status o EXPIRED
      else o
  end.

Definition cancel (o : t) : t :=
  if is_open o then set_status o CANCELLED else o.
End Order.

(** ** The object store *)

Record Heap : Type := mkHeap {
  order_objs : list Order.t;
  fill_objs : list FillEvent.t
}.

Definition empty_heap : Heap := mkHeap [] [].

Definition get_order (h : Heap) (r : order_ref) : option Order.t :=
  order_objs h !! r.

Definition get_fill (h : Heap) (r : fill_ref) : option FillEvent.t :=
  fill_objs h !! r.

Definition put_order (h : Heap) (r : order_ref) (o : Order.t) : Heap :=
  mkHeap (<[r := o]> (order_objs h)) (fill_objs h).

Definition put_fill (h : Heap) (r : fill_ref) (f : FillEvent.t) : Heap :=
  mkHeap (order_objs h) (<[r := f]> (fill_objs h)).

(** Allocation: the new object gets the next free index. *)
Definition new_order (h : Heap) (o : Order.t) : Heap * order_ref :=
  (mkHeap (order_objs h ++ [o]) (fill_objs h), length (order_objs h)).

Definition new_fill (h : Heap) (f : FillEvent.t) : Heap * fill_ref :=
  (mkHeap (order_objs h) (fill_objs h ++ [f]), length (fill_objs h)).

(** ** src/orders/order_book.py: OrderBook *)

Module OrderBook.
Record t : Type := mk {
  _orders : list (string * list order_ref);
  history : list order_ref;
  _max_qty_per_fill : option Z
}.

Definition __init__ (max_qty_per_fill : option Z) : t :=
  mk [] [] max_qty_per_fill.

(** [self._orders[order.symbol].append(order); self.history.append(order)]
    on a [defaultdict(list)]. *)
Definition add_order (h : Heap) (self : t) (r : order_ref) : t :=
  match get_order h r with
  | None => self
  | Some o =>
      let s := Order.symbol o in
      mk (dict_set s (default [] (dict_get s (_orders self)) ++ [r])
            (_orders self))
         (history self ++ [r])
         (_max_qty_per_fill self)
  end.

(** The search of [cancel_order] through a list of references: the first
    open order with the given id is cancelled. *)
Fixpoint cancel_in (h : Heap) (order_id : string) (rs : list order_ref)
  : Heap * bool :=
  match rs with
  | [] => (h, false)
  | r :: rs' =>
      match get_order h r with
      | Some o =>
          if bool_decide (Order.id o = order_id) && Order.is_open o
          then (put_order h r (Order.cancel o), true)
          else cancel_in h order_id rs'
      | None => cancel_in h order_id rs'
      end
  end.

Definition cancel_order (h : Heap) (self : t) (order_id : string)
  : Heap * bool :=
  cancel_in h order_id (concat (map snd (_orders self))).

(** Eligibility and fill price of an open order on one bar: [None] is the
    [continue] of the loop.  A comparison of a float with [None] raises
    [TypeError]; [and] and [or] are evaluated left to right. *)
Definition fill_decision (o : Order.t) (price high low : Q)
  : result (option Q) :=
  match Order.order_type o with
  | MARKET => Ok (Some price)
  | LIMIT =>
      match Order.side o with
      | BUY =>
          match Order.limit_price o with
          | None => Raise TypeError
          | Some l =>
              if Qle_bool low l then Ok (Some (py_min l price)) else Ok None
          end
      | SELL =>
          match Order.limit_price o with
          | None => Raise TypeError
          | Some l =>
              if Qle_bool l high then Ok (Some (py_max l price)) else Ok None
          end
      | HOLD => Ok None
      end
  | STOP =>
      match Order.side o with
      | BUY =>
          match Order.stop_price o with
          | None => Raise TypeError
          | Some s => if Qle_bool s high then Ok (Some price) else Ok None
          end
      | SELL =>
          match Order.stop_price o with
          | None => Raise TypeError
          | Some s => if Qle_bool low s then Ok (Some price) else Ok None
          end
      | HOLD => Ok None
      end
  end.

Definition effective_cap (self_cap max_qty_per_fill : option Z) : option Z :=
  match max_qty_per_fill with
  | Some c => Some c
  | None => self_cap
  end.

(** Quantity executed this bar. *)
Definition fill_qty (cap : option Z) (o : Order.t) : Z :=
  match cap with
  | None => Order.remaining o
  | Some c =>
      if 0 <? Order.filled_qty o then Order.remaining o
      else Z.min (Order.remaining o) c
  end.

(** One iteration of the loop of [process_bar]; the state is the heap and
    the local list [fills]. *)
Definition process_order (self_cap : option Z) (symbol : string) (time : Z)
    (price high low commission : Q) (max_qty_per_fill : option Z)
    (st : Heap * list fill_ref) (r : order_ref)
  : result (Heap * list fill_ref) :=
  let '(h, fs) := st in
  match get_order h r with
  | None => Ok st
  | Some o =>
      if negb (Order.is_open o) then Ok st
      else
        let o1 := Order.maybe_timeout o time in
        let h1 := put_order h r o1 in
        if negb (Order.is_open o1) then Ok (h1, fs)
        else
          d ← fill_decision o1 price high low;
          match d with
          | None => Ok (h1, fs)
          | Some fill_price =>
              let qty :=
                fill_qty (effective_cap self_cap max_qty_per_fill) o1 in
              let fill :=
                FillEvent.mk symbol time (Order.side o1) qty fill_price
                             commission in
              let '(h2, fr) := new_fill h1 fill in
              Ok (put_order h2 r (Order._record_fill o1 fr fill), fs ++ [fr])
          end
  end.

Definition process_bar (h : Heap) (self : t) (symbol : string) (time : Z)
    (price high low commission : Q) (max_qty_per_fill : option Z)
  : result (Heap * list fill_ref) :=
  match dict_get symbol (_orders self) with
  | None => Ok (h, [])
  | Some rs =>
      foldM (process_order (_max_qty_per_fill self) symbol time price high
               low commission max_qty_per_fill) rs (h, [])
  end.
End OrderBook.

(** ** src/orders/manager.py: OrderManager *)

Module OrderManager.
Definition _validate (o : Order.t) : result unit :=
  if Order.quantity o <=? 0
  then Raise (ExecutionError "Order quantity must be positive")
  else Ok tt.

Definition submit (h : Heap) (order_book : OrderBook.t) (r : order_ref)
  : result OrderBook.t :=
  match get_order h r with
  | None => Ok order_book
  | Some o =>
      _ ← _validate o;
      Ok (OrderBook.add_order h order_book r)
  end.
End OrderManager.

(** ** src/portfolio/manager.py: Position, PortfolioManager *)

Module Position.
Record t : Type := mk {
  quantity : Z;
  avg_price : Q
}.

Definition market_value (p : t) (price : Q) : Q :=
  (inject_Z (quantity p) * price)%Q.

Definition unrealised_pnl (p : t) (price : Q) : Q :=
  ((price - avg_price p) * inject_Z (quantity p))%Q.
End Position.

(** [sum(...)] of Python: starts from 0 and adds from left to right. *)
Definition py_sum (l : list Q) : Q := fold_left Qplus l 0%Q.

Module PortfolioManager.
Record t : Type := mk {
  cash : Q;
  max_leverage : Q;
  _positions : list (string * Position.t);
  trade_history : list fill_ref;
  _equity_history : list (Z * Q)
}.

Definition __init__ (starting_cash max_leverage : Q) : t :=
  mk starting_cash max_leverage [] [] [].

(** [1 if fill.fill_type == SignalType.BUY else -1] *)
Definition direction (fill_type : SignalType) : Z :=
  match fill_type with
  | BUY => 1
  | _ => -1
  end.

(** The position of a symbol; a symbol never traded has the value that
    [setdefault(symbol, Position())] would create. *)
Definition position (self : t) (sym : string) : Position.t :=
  default (Position.mk 0 0) (dict_get sym (_positions self)).

(** [r] is the reference of the fill object, [fill] its content when
    [apply_fill] runs. *)
Definition apply_fill (self : t) (r : fill_ref) (fill : FillEvent.t) : t :=
  let pos := position self (FillEvent.symbol fill) in
  let d := direction (FillEvent.fill_type fill) in
  let new_qty := Position.quantity pos + d * FillEvent.quantity fill in
  let avg :=
    if new_qty =? 0 then 0%Q
    else ((Position.avg_price pos * inject_Z (Z.abs (Position.quantity pos))
           + FillEvent.price fill * inject_Z (FillEvent.quantity fill))
          / inject_Z (Z.abs new_qty))%Q in
  let trade_cost :=
    (FillEvent.price fill * inject_Z (FillEvent.quantity fill)
     + FillEvent.commission fill)%Q in
  mk (cash self - inject_Z d * trade_cost)%Q
     (max_leverage self)
     (dict_set (FillEvent.symbol fill) (Position.mk new_qty avg)
        (_positions self))
     (trade_history self ++ [r])
     (_equity_history self).

Definition update_with_fill (self : t) (r : fill_ref) (fill : FillEvent.t) : t :=
  apply_fill self r fill.

Definition margin_used (self : t) : Q := py_max (- cash self) 0.

Definition margin_limit (self : t) (equity : Q) : Q :=
  py_max (equity * (max_leverage self - 1)) 0.

Definition mark (prices : list (string * Q)) (sym : string) : Q :=
  default 0%Q (dict_get sym prices).

Definition market_value (self : t) (prices : list (string * Q)) : Q :=
  py_sum (map (fun sp => Position.market_value (snd sp) (mark prices (fst sp)))
            (_positions self)).

Definition total_equity (self : t) (prices : list (string * Q)) : Q :=
  (cash self + market_value self prices)%Q.
(** The value that [save] hands to [json.dumps] and that [load] gets back
    from [json.loads]: the serialisation itself is not modelled.  The
    trades are copies of the fills as they are when [save] runs. *)
Record SavedState : Type := mkSaved {
  saved_cash : Q;
  saved_positions : list (string * (Z * Q));
  saved_trades : list FillEvent.t
}.

Definition save (h : Heap) (self : t) : SavedState :=
  mkSaved (cash self)
    (map (fun sp => (fst sp, (Position.quantity (snd sp),
                              Position.avg_price (snd sp))))
       (_positions self))
    (omap (get_fill h) (trade_history self)).

Definition load (data : SavedState) : t :=
  let obj := __init__ 100000 2 in
  mk (saved_cash data) (max_leverage obj)
     (fold_left
        (fun d si => dict_set (fst si)
                       (Position.mk (fst (snd si)) (snd (snd si))) d)
        (saved_positions data) (_positions obj))
     (trade_history obj) (_equity_history obj).
End PortfolioManager.

(** ** src/broker/paper.py: PaperBroker *)

Module PaperBroker.
Record t : Type := mk {
  latency : Z;
  slippage_pct : Q;
  _delay_queue : list (Z * order_ref);
  order_book : OrderBook.t;
  portfolio : PortfolioManager.t;
  fills : list fill_ref;
  _equity_curve : list (Z * Q);
  _last_prices : list (string * Q)
}.

Definition __init__ (starting_cash : Q) (latency : Z) (slippage_pct : Q)
    (max_qty_per_fill : option Z) : t :=
  mk latency slippage_pct [] (OrderBook.__init__ max_qty_per_fill)
     (PortfolioManager.__init__ starting_cash 2) [] [] [].

(** [utcnow] is the reading of the wall clock, used when [now] is absent.
    This is the method when the sum [ts + self.latency] is within the range
    of [datetime]; outside of it the sum raises [OverflowError]
    ([datetime_add]), which the calls of a client ([broker_exec]) model. *)
Definition submit_order (self : t) (r : order_ref) (now : option Z)
    (utcnow : Z) : t :=
  let ts := default utcnow now in
  let ready_ts := ts + latency self in
  mk (latency self) (slippage_pct self) (_delay_queue self ++ [(ready_ts, r)])
     (order_book self) (portfolio self) (fills self) (_equity_curve self)
     (_last_prices self).

(** Index of the first queue entry whose order has the given id. *)
Fixpoint queue_index (h : Heap) (order_id : string) (q : list (Z * order_ref))
  : option nat :=
  match q with
  | [] => None
  | (_, r) :: q' =>
      match get_order h r with
      | Some o =>
          if bool_decide (Order.id o = order_id) then Some O
          else S <$> queue_index h order_id q'
      | None => S <$> queue_index h order_id q'
      end
  end.

Definition cancel_order (h : Heap) (self : t) (order_id : string)
  : Heap * t * bool :=
  match queue_index h order_id (_delay_queue self) with
  | Some idx =>
      (h,
       mk (latency self) (slippage_pct self) (delete idx (_delay_queue self))
          (order_book self) (portfolio self) (fills self) (_equity_curve self)
          (_last_prices self),
       true)
  | None =>
      let '(h', b) := OrderBook.cancel_order h (order_book self) order_id in
      (h', self, b)
  end.

(** [while self._delay_queue and self._delay_queue[0][0] <= time]: the loop
    pops from the head only, and stops at the first entry that is not ready. *)
Fixpoint flush (h : Heap) (q : list (Z * order_ref)) (book : OrderBook.t)
    (time : Z) : list (Z * order_ref) * OrderBook.t :=
  match q with
  | [] => ([], book)
  | (ready_ts, r) :: q' =>
      if ready_ts <=? time then flush h q' (OrderBook.add_order h book r) time
      else (q, book)
  end.

(** The body of [for f in fills]: the price of the fill object is updated in
    place, then the portfolio reads the object. *)
Definition slip_and_apply (slippage_pct : Q)
    (st : Heap * PortfolioManager.t) (r : fill_ref)
  : Heap * PortfolioManager.t :=
  let '(h, pm) := st in
  match get_fill h r with
  | None => st
  | Some f =>
      let f' :=
        if truthy slippage_pct then
          match FillEvent.fill_type f with
          | BUY => FillEvent.set_price f (FillEvent.price f * (1 + slippage_pct))%Q
          | _ => FillEvent.set_price f (FillEvent.price f * (1 - slippage_pct))%Q
          end
        else f in
      (put_fill h r f', PortfolioManager.apply_fill pm r f')
  end.

Definition on_price_tick (h : Heap) (self : t) (symbol : string) (time : Z)
    (price high low commission : Q) : result (Heap * t * list fill_ref) :=
  let last_prices := dict_set symbol price (_last_prices self) in
  let '(queue, book) := flush h (_delay_queue self) (order_book self) time in
  '(h1, new_fills) ←
    OrderBook.process_bar h book symbol time price high low commission None;
  let '(h2, pm) :=
    fold_left (slip_and_apply (slippage_pct self)) new_fills
      (h1, portfolio self) in
  let equity := PortfolioManager.total_equity pm last_prices in
  Ok (h2,
      mk (latency self) (slippage_pct self) queue book pm
         (fills self ++ new_fills) (_equity_curve self ++ [(time, equity)])
         last_prices,
      new_fills).

Definition equity (self : t) (prices : list (string * Q)) : Q :=
  PortfolioManager.total_equity (portfolio self) prices.

Definition reset (self : t) : t :=
  mk (latency self) (slippage_pct self) []
     (OrderBook.__init__ (OrderBook._max_qty_per_fill (order_book self)))
     (PortfolioManager.__init__
        (PortfolioManager.cash (portfolio self)
         + PortfolioManager.margin_used (portfolio self))%Q 2)
     [] (_equity_curve self) (_last_prices self).

Definition is_open_ref (h : Heap) (r : order_ref) : bool :=
  match get_order h r with
  | Some o => Order.is_open o
  | None => false
  end.

Definition pending_orders (h : Heap) (self : t) : list order_ref :=
  map snd (_delay_queue self)
  ++ filter (fun r => is_open_ref h r = true)
       (concat (map snd (OrderBook._orders (order_book self)))).
End PaperBroker.

(** ** src/backtesting/engine.py: BacktestEngine *)

(** One row of a price table: the [Close] column, and the optional [High]
    and [Low] columns. *)
Record Row : Type := mkRow {
  Close : Q;
  High : option Q;
  Low : option Q
}.

(** A [DataFrame] indexed by time, rows in index order.  The index may
    repeat a timestamp and need not be sorted. *)
Definition DataFrame := list (Z * Row).

(** The row at the first occurrence of [t] in the index. *)
Fixpoint row_at (df : DataFrame) (t : Z) : option Row :=
  match df with
  | [] => None
  | (t', row) :: df' => if t' =? t then Some row else row_at df' t
  end.

(** The rows that the engine reads at one timestamp: [t in df.index]
    followed by [float(df.loc[t]["Close"])].  No row when [t] is not in
    the index, the row of [t] when [t] occurs once.  When [t] occurs
    several times [df.loc[t]] is a frame, its ["Close"] a series of several
    values, and [float] raises [TypeError]. *)
Definition loc (df : DataFrame) (t : Z) : result (option Row) :=
  match count_occ Z.eq_dec (map fst df) t with
  | O => Ok None
  | S O => Ok (row_at df t)
  | S (S _) => Raise TypeError
  end.

(** [index.is_monotonic_increasing] and [index.is_monotonic_decreasing]:
    equal neighbours are allowed. *)
Fixpoint is_monotonic_increasing (index : list Z) : bool :=
  match index with
  | x :: index' =>
      match index' with
      | y :: _ => (x <=? y) && is_monotonic_increasing index'
      | [] => true
      end
  | [] => true
  end.

Fixpoint is_monotonic_decreasing (index : list Z) : bool :=
  match index with
  | x :: index' =>
      match index' with
      | y :: _ => (y <=? x) && is_monotonic_decreasing index'
      | [] => true
      end
  | [] => true
  end.

(** The positions of [label] in an index whose first position is [i]. *)
Fixpoint positions_from (i : nat) (index : list Z) (label : Z) : list nat :=
  match index with
  | [] => []
  | t :: index' =>
      if t =? label then i :: positions_from (S i) index' label
      else positions_from (S i) index' label
  end.

(** [index.get_slice_bound(label, "right")] of pandas, the end of the slice
    [df.loc[:label]].
    - A label of the index: the position after its last occurrence when
      its occurrences are adjacent, and [KeyError] when they are not.
    - A label that is not in the index: the insertion point of a binary
      search, that is the number of entries up to the label in an
      increasing index and the number of entries from the label on in a
      decreasing index; [KeyError] in an index that is neither. *)
Definition get_slice_bound_right (index : list Z) (label : Z) : result nat :=
  match positions_from 0 index label with
  | p :: ps =>
      let stop := S (List.last ps p) in
      if (stop - p =? length (p :: ps))%nat then Ok stop
      else Raise (KeyError "Cannot get right slice bound for non-unique label")
  | [] =>
      if is_monotonic_increasing index
      then Ok (length (filter (fun t => t <= label) index))
      else if is_monotonic_decreasing index
      then Ok (length (filter (fun t => label <= t) index))
      else Raise (KeyError_label label)
  end.

(** [df.loc[:dt]]: the rows before the right slice bound of [dt]. *)
Definition loc_upto (df : DataFrame) (dt : Z) : result DataFrame :=
  stop ← get_slice_bound_right (map fst df) dt;
  Ok (take stop df).

(** [enumerate(l)], counting from [i]. *)
Fixpoint enumerate_from {A : Type} (i : nat) (l : list A) : list (nat * A) :=
  match l with
  | [] => []
  | a :: l' => (i, a) :: enumerate_from (S i) l'
  end.

Definition enumerate {A : Type} (l : list A) : list (nat * A) :=
  enumerate_from 0 l.

(** [a % b] on [int]: the remainder has the sign of [b], and a zero [b]
    raises [ZeroDivisionError]. *)
Definition py_mod (a b : Z) : result Z :=
  if b =? 0 then Raise ZeroDivisionError else Ok (a mod b).

(** The external strategy: its optional ["symbol"] parameter and its
    [generate_signals]. *)
Record Strategy : Type := mkStrategy {
  parameters_symbol : option string;
  generate_signals : DataFrame -> list (string * Signal)
}.

(** Insertion into a strictly increasing list of dates, for
    [sorted(set().union(...))]. *)
Fixpoint insert_date (t : Z) (l : list Z) : list Z :=
  match l with
  | [] => [t]
  | x :: l' =>
      if t <? x then t :: l
      else if t =? x then l
      else x :: insert_date t l'
  end.

Module BacktestEngine.
Record t : Type := mk {
  data : list (string * DataFrame);
  symbols : list string;
  dates : list Z;
  strategies : list Strategy;
  portfolio : PortfolioManager.t;
  commission : Q;
  slippage_pct : Q;
  progress_interval : Z;
  order_book : OrderBook.t
}.

Definition __init__ (data : list (string * DataFrame))
    (strategies : list Strategy) (starting_cash commission slippage_pct : Q)
    (progress_interval : Z) : t :=
  mk data (map fst data)
     (fold_right insert_date [] (concat (map (fun sd => map fst (snd sd)) data)))
     strategies (PortfolioManager.__init__ starting_cash 2) commission
     slippage_pct progress_interval (OrderBook.__init__ None).

(** [self.data[symbol]] raises [KeyError] on an unknown symbol. *)
Definition data_of (self : t) (sym : string) : result DataFrame :=
  match dict_get sym (data self) with
  | Some df => Ok df
  | None => Raise (KeyError sym)
  end.

Definition _price_at (self : t) (sym : string) (time : Z) : result (option Q) :=
  df ← data_of self sym;
  row ← loc df time;
  Ok (Close <$> (row : option Row)).

(** The market events of a date, reduced to their symbol and price. *)
Definition _generate_market_events (self : t) (time : Z)
  : result (list (string * Q)) :=
  foldM (fun events sym =>
           p ← _price_at self sym time;
           match p with
           | None => Ok events
           | Some price => Ok (events ++ [(sym, price)])
           end)
        (symbols self) [].

(** The program state that [run] changes: the objects, the book and the
    portfolio of the engine, and the local [equity_curve]. *)
Record state : Type := mkState {
  heap : Heap;
  book : OrderBook.t;
  pm : PortfolioManager.t;
  equity_curve : list (Z * Q)
}.

(** [_process_signals] on the one signal [run] passes: a fixed lot of 100 at
    market.  [uuid4 n] is the identifier given to the [n]-th order object
    and [utcnow] the clock reading that becomes [created_at]. *)
Definition _process_signals (uuid4 : nat -> string) (utcnow : Z)
    (st : state) (sym : string) (sig : SignalType) : result state :=
  match sig with
  | HOLD => Ok st
  | _ =>
      o ← Order.__init__ sym sig MARKET 100 None None utcnow None 0
            (uuid4 (length (order_objs (heap st))));
      let '(h, r) := new_order (heap st) o in
      Ok (mkState h (OrderBook.add_order h (book st) r) (pm st)
            (equity_curve st))
  end.

(** [{strat.parameters.get("symbol", sym) for sym in self.symbols}], listed
    in the order of [self.symbols]. *)
Definition required_syms (self : t) (strat : Strategy) : list string :=
  match parameters_symbol strat with
  | Some s => match symbols self with [] => [] | _ => [s] end
  | None => remove_dups (symbols self)
  end.

Definition strategy_signals (uuid4 : nat -> string) (utcnow : Z) (self : t)
    (dt : Z) (st : state) (strat : Strategy) : result state :=
  foldM (fun st sym =>
           df ← data_of self sym;
           df ← loc_upto df dt;
           let sigs := generate_signals strat df in
           match dict_get sym sigs with
           | Some se => _process_signals uuid4 utcnow st sym (signal_type se)
           | None => Ok st
           end)
        (required_syms self strat) st.

Definition apply_fills (h : Heap) (p : PortfolioManager.t)
    (fs : list fill_ref) : PortfolioManager.t :=
  fold_left (fun p r =>
               match get_fill h r with
               | Some f => PortfolioManager.update_with_fill p r f
               | None => p
               end) fs p.

Definition _execute_orders (self : t) (time : Z) (st : state) : result state :=
  foldM (fun st sym =>
           df ← data_of self sym;
           row ← loc df time;
           match row with
           | None => Ok st
           | Some row =>
               let close := Close row in
               let high := default close (High row) in
               let low := default close (Low row) in
               '(h, fs) ←
                 OrderBook.process_bar (heap st) (book st) sym time close high
                   low (commission self) None;
               Ok (mkState h (book st) (apply_fills h (pm st) fs)
                     (equity_curve st))
           end)
        (symbols self) st.

(** [self._price_at(sym, dt) or 0.0] *)
Definition price_or_zero (p : option Q) : Q :=
  match p with
  | Some x => if truthy x then x else 0%Q
  | None => 0%Q
  end.

(** [{sym: self._price_at(sym, dt) or 0.0 for sym in self.symbols}] *)
Definition prices_now (self : t) (dt : Z) : result (list (string * Q)) :=
  foldM (fun prices sym =>
           p ← _price_at self sym dt;
           Ok (dict_set sym (price_or_zero p) prices))
        (symbols self) [].

(** The body of the loop of [run] at the position [idx] of [enumerate].
    The progress message goes to the standard output, which is not part of
    the state; the remainder that decides on it is computed, and raises
    when [progress_interval] is 0. *)
Definition run_step (uuid4 : nat -> string) (utcnow : Z) (self : t)
    (st : state) (idx_dt : nat * Z) : result state :=
  let '(idx, dt) := idx_dt in
  market_events ← _generate_market_events self dt;
  match market_events with
  | [] => Ok st
  | _ =>
      st1 ← foldM (strategy_signals uuid4 utcnow self dt) (strategies self) st;
      st2 ← _execute_orders self dt st1;
      prices ← prices_now self dt;
      let equity := PortfolioManager.total_equity (pm st2) prices in
      let st3 := mkState (heap st2) (book st2) (pm st2)
                   (equity_curve st2 ++ [(dt, equity)]) in
      _ ← py_mod (Z.of_nat idx + 1) (progress_interval self);
      Ok st3
  end.

Definition initial_state (self : t) : state :=
  mkState empty_heap (order_book self) (portfolio self) [].

(** The loop of [run]. *)
Definition run_loop (uuid4 : nat -> string) (utcnow : Z) (self : t)
  : result state :=
  foldM (run_step uuid4 utcnow self) (enumerate (dates self))
    (initial_state self).

(** [pd.DataFrame(equity_curve).set_index("time")]: the frame of an empty
    list has no column, and [set_index] raises [KeyError]. *)
Definition set_index_time (equity_curve : list (Z * Q))
  : result (list (Z * Q)) :=
  match equity_curve with
  | [] => Raise (KeyError "None of ['time'] are in the columns")
  | _ :: _ => Ok equity_curve
  end.

Definition run (uuid4 : nat -> string) (utcnow : Z) (self : t)
  : result (list (Z * Q)) :=
  st ← run_loop uuid4 utcnow self;
  set_index_time (equity_curve st).
End BacktestEngine.

(** ** Clients of the order book

    A client of [OrderBook] constructs orders and calls the methods of the
    book and of its orders, in any order.  [op] lists these calls and
    [run_ops] executes a sequence of them on the heap and the book. *)

Inductive op : Type :=
| NewOrder (symbol : string) (side : SignalType) (order_type : OrderType)
    (quantity : Z) (limit_price stop_price : option Q) (created_at : Z)
    (timeout : option Z) (filled_qty : Z) (uuid : string)
| AddOrder (r : order_ref)
| ProcessBar (symbol : string) (time : Z) (price high low commission : Q)
    (max_qty_per_fill : option Z)
| CancelOrder (order_id : string)
| MaybeTimeout (r : order_ref) (now : Z).

(** A constructor that raises creates no object; the exception is the
    caller's to handle and the state is as before. *)
Definition exec (st : Heap * OrderBook.t) (c : op) : result (Heap * OrderBook.t) :=
  let '(h, b) := st in
  match c with
  | NewOrder sym sd ty q lp sp ca tmo fq uuid =>
      match Order.__init__ sym sd ty q lp sp ca tmo fq uuid with
      | Ok o => Ok (fst (new_order h o), b)
      | Raise _ => Ok (h, b)
      end
  | AddOrder r => Ok (h, OrderBook.add_order h b r)
  | ProcessBar sym time price high low commission cap =>
      '(h', _) ← OrderBook.process_bar h b sym time price high low commission cap;
      Ok (h', b)
  | CancelOrder order_id => Ok (fst (OrderBook.cancel_order h b order_id), b)
  | MaybeTimeout r now =>
      match get_order h r with
      | Some o => Ok (put_order h r (Order.maybe_timeout o now), b)
      | None => Ok (h, b)
      end
  end.

Definition run_ops (ops : list op) (st : Heap * OrderBook.t)
  : result (Heap * OrderBook.t) :=
  foldM exec ops st.

(** A cap, when given, is a positive number of units. *)
Definition cap_positive (cap : option Z) : Prop :=
  match cap with
  | Some c => 0 < c
  | None => True
  end.

(** The order is constructed with [filled_qty] left at its default. *)
Definition default_filled_qty (c : op) : Prop :=
  match c with
  | NewOrder _ _ _ _ _ _ _ _ fq _ => fq = 0
  | _ => True
  end.

(** The order is constructed with a [filled_qty] that is not negative, and
    a bar is processed with a positive cap or none. *)
Definition positive_caps (c : op) : Prop :=
  match c with
  | NewOrder _ _ _ _ _ _ _ _ fq _ => 0 <= fq
  | ProcessBar _ _ _ _ _ _ cap => cap_positive cap
  | _ => True
  end.

(** ** Properties of orders *)

(** What [__post_init__] checks. *)
Definition order_valid (o : Order.t) : Prop :=
  0 < Order.quantity o
  /\ Order.side o <> HOLD
  /\ (Order.order_type o = LIMIT -> Order.limit_price o <> None)
  /\ (Order.order_type o = STOP -> Order.stop_price o <> None).

(** [sum(fill.quantity for fill in order.fills)] *)
Definition fills_quantity (fs : list FillEvent.t) (o : Order.t) : Z :=
  fold_right Z.add 0
    (map (fun r => default 0 (FillEvent.quantity <$> fs !! r)) (Order.fills o)).

(** The accounting invariant of an order. *)
Definition order_accounting (fs : list FillEvent.t) (o : Order.t) : Prop :=
  fills_quantity fs o = Order.filled_qty o
  /\ Order.filled_qty o <= Order.quantity o
  /\ (Order.status o = FILLED <-> Order.filled_qty o = Order.quantity o).

(** Every order object of the heap has the property [P]. *)
Definition heap_inv (P : list FillEvent.t -> Order.t -> Prop) (h : Heap) : Prop :=
  forall r o, get_order h r = Some o -> P (fill_objs h) o.

(** The references held by the book. *)
Definition book_refs (b : OrderBook.t) : list order_ref :=
  concat (map snd (OrderBook._orders b)).

(** The invariants carried through the calls of a client: validity alone,
    and validity with the accounting invariant (the references of the fills
    of an order point into the heap). *)
Definition P_valid_only (_ : list FillEvent.t) (o : Order.t) : Prop :=
  order_valid o.

Definition fills_bounded (fs : list FillEvent.t) (o : Order.t) : Prop :=
  Forall (fun r => (r < length fs)%nat) (Order.fills o).

Definition P_accounting (fs : list FillEvent.t) (o : Order.t) : Prop :=
  order_valid o /\ fills_bounded fs o /\ order_accounting fs o.

(** The first fill of an order has a positive quantity. *)
Definition P_first_fill (_ : list FillEvent.t) (o : Order.t) : Prop :=
  order_valid o /\ 0 <= Order.filled_qty o
  /\ (Order.fills o <> [] -> 0 < Order.filled_qty o).

(** ** Example runs

    The scenario of [tests/test_order_management.py::test_partial_fill_handling]:
    a book with [max_qty_per_fill=50] and a market sell order for 120. *)

Definition partial_fill_ops : list op :=
  [NewOrder "AAPL" SELL MARKET 120 None None 0 None 0 "5f0c";
   AddOrder 0%nat;
   ProcessBar "AAPL" 0 100 101 99 0 None].

Definition partial_fill_state : Heap * OrderBook.t :=
  (mkHeap
     [Order.mk "AAPL" SELL MARKET 120 None None 0 None "5f0c" 50
        PARTIALLY_FILLED [0%nat]]
     [FillEvent.mk "AAPL" 0 SELL 50 100 0],
   OrderBook.mk [("AAPL", [0%nat])] [0%nat] (Some 50)).

(** An order constructed with an explicit [filled_qty]. *)
Definition prefilled_ops : list op :=
  [NewOrder "AAPL" BUY MARKET 10 None None 0 None 3 "9a1e";
   AddOrder 0%nat;
   ProcessBar "AAPL" 0 100 101 99 0 None].

(** ** Sequences of fills applied to a portfolio *)

(** What a fill adds to the position of [sym]: its quantity, signed by its
    direction, when the fill is on [sym]. *)
Definition signed_quantity (sym : string) (f : FillEvent.t) : Z :=
  if bool_decide (FillEvent.symbol f = sym)
  then PortfolioManager.direction (FillEvent.fill_type f) * FillEvent.quantity f
  else 0.

Definition signed_sum (sym : string) (fs : list (fill_ref * FillEvent.t)) : Z :=
  fold_right Z.add 0 (map (fun rf => signed_quantity sym (snd rf)) fs).

(** [apply_fill] called on each fill in turn. *)
Definition apply_all (pm : PortfolioManager.t)
    (fs : list (fill_ref * FillEvent.t)) : PortfolioManager.t :=
  fold_left (fun p rf => PortfolioManager.apply_fill p (fst rf) (snd rf)) fs pm.

(** ** The latency queue *)

(** The entries that [flush] moves to the book: the leading run of entries
    that are ready. *)
Fixpoint ready_prefix (q : list (Z * order_ref)) (time : Z)
  : list (Z * order_ref) :=
  match q with
  | [] => []
  | (ready_ts, r) :: q' =>
      if ready_ts <=? time then (ready_ts, r) :: ready_prefix q' time else []
  end.

(** The entries that [flush] leaves in the queue. *)
Fixpoint ready_rest (q : list (Z * order_ref)) (time : Z)
  : list (Z * order_ref) :=
  match q with
  | [] => []
  | (ready_ts, r) :: q' =>
      if ready_ts <=? time then ready_rest q' time else q
  end.

(** All the entries whose ready-timestamp is at most [time], and the others. *)
Definition ready_entries (q : list (Z * order_ref)) (time : Z)
  : list (Z * order_ref) :=
  filter (fun e => fst e <= time) q.

Definition waiting_entries (q : list (Z * order_ref)) (time : Z)
  : list (Z * order_ref) :=
  filter (fun e => ~ fst e <= time) q.


(** The broker with another latency queue. *)
Definition with_queue (b : PaperBroker.t) (q : list (Z * order_ref))
  : PaperBroker.t :=
  PaperBroker.mk (PaperBroker.latency b) (PaperBroker.slippage_pct b) q
    (PaperBroker.order_book b) (PaperBroker.portfolio b) (PaperBroker.fills b)
    (PaperBroker._equity_curve b) (PaperBroker._last_prices b).

(** ** Example runs of the broker *)

(** A market order to buy 10 AAPL, just constructed. *)
Definition buy_order (uuid : string) : Order.t :=
  Order.mk "AAPL" BUY MARKET 10 None None 0 None uuid 0 PENDING [].

Definition one_order_heap : Heap := mkHeap [buy_order "c3d4"] [].

Definition two_order_heap : Heap :=
  mkHeap [buy_order "c3d4"; buy_order "e5f6"] [].

(** A broker with 100 in cash, no latency and no slippage, after the order
    was submitted at time 0. *)
Definition small_broker : PaperBroker.t :=
  PaperBroker.submit_order (PaperBroker.__init__ 100 0 0 None) 0%nat (Some 0) 0.

(** The broker of [tests/test_paper_broker.py] (slippage 0.001) without
    latency, after the order was submitted at time 0. *)
Definition slippage_broker : PaperBroker.t :=
  PaperBroker.submit_order (PaperBroker.__init__ 100000 0 (1 # 1000) None)
    0%nat (Some 0) 0.

(** Two orders submitted to a broker without latency, the first with
    [now=100], the second with [now=10]. *)
Definition unordered_broker : PaperBroker.t :=
  PaperBroker.submit_order
    (PaperBroker.submit_order (PaperBroker.__init__ 100000 0 0 None)
       0%nat (Some 100) 0)
    1%nat (Some 10) 0.


(** ** Slippage *)

(** The fill object after the update that [on_price_tick] makes in place. *)
Definition slipped (slippage_pct : Q) (f : FillEvent.t) : FillEvent.t :=
  if truthy slippage_pct then
    match FillEvent.fill_type f with
    | BUY => FillEvent.set_price f (FillEvent.price f * (1 + slippage_pct))%Q
    | _ => FillEvent.set_price f (FillEvent.price f * (1 - slippage_pct))%Q
    end
  else f.

(** The fill objects of the references [fs], after that update. *)
Fixpoint slipped_fills (slippage_pct : Q) (h : Heap) (fs : list fill_ref)
  : list (fill_ref * FillEvent.t) :=
  match fs with
  | [] => []
  | r :: fs' =>
      match get_fill h r with
      | Some f => (r, slipped slippage_pct f) :: slipped_fills slippage_pct h fs'
      | None => slipped_fills slippage_pct h fs'
      end
  end.

(** The fill object [r] is in the list [fills] of an order. *)
Definition recorded (h : Heap) (r : fill_ref) : Prop :=
  exists ro o, get_order h ro = Some o /\ In r (Order.fills o).

(** ** The backtest loop *)

(** The close of [sym] at [dt], when [sym] has a bar at [dt]. *)
Definition close_at (self : BacktestEngine.t) (sym : string) (dt : Z)
  : option Q :=
  match dict_get sym (BacktestEngine.data self) with
  | Some df => Close <$> row_at df dt
  | None => None
  end.

(** The symbols of [syms] that have a bar at [dt], with their close. *)
Fixpoint bars_at (self : BacktestEngine.t) (dt : Z) (syms : list string)
  : list (string * Q) :=
  match syms with
  | [] => []
  | s :: syms' =>
      match close_at self s dt with
      | Some p => (s, p) :: bars_at self dt syms'
      | None => bars_at self dt syms'
      end
  end.

(** The engine as [__init__] builds it, with strategies whose ["symbol"]
    parameter, when they have one, names a symbol of the data. *)
Definition engine_wf (self : BacktestEngine.t) : Prop :=
  BacktestEngine.symbols self = map fst (BacktestEngine.data self)
  /\ forall strat s,
       In strat (BacktestEngine.strategies self) ->
       parameters_symbol strat = Some s ->
       In s (BacktestEngine.symbols self).

(** Every price table of the engine is a time series: its timestamps
    strictly increase. *)
Definition time_series (self : BacktestEngine.t) : Prop :=
  forall sym df,
    dict_get sym (BacktestEngine.data self) = Some df ->
    StronglySorted Z.lt (map fst df).

(** The mark as the specification words it: the close of the last bar of
    [df] at or before [dt], and 0 when there is none. *)
Definition claimed_mark (df : DataFrame) (dt : Z) : Q :=
  match reverse (filter (fun tr => fst tr <= dt) df) with
  | (_, row) :: _ => Close row
  | [] => 0%Q
  end.

(** The equity sample with that mark. *)
Definition claimed_equity (self : BacktestEngine.t) (p : PortfolioManager.t)
    (dt : Z) : Q :=
  (PortfolioManager.cash p
   + py_sum
       (map (fun sp =>
               inject_Z (Position.quantity (snd sp))
               * claimed_mark
                   (default [] (dict_get (fst sp) (BacktestEngine.data self)))
                   dt)
          (PortfolioManager._positions p)))%Q.

(** Two symbols: A has bars at the times 1 and 2, B at the time 1 only.  The
    strategy signals a BUY of B when the history has the one bar of time
    1. *)
Definition sparse_data : list (string * DataFrame) :=
  [("A", [(1, mkRow 10 None None); (2, mkRow 11 None None)]);
   ("B", [(1, mkRow 20 None None)])].

Definition buy_b : Strategy :=
  mkStrategy None
    (fun df =>
       match df with
       | [(1, _)] => [("B", mkSignal BUY 1)]
       | _ => []
       end).

Definition sparse_engine : BacktestEngine.t :=
  BacktestEngine.__init__ sparse_data [buy_b] 10000 1 0 100.

(** A source of distinct identifiers. *)
Fixpoint example_uuid4 (n : nat) : string :=
  match n with
  | O => "a"
  | S n' => String.append "a" (example_uuid4 n')
  end.

(** The dates at which some symbol has a bar. *)
Fixpoint processed_dates (self : BacktestEngine.t) (dts : list Z) : list Z :=
  match dts with
  | [] => []
  | dt :: dts' =>
      match bars_at self dt (BacktestEngine.symbols self) with
      | [] => processed_dates self dts'
      | _ :: _ => dt :: processed_dates self dts'
      end
  end.

(** The order of [tests/test_order_management.py::
    test_limit_order_not_filled_when_price_not_reached]: a limit order to
    buy 100 AAPL at 95. *)
Definition limit_order : Order.t :=
  Order.mk "AAPL" BUY LIMIT 100 (Some 95%Q) None 0 None "d7e8" 0 PENDING [].

Definition limit_heap : Heap := mkHeap [limit_order] [].

(** The order of [tests/test_order_management.py::test_order_timeout_expires]:
    a market order with a timeout of one second, created at time 0. *)
Definition timeout_order : Order.t :=
  Order.mk "AAPL" BUY MARKET 100 None None 0 (Some 1000000) "b2c3" 0 PENDING [].

Definition timeout_heap : Heap := mkHeap [timeout_order] [].

(** The broker of [tests/test_paper_broker.py]: a latency of 60 seconds and
    a slippage of 0.001, after the order was submitted at time 0. *)
Definition latency_broker : PaperBroker.t :=
  PaperBroker.submit_order
    (PaperBroker.__init__ 100000 60000000 (1 # 1000) None) 0%nat (Some 0) 0.

(** The book [b'] holds everything the book [b] holds, in the same order:
    the history and the list of every symbol are extended at the back. *)
Definition book_extends (b b' : OrderBook.t) : Prop :=
  (exists added, OrderBook.history b' = OrderBook.history b ++ added)
  /\ (forall sym, exists added,
        default [] (dict_get sym (OrderBook._orders b'))
        = default [] (dict_get sym (OrderBook._orders b)) ++ added)
  /\ OrderBook._max_qty_per_fill b' = OrderBook._max_qty_per_fill b.

(** The history and the per-symbol lists hold the same references. *)
Definition history_is_book (b : OrderBook.t) : Prop :=
  forall r, In r (OrderBook.history b) <-> In r (book_refs b).

(** ** The cost basis of a position *)

(** The money exchanged by the fills on [sym], commissions apart. *)
Definition traded_value (sym : string) (fs : list (fill_ref * FillEvent.t)) : Q :=
  fold_right Qplus 0%Q
    (map (fun rf =>
            if bool_decide (FillEvent.symbol (snd rf) = sym)
            then (FillEvent.price (snd rf)
                  * inject_Z (FillEvent.quantity (snd rf)))%Q
            else 0%Q) fs).

(** Every fill on [sym] goes in the direction [d] (1 for BUY, -1 for SELL)
    and has a positive quantity. *)
Definition same_direction (sym : string) (d : Z)
    (fs : list (fill_ref * FillEvent.t)) : Prop :=
  Forall (fun rf =>
            FillEvent.symbol (snd rf) = sym ->
            PortfolioManager.direction (FillEvent.fill_type (snd rf)) = d
            /\ 0 < FillEvent.quantity (snd rf)) fs.

(** Three purchases of AAPL and one of MSFT. *)
Definition three_buys : list (fill_ref * FillEvent.t) :=
  [(0%nat, FillEvent.mk "AAPL" 0 BUY 10 100 1);
   (1%nat, FillEvent.mk "MSFT" 0 BUY 7 50 1);
   (2%nat, FillEvent.mk "AAPL" 1 BUY 30 110 1);
   (3%nat, FillEvent.mk "AAPL" 2 BUY 10 90 1)].

(** A portfolio of 100000 in cash and ten AAPL. *)
Definition cash_and_aapl : PortfolioManager.t :=
  PortfolioManager.mk 100000 2 [("AAPL", Position.mk 10 100)] [] [].

Definition two_prices : list (string * Q) := [("AAPL", 100%Q); ("MSFT", 50%Q)].

(** ** Clients of the broker

    A client of [PaperBroker] constructs orders and calls [submit_order],
    [cancel_order], [on_price_tick] and [reset], in any order. *)








(** ** src/strategies/buy_and_hold.py: BuyAndHoldStrategy

    [generate_signals]: a BUY of AAPL whenever the data is not empty.
    [parameters_symbol] is the ["symbol"] entry of the parameters given to
    the constructor of the base class. *)
Definition BuyAndHoldStrategy (parameters_symbol : option string) : Strategy :=
  mkStrategy parameters_symbol
    (fun data =>
       match data with
       | [] => []
       | _ :: _ => [("AAPL", mkSignal BUY 1)]
       end).

(** A strategy without ["symbol"] parameter that signals a BUY of [sym] on
    every history that is not empty. *)
Definition always_buys (strat : Strategy) (sym : string) : Prop :=
  parameters_symbol strat = None
  /\ forall data, data <> [] ->
       exists c, dict_get sym (generate_signals strat data)
                 = Some (mkSignal BUY c).

(** The equity curve of a portfolio that buys one lot of 100 at the close of
    every bar and pays the commission each time: [cash] and [held] are the
    cash and the quantity held before the first bar of [df]. *)
Fixpoint lot_per_bar_curve (cash : Q) (held : Z) (commission : Q)
    (df : DataFrame) : list (Z * Q) :=
  match df with
  | [] => []
  | (t, row) :: df' =>
      let cash' := (cash - (Close row * 100 + commission))%Q in
      let held' := held + 100 in
      (t, (cash' + inject_Z held' * Close row)%Q)
      :: lot_per_bar_curve cash' held' commission df'
  end.

(** Two curves with the same timestamps and equal values. *)
Definition same_curve (c1 c2 : list (Z * Q)) : Prop :=
  Forall2 (fun a b => fst a = fst b /\ (snd a == snd b)%Q) c1 c2.

Definition two_bars : DataFrame :=
  [(1, mkRow 10 None None); (2, mkRow 12 None None)].

(** The state of an engine whose orders are all closed: the invariant of a
    run in which every order is filled on the bar of its creation.  The
    references in the list of [sym] point to order objects. *)
Definition lot_inv (sym : string) (st : BacktestEngine.state) : Prop :=
  (forall r o, get_order (BacktestEngine.heap st) r = Some o ->
               Order.is_open o = false)
  /\ OrderBook._max_qty_per_fill (BacktestEngine.book st) = None
  /\ Forall (fun r => (r < length (order_objs (BacktestEngine.heap st)))%nat)
       (default [] (dict_get sym (OrderBook._orders (BacktestEngine.book st)))).

(** ** src/backtesting/metrics.py: the trade statistics

    [np.nan] is [None].  [open_pos] is the dict of the last BUY fill of each
    symbol that no SELL has closed yet. *)

(** [d.pop(k)] on a key that is present. *)
Fixpoint dict_pop {V : Type} (k : string) (d : list (string * V))
  : list (string * V) :=
  match d with
  | [] => []
  | (k', v) :: d' =>
      if bool_decide (k' = k) then d' else (k', v) :: dict_pop k d'
  end.

Module metrics.
(** The loop of [win_loss_ratio]; the state is [(wins, losses, open_pos)]. *)
Definition win_loss_step (st : Z * Z * list (string * FillEvent.t))
    (fill : FillEvent.t) : Z * Z * list (string * FillEvent.t) :=
  let '(wins, losses, open_pos) := st in
  match FillEvent.fill_type fill with
  | BUY => (wins, losses, dict_set (FillEvent.symbol fill) fill open_pos)
  | SELL =>
      match dict_get (FillEvent.symbol fill) open_pos with
      | Some entry =>
          let pnl :=
            ((FillEvent.price fill - FillEvent.price entry)
             * inject_Z (FillEvent.quantity entry))%Q in
          if Qlt_bool 0 pnl
          then (wins + 1, losses, dict_pop (FillEvent.symbol fill) open_pos)
          else (wins, losses + 1, dict_pop (FillEvent.symbol fill) open_pos)
      | None => st
      end
  | HOLD => st
  end.

Definition win_loss_ratio (trades : option (list FillEvent.t)) : option Q :=
  match trades with
  | None | Some [] => None
  | Some l =>
      let '(wins, losses, _) := fold_left win_loss_step l (0, 0, []) in
      let total := wins + losses in
      if total =? 0 then None else Some (inject_Z wins / inject_Z total)%Q
  end.

(** [timedelta.days] of a difference in microseconds. *)
Definition days (delta : Z) : Z := delta / 86400000000.

(** The loop of [average_trade_duration]; the state is
    [(durations, open_pos)]. *)
Definition duration_step (st : list Z * list (string * FillEvent.t))
    (fill : FillEvent.t) : list Z * list (string * FillEvent.t) :=
  let '(durations, open_pos) := st in
  match FillEvent.fill_type fill with
  | BUY => (durations, dict_set (FillEvent.symbol fill) fill open_pos)
  | SELL =>
      match dict_get (FillEvent.symbol fill) open_pos with
      | Some entry =>
          (durations ++ [days (FillEvent.time fill - FillEvent.time entry)],
           dict_pop (FillEvent.symbol fill) open_pos)
      | None => st
      end
  | HOLD => st
  end.

(** [float(np.mean(durations))] *)
Definition mean (l : list Z) : Q :=
  (inject_Z (fold_right Z.add 0%Z l) / inject_Z (Z.of_nat (length l)))%Q.

Definition average_trade_duration (trades : option (list FillEvent.t))
  : option Q :=
  match trades with
  | None | Some [] => None
  | Some l =>
      let '(durations, _) := fold_left duration_step l ([], []) in
      match durations with
      | [] => None
      | _ :: _ => Some (mean durations)
      end
  end.
End metrics.

(** A purchase closed with a gain, a purchase closed at the same price, and
    a sale without a purchase. *)
Definition three_round_trips : list FillEvent.t :=
  [FillEvent.mk "AAPL" 0 BUY 10 100 0;
   FillEvent.mk "AAPL" 86400000000 SELL 10 110 0;
   FillEvent.mk "MSFT" 0 BUY 5 50 0;
   FillEvent.mk "MSFT" 1 SELL 5 50 0;
   FillEvent.mk "AAPL" 2 SELL 10 120 0].

(** ** src/backtesting/engine.py: Position, Portfolio

    The portfolio class of the engine module, with its own [Position]. *)
Module Portfolio.
Record Position : Type := mkPosition {
  quantity : Z;
  avg_price : Q
}.

Record t : Type := mk {
  cash : Q;
  positions : list (string * Position);
  trades : list fill_ref
}.

Definition __init__ (starting_cash : Q) : t := mk starting_cash [] [].

(** [self.positions[fill.symbol]] on a [defaultdict(Position)]; [r] is the
    reference of the fill object. *)
Definition update_with_fill (self : t) (r : fill_ref) (fill : FillEvent.t) : t :=
  let pos :=
    default (mkPosition 0 0) (dict_get (FillEvent.symbol fill) (positions self)) in
  let direction :=
    match FillEvent.fill_type fill with BUY => 1 | _ => -1 end in
  let new_qty := quantity pos + direction * FillEvent.quantity fill in
  let avg :=
    if new_qty =? 0 then 0%Q
    else ((avg_price pos * inject_Z (Z.abs (quantity pos))
           + FillEvent.price fill * inject_Z (FillEvent.quantity fill))
          / inject_Z (Z.abs new_qty))%Q in
  let cost :=
    (FillEvent.price fill * inject_Z (FillEvent.quantity fill)
     + FillEvent.commission fill)%Q in
  mk (cash self - inject_Z direction * cost)%Q
     (dict_set (FillEvent.symbol fill) (mkPosition new_qty avg) (positions self))
     (trades self ++ [r]).

Definition market_value (self : t) (prices : list (string * Q)) : Q :=
  py_sum (map (fun sp =>
                 (inject_Z (quantity (snd sp))
                  * default 0%Q (dict_get (fst sp) prices))%Q)
            (positions self)).

Definition total_equity (self : t) (prices : list (string * Q)) : Q :=
  (cash self + market_value self prices)%Q.
End Portfolio.

(** The position of [portfolio/manager.py] with the fields of a position of
    [backtesting/engine.py]. *)
Definition as_manager_position (p : Portfolio.Position) : Position.t :=
  Position.mk (Portfolio.quantity p) (Portfolio.avg_price p).

(** The two portfolios hold the same cash, positions and trades. *)
Definition same_books (p : Portfolio.t) (pm : PortfolioManager.t) : Prop :=
  Portfolio.cash p = PortfolioManager.cash pm
  /\ map (fun sp => (fst sp, as_manager_position (snd sp))) (Portfolio.positions p)
     = PortfolioManager._positions pm
  /\ Portfolio.trades p = PortfolioManager.trade_history pm.

(** [update_with_fill] called on each fill in turn. *)
Definition update_all (p : Portfolio.t) (fs : list (fill_ref * FillEvent.t))
  : Portfolio.t :=
  fold_left (fun p rf => Portfolio.update_with_fill p (fst rf) (snd rf)) fs p.

(** ** The progress of a market order

    A market order without timeout for [q] units at stage [k]: at stage 0 it
    is open, at stage 1 it has had a fill, at stage 2 it is FILLED with all
    of [q]; a later stage includes the FILLED order. *)
Definition market_stage (k : nat) (q : Z) (o : Order.t) : Prop :=
  Order.order_type o = MARKET /\ Order.timeout o = None
  /\ Order.quantity o = q
  /\ ((Order.is_open o = true /\ (k <= 1)%nat
       /\ (if k is O then 0 <= Order.filled_qty o else 0 < Order.filled_qty o)
       /\ Order.filled_qty o < q)
      \/ (Order.status o = FILLED /\ Order.filled_qty o = q)).

(** ** What a pass of [process_bar] does to an order

    [receives_fill h rs h' fs r o f]: in the pass over the list [rs] that
    led from the heap [h] to the heap [h'] and returned the fills [fs], the
    order [o] at [r] received the fill [f]: a fill object created by the
    pass, returned by it, and recorded on the order after the fills it
    had.  When the list holds every order once, nothing else happened to
    the order. *)
Definition receives_fill (h : Heap) (rs : list order_ref) (h' : Heap)
    (fs : list fill_ref) (r : order_ref) (o : Order.t) (f : FillEvent.t)
  : Prop :=
  exists fr o',
    In fr fs
    /\ (length (fill_objs h) <= fr)%nat
    /\ get_fill h' fr = Some f
    /\ get_order h' r = Some o'
    /\ (exists more, Order.fills o' = Order.fills o ++ fr :: more)
    /\ (NoDup rs -> o' = Order._record_fill o fr f).

(** A book without cap that holds the order at the reference 0 under
    AAPL. *)
Definition one_order_book : OrderBook.t :=
  OrderBook.mk [("AAPL", [0%nat])] [0%nat] None.


(** * Proofs *)

(** ** The exception monad *)

Lemma foldM_cons {S A : Type} (body : S -> A -> result S) a l s :
  foldM body (a :: l) s = body s a ≫= foldM body l.
Proof. reflexivity. Qed.

Lemma bind_Ok {A B : Type} (a : A) (k : A -> result B) : Ok a ≫= k = k a.
Proof. reflexivity. Qed.

(** ** The heap *)

Lemma get_put_order h r o r' o' :
  get_order (put_order h r o) r' = Some o' ->
  (r' = r /\ o' = o) \/ get_order h r' = Some o'.
Proof.
  unfold get_order, put_order; simpl.
  destruct (decide (r = r')) as [->|Hne].
  - destruct (decide (r' < length (order_objs h))%nat) as [Hlt|Hge].
    + rewrite list_lookup_insert_eq by exact Hlt. intros [= <-]. now left.
    + rewrite list_insert_ge by lia. now right.
  - rewrite list_lookup_insert_ne by exact Hne. now right.
Qed.

Lemma get_put_order_eq h r o o0 :
  get_order h r = Some o0 -> get_order (put_order h r o) r = Some o.
Proof.
  unfold get_order, put_order; simpl. intros H.
  apply list_lookup_insert_eq. eapply lookup_lt_Some, H.
Qed.

Lemma get_put_order_ne h r o r' :
  r <> r' -> get_order (put_order h r o) r' = get_order h r'.
Proof.
  unfold get_order, put_order; simpl. intros H.
  now apply list_lookup_insert_ne.
Qed.

Lemma fill_objs_put_order h r o : fill_objs (put_order h r o) = fill_objs h.
Proof. reflexivity. Qed.

Lemma heap_inv_put_order P h r o :
  heap_inv P h -> P (fill_objs h) o -> heap_inv P (put_order h r o).
Proof.
  intros Hh Ho r' o' Hget. rewrite fill_objs_put_order.
  destruct (get_put_order _ _ _ _ _ Hget) as [[_ ->]|H]; [exact Ho|].
  eapply Hh, H.
Qed.

(** ** The loop of [process_bar] and the calls of a client preserve a
       property of orders *)

Section Preservation.
Variable P : list FillEvent.t -> Order.t -> Prop.
Variable op_ok : op -> Prop.
Variable cap_ok : option Z -> Prop.

Hypothesis P_valid : forall fs o, P fs o -> order_valid o.
Hypothesis P_alloc : forall fs f o, P fs o -> P (fs ++ [f]) o.
Hypothesis P_status : forall fs o s,
  P fs o -> Order.is_open o = true -> s = CANCELLED \/ s = EXPIRED ->
  P fs (Order.set_status o s).
Hypothesis P_fill : forall fs o cap sym time fp comm,
  P fs o -> Order.is_open o = true -> cap_ok cap ->
  let f := FillEvent.mk sym time (Order.side o) (OrderBook.fill_qty cap o)
             fp comm in
  P (fs ++ [f]) (Order._record_fill o (length fs) f).
Hypothesis P_new : forall sym sd ty q lp sp ca tmo fq uuid o fs,
  op_ok (NewOrder sym sd ty q lp sp ca tmo fq uuid) ->
  Order.__init__ sym sd ty q lp sp ca tmo fq uuid = Ok o -> P fs o.
Hypothesis op_ok_cap : forall sym time price high low comm mq self_cap,
  op_ok (ProcessBar sym time price high low comm mq) -> cap_ok self_cap ->
  cap_ok (OrderBook.effective_cap self_cap mq).

Lemma P_maybe_timeout fs o now : P fs o -> P fs (Order.maybe_timeout o now).
Proof.
  intros H. unfold Order.maybe_timeout.
  destruct (Order.timeout o) as [d|]; [|exact H].
  destruct (Order.is_open o) eqn:Hopen; simpl; [|exact H].
  destruct (d <? now - Order.created_at o); [|exact H].
  apply P_status; auto.
Qed.

Lemma P_cancel fs o : P fs o -> P fs (Order.cancel o).
Proof.
  intros H. unfold Order.cancel.
  destruct (Order.is_open o) eqn:Hopen; [|exact H].
  apply P_status; auto.
Qed.

Lemma fill_decision_valid o price high low :
  order_valid o -> exists d, OrderBook.fill_decision o price high low = Ok d.
Proof.
  intros (_ & _ & Hl & Hs). unfold OrderBook.fill_decision.
  destruct (Order.order_type o); [eauto| |].
  - destruct (Order.limit_price o); [|now destruct Hl].
    destruct (Order.side o); try destruct (Qle_bool _ _); eauto.
  - destruct (Order.stop_price o); [|now destruct Hs].
    destruct (Order.side o); try destruct (Qle_bool _ _); eauto.
Qed.

Lemma heap_inv_new_fill h f : heap_inv P h -> heap_inv P (fst (new_fill h f)).
Proof. intros Hh r o Hget. simpl. apply P_alloc. exact (Hh r o Hget). Qed.

Lemma process_order_preserves self_cap sym time price high low comm mq h fs r :
  cap_ok (OrderBook.effective_cap self_cap mq) -> heap_inv P h ->
  exists h' fs',
    OrderBook.process_order self_cap sym time price high low comm mq (h, fs) r
    = Ok (h', fs') /\ heap_inv P h'.
Proof.
  intros Hcap Hh. unfold OrderBook.process_order.
  destruct (get_order h r) as [o|] eqn:Hget; [|eauto].
  destruct (Order.is_open o) eqn:Hopen; simpl; [|eauto].
  pose proof (P_maybe_timeout _ _ time (Hh _ _ Hget)) as Ho1.
  set (o1 := Order.maybe_timeout o time) in *.
  assert (Hh1 : heap_inv P (put_order h r o1)) by now apply heap_inv_put_order.
  destruct (Order.is_open o1) eqn:Hopen1; simpl; [|eauto].
  destruct (fill_decision_valid o1 price high low (P_valid _ _ Ho1)) as [d ->].
  simpl. destruct d as [fp|]; [|eauto].
  eexists _, _. split; [reflexivity|].
  apply heap_inv_put_order.
  - apply (heap_inv_new_fill (put_order h r o1)), Hh1.
  - simpl. now apply P_fill.
Qed.

Lemma process_loop_preserves self_cap sym time price high low comm mq rs :
  cap_ok (OrderBook.effective_cap self_cap mq) ->
  forall h fs, heap_inv P h ->
  exists h' fs',
    foldM (OrderBook.process_order self_cap sym time price high low comm mq)
      rs (h, fs) = Ok (h', fs') /\ heap_inv P h'.
Proof.
  intros Hcap. induction rs as [|r rs IH]; intros h fs Hh.
  - simpl. eauto.
  - destruct (process_order_preserves self_cap sym time price high low comm
                mq h fs r Hcap Hh) as (h1 & fs1 & He & Hh1).
    rewrite foldM_cons, He, bind_Ok. apply IH, Hh1.
Qed.

Lemma process_bar_preserves h b sym time price high low comm mq :
  cap_ok (OrderBook.effective_cap (OrderBook._max_qty_per_fill b) mq) ->
  heap_inv P h ->
  exists h' fs',
    OrderBook.process_bar h b sym time price high low comm mq = Ok (h', fs')
    /\ heap_inv P h'.
Proof.
  intros Hcap Hh. unfold OrderBook.process_bar.
  destruct (dict_get sym (OrderBook._orders b)); [|eauto].
  now apply process_loop_preserves.
Qed.

Lemma cancel_in_preserves order_id rs :
  forall h, heap_inv P h -> heap_inv P (fst (OrderBook.cancel_in h order_id rs)).
Proof.
  induction rs as [|r rs IH]; intros h Hh; simpl; [exact Hh|].
  destruct (get_order h r) as [o|] eqn:Hget; [|now apply IH].
  destruct (bool_decide (Order.id o = order_id) && Order.is_open o);
    [|now apply IH].
  simpl. apply heap_inv_put_order; [exact Hh|]. apply P_cancel. eapply Hh, Hget.
Qed.

Lemma add_order_cap h b r :
  OrderBook._max_qty_per_fill (OrderBook.add_order h b r)
  = OrderBook._max_qty_per_fill b.
Proof. unfold OrderBook.add_order. now destruct (get_order h r). Qed.

Lemma exec_preserves h b c :
  op_ok c -> cap_ok (OrderBook._max_qty_per_fill b) -> heap_inv P h ->
  exists h' b',
    exec (h, b) c = Ok (h', b') /\ heap_inv P h'
    /\ OrderBook._max_qty_per_fill b' = OrderBook._max_qty_per_fill b.
Proof.
  intros Hok Hcap Hh. destruct c; simpl.
  - destruct (Order.__init__ _ _ _ _ _ _ _ _ _ _) as [o|e] eqn:Hinit;
      [|eauto].
    eexists _, _. split; [reflexivity|]. split; [|reflexivity].
    intros r' o' Hget. unfold get_order in Hget. simpl in *.
    apply lookup_app_Some in Hget as [Hget|[_ Hget]]; [exact (Hh r' o' Hget)|].
    apply list_lookup_singleton_Some in Hget as [_ <-].
    eapply P_new; eauto.
  - eexists _, _. split; [reflexivity|]. split; [exact Hh|apply add_order_cap].
  - destruct (process_bar_preserves h b symbol time price high low commission
                max_qty_per_fill) as (h' & fs' & -> & Hh'); eauto.
  - eexists _, _. split; [reflexivity|]. split; [|reflexivity].
    now apply cancel_in_preserves.
  - destruct (get_order h r) as [o|] eqn:Hget; [|eauto].
    eexists _, _. split; [reflexivity|]. split; [|reflexivity].
    apply heap_inv_put_order; [exact Hh|]. apply P_maybe_timeout. eapply Hh, Hget.
Qed.

Lemma run_ops_preserves ops :
  Forall op_ok ops ->
  forall h b, cap_ok (OrderBook._max_qty_per_fill b) -> heap_inv P h ->
  exists h' b',
    run_ops ops (h, b) = Ok (h', b') /\ heap_inv P h'
    /\ OrderBook._max_qty_per_fill b' = OrderBook._max_qty_per_fill b.
Proof.
  induction 1 as [|c ops Hc _ IH]; intros h b Hcap Hh; simpl.
  - eauto.
  - destruct (exec_preserves h b c Hc Hcap Hh) as (h1 & b1 & He & Hh1 & Hb1).
    unfold run_ops in *. rewrite foldM_cons, He, bind_Ok.
    destruct (IH h1 b1) as (h2 & b2 & Hr & Hh2 & Hb2); [congruence|exact Hh1|].
    eexists _, _. split; [exact Hr|]. split; [exact Hh2|congruence].
Qed.
End Preservation.

(** ** The constructor *)

Lemma init_Ok sym sd ty q lp sp ca tmo fq uuid o :
  Order.__init__ sym sd ty q lp sp ca tmo fq uuid = Ok o ->
  o = Order.mk sym sd ty q lp sp ca tmo uuid fq PENDING []
  /\ 0 < q /\ sd <> HOLD /\ (ty = LIMIT -> lp <> None) /\ (ty = STOP -> sp <> None).
Proof.
  unfold Order.__init__.
  destruct (q <=? 0) eqn:Hq; [discriminate|].
  apply Z.leb_gt in Hq.
  destruct ty, lp, sp, sd; simpl; intros [= <-];
    repeat split; try lia; congruence.
Qed.

Lemma init_Raise sym sd ty q lp sp ca tmo fq uuid e :
  Order.__init__ sym sd ty q lp sp ca tmo fq uuid = Raise e ->
  q <= 0 \/ sd = HOLD \/ (ty = LIMIT /\ lp = None) \/ (ty = STOP /\ sp = None).
Proof.
  unfold Order.__init__.
  destruct (q <=? 0) eqn:Hq; [apply Z.leb_le in Hq; now left|].
  destruct ty, lp, sp, sd; simpl; intros [=]; auto.
Qed.

Lemma init_valid sym sd ty q lp sp ca tmo fq uuid o :
  Order.__init__ sym sd ty q lp sp ca tmo fq uuid = Ok o -> order_valid o.
Proof.
  intros H. apply init_Ok in H as (-> & Hq & Hs & Hl & Hst).
  repeat split; simpl; auto.
Qed.

(** ** Validity is preserved by every call *)

Lemma run_ops_valid ops h b :
  heap_inv P_valid_only h ->
  exists h' b', run_ops ops (h, b) = Ok (h', b') /\ heap_inv P_valid_only h'
    /\ OrderBook._max_qty_per_fill b' = OrderBook._max_qty_per_fill b.
Proof.
  intros Hh.
  apply (run_ops_preserves P_valid_only (fun _ => True) (fun _ => True));
    unfold P_valid_only; auto.
  - intros. eapply init_valid; eauto.
  - apply Forall_forall. auto.
Qed.

Lemma heap_inv_empty P : heap_inv P empty_heap.
Proof. intros r o H. unfold get_order in H. simpl in H. now rewrite lookup_nil in H. Qed.

(** ** The accounting invariant *)

Lemma fills_quantity_alloc fs f o :
  fills_bounded fs o -> fills_quantity (fs ++ [f]) o = fills_quantity fs o.
Proof.
  unfold fills_bounded, fills_quantity.
  induction 1 as [|r rs Hr _ IH]; simpl; [reflexivity|].
  rewrite IH. f_equal. now rewrite lookup_app_l.
Qed.

Lemma fills_quantity_record fs o f :
  fills_bounded fs o ->
  fills_quantity (fs ++ [f]) (Order._record_fill o (length fs) f)
  = fills_quantity fs o + FillEvent.quantity f.
Proof.
  intros Hb. rewrite <- (fills_quantity_alloc fs f o Hb).
  unfold fills_quantity. simpl.
  rewrite map_app, fold_right_app. simpl.
  rewrite lookup_app_r, Nat.sub_diag by lia. simpl.
  generalize (map (fun r => default 0 (FillEvent.quantity <$> (fs ++ [f]) !! r))
                (Order.fills o)).
  intros l. induction l as [|x l IH]; simpl; lia.
Qed.

Lemma fill_qty_le cap o : OrderBook.fill_qty cap o <= Order.remaining o.
Proof.
  unfold OrderBook.fill_qty. destruct cap as [c|]; [|lia].
  destruct (0 <? Order.filled_qty o); lia.
Qed.

Lemma is_open_not_filled o : Order.is_open o = true -> Order.status o <> FILLED.
Proof. unfold Order.is_open. destruct (Order.status o); congruence. Qed.

Lemma P_accounting_preserved ops :
  Forall default_filled_qty ops ->
  forall h b, heap_inv P_accounting h ->
  exists h' b', run_ops ops (h, b) = Ok (h', b') /\ heap_inv P_accounting h'
    /\ OrderBook._max_qty_per_fill b' = OrderBook._max_qty_per_fill b.
Proof.
  intros Hops h b Hh.
  apply (run_ops_preserves P_accounting default_filled_qty (fun _ => True));
    auto.
  - now intros fs o (Hv & _).
  - intros fs f o (Hv & Hb & Hs & Hle & Hiff). split; [exact Hv|]. split.
    + eapply Forall_impl; [exact Hb|]. simpl. intros r Hr.
      rewrite length_app. simpl. lia.
    + split; [now rewrite fills_quantity_alloc|]. now split.
  - intros fs o s (Hv & Hb & Hs & Hle & Hiff) Hopen Hst.
    apply is_open_not_filled in Hopen.
    split; [exact Hv|]. split; [exact Hb|]. split; [exact Hs|].
    split; [exact Hle|]. simpl. split.
    + intros ->. now destruct Hst.
    + intros Heq. now apply Hiff in Heq.
  - intros fs o cap sym time fp comm (Hv & Hb & Hs & Hle & Hiff) Hopen _.
    apply is_open_not_filled in Hopen.
    pose proof (fill_qty_le cap o) as Hq. unfold Order.remaining in Hq.
    split; [exact Hv|]. split.
    + unfold fills_bounded. simpl. apply Forall_app. split.
      * eapply Forall_impl; [exact Hb|]. simpl. intros r Hr.
        rewrite length_app. simpl. lia.
      * constructor; [|constructor]. rewrite length_app. simpl. lia.
    + split; [|split].
      * rewrite fills_quantity_record by exact Hb. simpl. lia.
      * simpl. lia.
      * simpl. destruct (Z.leb_spec (Order.quantity o)
                           (Order.filled_qty o + OrderBook.fill_qty cap o));
          split; intros; try congruence; lia.
  - intros sym sd ty q lp sp ca tmo fq uuid o fs Hfq Hinit. simpl in Hfq.
    pose proof (init_valid _ _ _ _ _ _ _ _ _ _ _ Hinit) as Hv.
    apply init_Ok in Hinit as (-> & Hq & _). subst fq.
    split; [exact Hv|]. split; [constructor|].
    unfold order_accounting, fills_quantity. simpl.
    split; [reflexivity|]. split; [lia|]. split; [discriminate|lia].
Qed.

(** ** One iteration of the loop of [process_bar] *)

Lemma maybe_timeout_open o now :
  Order.is_open (Order.maybe_timeout o now) = true -> Order.is_open o = true.
Proof.
  unfold Order.maybe_timeout. destruct (Order.timeout o) as [d|]; [|auto].
  destruct (Order.is_open o) eqn:Hopen; simpl; [auto|congruence].
Qed.

Lemma maybe_timeout_still_open o now :
  Order.is_open (Order.maybe_timeout o now) = true -> Order.maybe_timeout o now = o.
Proof.
  unfold Order.maybe_timeout. destruct (Order.timeout o) as [d|]; [|auto].
  destruct (Order.is_open o) eqn:Hopen; simpl; [|auto].
  destruct (d <? now - Order.created_at o); [discriminate|auto].
Qed.

(** The fill that an eligible order receives. *)
Lemma process_order_fill self_cap sym time price high low comm mq h fs r o fp :
  get_order h r = Some o ->
  Order.is_open (Order.maybe_timeout o time) = true ->
  OrderBook.fill_decision (Order.maybe_timeout o time) price high low = Ok (Some fp) ->
  exists h',
    OrderBook.process_order self_cap sym time price high low comm mq (h, fs) r
    = Ok (h', fs ++ [length (fill_objs h)])
    /\ get_fill h' (length (fill_objs h))
       = Some (FillEvent.mk sym time (Order.side o)
                 (OrderBook.fill_qty (OrderBook.effective_cap self_cap mq) o)
                 fp comm)
    /\ get_order h' r
       = Some (Order._record_fill o (length (fill_objs h))
                 (FillEvent.mk sym time (Order.side o)
                    (OrderBook.fill_qty (OrderBook.effective_cap self_cap mq) o)
                    fp comm)).
Proof.
  intros Hget Hopen1 Hd.
  pose proof (maybe_timeout_open _ _ Hopen1) as Hopen.
  pose proof (maybe_timeout_still_open _ _ Hopen1) as Heq.
  unfold OrderBook.process_order. rewrite Hget, Hopen. simpl.
  rewrite Hopen1, Hd. simpl. rewrite Heq.
  eexists. split; [reflexivity|]. split.
  - unfold get_fill. simpl. rewrite lookup_app_r, Nat.sub_diag by lia. reflexivity.
  - apply get_put_order_eq with (o0 := o).
    unfold get_order. simpl. apply list_lookup_insert_eq.
    eapply lookup_lt_Some, Hget.
Qed.

(** An order that is not eligible is left as it is. *)
Lemma process_order_skip self_cap sym time price high low comm mq h fs r o :
  get_order h r = Some o ->
  Order.is_open (Order.maybe_timeout o time) = true ->
  OrderBook.fill_decision (Order.maybe_timeout o time) price high low = Ok None ->
  OrderBook.process_order self_cap sym time price high low comm mq (h, fs) r
  = Ok (h, fs).
Proof.
  intros Hget Hopen1 Hd.
  pose proof (maybe_timeout_open _ _ Hopen1) as Hopen.
  pose proof (maybe_timeout_still_open _ _ Hopen1) as Heq.
  unfold OrderBook.process_order. rewrite Hget, Hopen. simpl.
  rewrite Hopen1, Hd. simpl. rewrite Heq.
  unfold put_order. rewrite list_insert_id by exact Hget. now destruct h.
Qed.

(** ** The first fill has a positive quantity *)

Lemma P_first_fill_fill fs o cap sym time fp comm :
  P_first_fill fs o -> Order.is_open o = true -> cap_positive cap ->
  P_first_fill
    (fs ++ [FillEvent.mk sym time (Order.side o) (OrderBook.fill_qty cap o) fp comm])
    (Order._record_fill o (length fs)
       (FillEvent.mk sym time (Order.side o) (OrderBook.fill_qty cap o) fp comm)).
Proof.
  intros ((Hq & Hv) & H0 & Hf) Hopen Hcap.
  split; [exact (conj Hq Hv)|]. simpl.
  assert (0 < Order.filled_qty o + OrderBook.fill_qty cap o); [|split; [lia|auto]].
  unfold OrderBook.fill_qty, Order.remaining.
  destruct cap as [c|]; [|lia]. simpl in Hcap.
  destruct (Z.ltb_spec 0 (Order.filled_qty o)); lia.
Qed.

Lemma P_first_fill_valid fs o : P_first_fill fs o -> order_valid o.
Proof. now intros (Hv & _). Qed.

Lemma P_first_fill_alloc fs f o : P_first_fill fs o -> P_first_fill (fs ++ [f]) o.
Proof. intros H. exact H. Qed.

Lemma P_first_fill_status fs o s :
  P_first_fill fs o -> Order.is_open o = true -> s = CANCELLED \/ s = EXPIRED ->
  P_first_fill fs (Order.set_status o s).
Proof. intros H _ _. exact H. Qed.

Lemma P_first_fill_preserved ops :
  Forall positive_caps ops ->
  forall h b, cap_positive (OrderBook._max_qty_per_fill b) ->
  heap_inv P_first_fill h ->
  exists h' b', run_ops ops (h, b) = Ok (h', b') /\ heap_inv P_first_fill h'
    /\ OrderBook._max_qty_per_fill b' = OrderBook._max_qty_per_fill b.
Proof.
  intros Hops h b Hcap Hh.
  apply (run_ops_preserves P_first_fill positive_caps cap_positive
           P_first_fill_valid P_first_fill_alloc P_first_fill_status
           P_first_fill_fill); auto.
  - intros sym sd ty q lp sp ca tmo fq uuid o fs Hfq Hinit. simpl in Hfq.
    pose proof (init_valid _ _ _ _ _ _ _ _ _ _ _ Hinit) as Hv.
    apply init_Ok in Hinit as (-> & _). split; [exact Hv|]. simpl.
    split; [exact Hfq|congruence].
  - intros sym time price high low comm mq self_cap Hmq Hself. simpl in Hmq.
    destruct mq; simpl; auto.
Qed.

(** ** The fills that [process_bar] creates *)

Lemma recorded_put_order h r o o' x :
  get_order h r = Some o ->
  (forall y, In y (Order.fills o) -> In y (Order.fills o')) ->
  recorded h x -> recorded (put_order h r o') x.
Proof.
  intros Hget Hsub (ro & oo & Hro & Hin).
  destruct (decide (r = ro)) as [->|Hne].
  - exists ro, o'. split; [eapply get_put_order_eq, Hget|].
    apply Hsub. congruence.
  - exists ro, oo. split; [|exact Hin]. now rewrite get_put_order_ne.
Qed.

Lemma maybe_timeout_fills o now :
  Order.fills (Order.maybe_timeout o now) = Order.fills o.
Proof.
  unfold Order.maybe_timeout. destruct (Order.timeout o); [|reflexivity].
  destruct (negb (Order.is_open o)); [reflexivity|].
  now destruct (_ <? _).
Qed.

Lemma process_order_shape self_cap sym time price high low comm mq h fs r h' fs' :
  OrderBook.process_order self_cap sym time price high low comm mq (h, fs) r
  = Ok (h', fs') ->
  (forall x, recorded h x -> recorded h' x)
  /\ length (order_objs h') = length (order_objs h)
  /\ ((fs' = fs /\ fill_objs h' = fill_objs h)
      \/ (exists f, fs' = fs ++ [length (fill_objs h)]
                    /\ fill_objs h' = fill_objs h ++ [f]
                    /\ recorded h' (length (fill_objs h)))).
Proof.
  unfold OrderBook.process_order.
  destruct (get_order h r) as [o|] eqn:Hget; [|intros [= <- <-]; auto].
  destruct (Order.is_open o); simpl; [|intros [= <- <-]; auto].
  assert (Hrec1 : forall x, recorded h x ->
                    recorded (put_order h r (Order.maybe_timeout o time)) x).
  { intros x. apply recorded_put_order with (o := o); [exact Hget|].
    intros y. now rewrite maybe_timeout_fills. }
  destruct (Order.is_open (Order.maybe_timeout o time)); simpl.
  2:{ intros [= <- <-]. split; [exact Hrec1|]. split; [|now left].
      simpl. apply length_insert. }
  destruct (OrderBook.fill_decision _ price high low) as [[fp|]|e]; simpl;
    [| |discriminate].
  2:{ intros [= <- <-]. split; [exact Hrec1|]. split; [|now left].
      simpl. apply length_insert. }
  intros [= <- <-]. split; [|split].
  - intros x Hx. apply Hrec1 in Hx.
    eapply recorded_put_order with (o := Order.maybe_timeout o time).
    + unfold get_order. simpl. apply list_lookup_insert_eq.
      eapply lookup_lt_Some, Hget.
    + intros y Hy. simpl. apply in_or_app. now left.
    + destruct Hx as (ro & oo & Hro & Hin). now exists ro, oo.
  - simpl. now rewrite !length_insert.
  - right. eexists. split; [reflexivity|]. split; [reflexivity|].
    eexists r, _. split.
    + unfold get_order. simpl. apply list_lookup_insert_eq.
      rewrite length_insert. eapply lookup_lt_Some, Hget.
    + simpl. apply in_or_app. right. now left.
Qed.

Lemma process_loop_shape self_cap sym time price high low comm mq rs :
  forall h fs h' fs',
    foldM (OrderBook.process_order self_cap sym time price high low comm mq)
      rs (h, fs) = Ok (h', fs') ->
    exists new,
      fs' = fs ++ seq (length (fill_objs h)) (length new)
      /\ fill_objs h' = fill_objs h ++ new
      /\ length (order_objs h') = length (order_objs h)
      /\ (forall x, recorded h x -> recorded h' x)
      /\ (forall x, In x (seq (length (fill_objs h)) (length new)) ->
                    recorded h' x).
Proof.
  induction rs as [|r rs IH]; intros h fs h' fs'.
  - intros [= <- <-]. exists []. simpl. rewrite !app_nil_r. intuition.
  - rewrite foldM_cons.
    destruct (OrderBook.process_order self_cap sym time price high low comm mq
                (h, fs) r) as [[h1 fs1]|e] eqn:Hstep; [|discriminate].
    rewrite bind_Ok. intros Hrest.
    apply process_order_shape in Hstep as (Hrec & Hlen & Hcase).
    apply IH in Hrest as (new & -> & Hf & Hlen' & Hrec' & Hnew).
    destruct Hcase as [[-> Hsame]|(f & -> & Hf1 & Hr1)].
    + exists new. rewrite Hsame in *. split; [reflexivity|].
      split; [exact Hf|]. split; [congruence|]. split; auto.
    + exists (f :: new). rewrite Hf1 in *. rewrite length_app in *. simpl in *.
      rewrite <- app_assoc. simpl.
      replace (length (fill_objs h) + 1)%nat with (S (length (fill_objs h)))
        in * by lia.
      split; [reflexivity|]. split; [now rewrite Hf, <- app_assoc|].
      split; [congruence|]. split; [auto|].
      intros x [<-|Hx]; auto.
Qed.

Lemma process_bar_shape h b sym time price high low comm mq h' fs :
  OrderBook.process_bar h b sym time price high low comm mq = Ok (h', fs) ->
  fs = seq (length (fill_objs h)) (length fs)
  /\ length (fill_objs h') = (length (fill_objs h) + length fs)%nat
  /\ length (order_objs h') = length (order_objs h)
  /\ (forall x, In x fs -> recorded h' x).
Proof.
  unfold OrderBook.process_bar.
  destruct (dict_get sym (OrderBook._orders b)) as [rs|].
  - intros H. apply process_loop_shape in H as (new & -> & Hf & Hlen & _ & Hnew).
    simpl. rewrite length_seq, Hf, length_app. auto.
  - intros [= <- <-]. simpl. split; [reflexivity|]. split; [lia|].
    split; [reflexivity|]. intros x [].
Qed.

(** ** The references of the book point to order objects *)

Lemma dict_append_refs k (r : order_ref) d x :
  In x (concat (map snd (dict_set k (default [] (dict_get k d) ++ [r]) d)))
  <-> x = r \/ In x (concat (map snd d)).
Proof.
  induction d as [|[k' v'] d IH]; simpl.
  - split; [intros [->|[]]; auto|intros [->|[]]; auto].
  - destruct (bool_decide (k' = k)) eqn:E; simpl.
    + rewrite !in_app_iff. simpl. intuition auto.
    + rewrite !in_app_iff, IH. intuition auto.
Qed.

Lemma add_order_refs h b r x :
  In x (book_refs (OrderBook.add_order h b r))
  <-> (x = r /\ is_Some (get_order h r)) \/ In x (book_refs b).
Proof.
  unfold OrderBook.add_order, book_refs.
  destruct (get_order h r) as [o|]; simpl.
  - rewrite dict_append_refs. split.
    + intros [H|H]; [left; split; [exact H|eauto]|now right].
    + intros [[H _]|H]; [now left|now right].
  - split; [auto|intros [[_ [o Ho]]|H]; [discriminate|exact H]].
Qed.


Lemma cancel_in_length order_id rs :
  forall h,
    length (order_objs (fst (OrderBook.cancel_in h order_id rs)))
    = length (order_objs h).
Proof.
  induction rs as [|r rs IH]; intros h; simpl; [reflexivity|].
  destruct (get_order h r) as [o|]; [|apply IH].
  destruct (bool_decide (Order.id o = order_id) && Order.is_open o); [|apply IH].
  simpl. apply length_insert.
Qed.

Lemma exec_refs_bound h b c h' b' :
  exec (h, b) c = Ok (h', b') ->
  (forall r, In r (book_refs b) -> (r < length (order_objs h))%nat) ->
  forall r, In r (book_refs b') -> (r < length (order_objs h'))%nat.
Proof.
  intros He Hb r. destruct c; simpl in He.
  - destruct (Order.__init__ _ _ _ _ _ _ _ _ _ _); injection He as <- <-;
      intros Hr; apply Hb in Hr; simpl; [rewrite length_app; simpl|]; lia.
  - injection He as <- <-. intros Hr.
    apply add_order_refs in Hr as [[-> [o Ho]]|Hr]; [|now apply Hb].
    eapply lookup_lt_Some, Ho.
  - destruct (OrderBook.process_bar h b symbol time price high low commission
                max_qty_per_fill) as [[h1 fs]|e] eqn:Hp; [|discriminate].
    injection He as <- <-. intros Hr.
    apply process_bar_shape in Hp as (_ & _ & Hlen & _). rewrite Hlen.
    now apply Hb.
  - injection He as <- <-. intros Hr. unfold OrderBook.cancel_order.
    rewrite cancel_in_length. now apply Hb.
  - destruct (get_order h r0); injection He as <- <-; intros Hr;
      apply Hb in Hr; simpl; [rewrite length_insert|]; lia.
Qed.

Lemma run_ops_refs_bound ops :
  forall h b h' b',
    run_ops ops (h, b) = Ok (h', b') ->
    (forall r, In r (book_refs b) -> (r < length (order_objs h))%nat) ->
    forall r, In r (book_refs b') -> (r < length (order_objs h'))%nat.
Proof.
  induction ops as [|c ops IH]; intros h b h' b'; unfold run_ops.
  - intros [= <- <-]. auto.
  - rewrite foldM_cons.
    destruct (exec (h, b) c) as [[h1 b1]|e] eqn:He; [|discriminate].
    rewrite bind_Ok. intros Hrun Hb. eapply IH; [exact Hrun|].
    eapply exec_refs_bound; eauto.
Qed.

(** ** Claims on the order book *)

(** C1, at the failing input: an order constructed with [filled_qty=3] (the
    constructor accepts the field) has no fill and a filled quantity of 3;
    after it is added to a book and a bar is processed it is [FILLED] with a
    filled quantity of 10 and one fill of 7.  The accounting invariant fails
    in both states. *)
Theorem order_accounting_fails_for_prefilled_order :
  (exists o,
     Order.__init__ "AAPL" BUY MARKET 10 None None 0 None 3 "9a1e" = Ok o
     /\ fills_quantity [] o = 0 /\ Order.filled_qty o = 3
     /\ ~ order_accounting [] o)
  /\ (exists h b o,
        run_ops prefilled_ops (empty_heap, OrderBook.__init__ None) = Ok (h, b)
        /\ get_order h 0%nat = Some o
        /\ Order.status o = FILLED
        /\ fills_quantity (fill_objs h) o = 7 /\ Order.filled_qty o = 10
        /\ ~ order_accounting (fill_objs h) o).
Proof.
  split.
  - eexists. split; [reflexivity|]. split; [reflexivity|]. split; [reflexivity|].
    intros (H & _). vm_compute in H. discriminate.
  - eexists _, _, _. split; [vm_compute; reflexivity|].
    split; [reflexivity|]. split; [reflexivity|]. split; [reflexivity|].
    split; [reflexivity|].
    intros (H & _). vm_compute in H. discriminate.
Qed.

(** X1: for orders constructed with [filled_qty] left at its default, every
    sequence of constructor calls, [add_order], [process_bar],
    [cancel_order] and [maybe_timeout] runs without an exception and leaves
    every order with: the sum of the quantities of its fills equal to
    [filled_qty], [filled_qty <= quantity], and status [FILLED] iff
    [filled_qty = quantity]. *)
Theorem order_accounting_after_ops :
  forall ops cap0,
    Forall default_filled_qty ops ->
    exists h b,
      run_ops ops (empty_heap, OrderBook.__init__ cap0) = Ok (h, b)
      /\ forall r o, get_order h r = Some o -> order_accounting (fill_objs h) o.
Proof.
  intros ops cap0 Hops.
  destruct (P_accounting_preserved ops Hops empty_heap (OrderBook.__init__ cap0)
              (heap_inv_empty _)) as (h & b & Hrun & Hh & _).
  exists h, b. split; [exact Hrun|].
  intros r o Hget. now destruct (Hh r o Hget) as (_ & _ & Hacc).
Qed.

Lemma order_accounting_after_ops_witness :
  exists h b,
    run_ops partial_fill_ops (empty_heap, OrderBook.__init__ (Some 50)) = Ok (h, b)
    /\ forall r o, get_order h r = Some o -> order_accounting (fill_objs h) o.
Proof.
  apply (order_accounting_after_ops partial_fill_ops (Some 50)).
  repeat constructor.
Defined.

(** C8: the constructor raises iff the quantity is not positive, or the side
    is HOLD, or a LIMIT order has no limit price, or a STOP order has no stop
    price.  An order that was constructed passes the check of
    [OrderManager.submit] (and [OrderBook.add_order] checks nothing), and
    any sequence of calls runs without an exception and leaves every order
    object valid; every reference of the book points to such an object. *)
Theorem order_rejected_at_construction_only :
  (forall sym sd ty q lp sp ca tmo fq uuid,
     (exists e, Order.__init__ sym sd ty q lp sp ca tmo fq uuid = Raise e)
     <-> (q <= 0 \/ sd = HOLD \/ (ty = LIMIT /\ lp = None)
          \/ (ty = STOP /\ sp = None)))
  /\ (forall sym sd ty q lp sp ca tmo fq uuid,
        (exists o, Order.__init__ sym sd ty q lp sp ca tmo fq uuid = Ok o
                   /\ order_valid o
                   /\ OrderManager._validate o = Ok tt
                   /\ forall book,
                        OrderManager.submit (fst (new_order empty_heap o)) book 0%nat
                        = Ok (OrderBook.add_order (fst (new_order empty_heap o))
                                book 0%nat))
        \/ (exists e, Order.__init__ sym sd ty q lp sp ca tmo fq uuid = Raise e))
  /\ (forall ops cap0,
        exists h b,
          run_ops ops (empty_heap, OrderBook.__init__ cap0) = Ok (h, b)
          /\ (forall r o, get_order h r = Some o -> order_valid o)
          /\ (forall r, In r (book_refs b) ->
                exists o, get_order h r = Some o /\ order_valid o)).
Proof.
  split; [|split].
  - intros. split.
    + intros [e He]. eapply init_Raise, He.
    + intros H.
      destruct (Order.__init__ sym sd ty q lp sp ca tmo fq uuid) as [o|e] eqn:Hi;
        [|eauto].
      apply init_Ok in Hi as (_ & Hq & Hs & Hl & Hst).
      destruct H as [H|[H|[[H1 H2]|[H1 H2]]]]; [lia|congruence| |].
      * now destruct (Hl H1).
      * now destruct (Hst H1).
  - intros.
    destruct (Order.__init__ sym sd ty q lp sp ca tmo fq uuid) as [o|e] eqn:Hi;
      [left|right; eauto].
    pose proof (init_valid _ _ _ _ _ _ _ _ _ _ _ Hi) as Hv.
    assert (Hval : OrderManager._validate o = Ok tt).
    { unfold OrderManager._validate. destruct Hv as (Hq & _).
      destruct (Z.leb_spec (Order.quantity o) 0); [lia|reflexivity]. }
    exists o. split; [reflexivity|]. split; [exact Hv|]. split; [exact Hval|].
    intros book. unfold OrderManager.submit, get_order. simpl.
    now rewrite Hval.
  - intros ops cap0.
    destruct (run_ops_valid ops empty_heap (OrderBook.__init__ cap0)
                (heap_inv_empty _)) as (h & b & Hrun & Hh & _).
    exists h, b. split; [exact Hrun|]. split; [exact Hh|].
    intros r Hr.
    assert (Hlt : (r < length (order_objs h))%nat).
    { eapply run_ops_refs_bound; [exact Hrun| |exact Hr]. intros x []. }
    apply lookup_lt_is_Some in Hlt as [o Ho]. exists o.
    split; [exact Ho|exact (Hh r o Ho)].
Qed.

(** The scenario itself: 50 on the first bar, 70 on the next. *)
Example partial_fill_two_bars :
  exists h1 b1 h2,
    run_ops partial_fill_ops (empty_heap, OrderBook.__init__ (Some 50))
    = Ok (h1, b1)
    /\ (Order.status <$> get_order h1 0%nat) = Some PARTIALLY_FILLED
    /\ (Order.remaining <$> get_order h1 0%nat) = Some 70
    /\ (FillEvent.quantity <$> get_fill h1 0%nat) = Some 50
    /\ OrderBook.process_bar h1 b1 "AAPL" 60000000 99 (201 # 2) 98 0 None
       = Ok (h2, [1%nat])
    /\ (FillEvent.quantity <$> get_fill h2 1%nat) = Some 70
    /\ (Order.status <$> get_order h2 0%nat) = Some FILLED.
Proof.
  exists (fst partial_fill_state), (snd partial_fill_state).
  eexists. split; [vm_compute; reflexivity|].
  split; [reflexivity|]. split; [reflexivity|]. split; [reflexivity|].
  split; [vm_compute; reflexivity|]. split; reflexivity.
Qed.

(** ** Limit orders *)

Lemma py_min_Qmin a b : (py_min a b == Qmin a b)%Q.
Proof.
  unfold py_min, Qlt_bool.
  destruct (Qle_bool a b) eqn:H; simpl.
  - apply Qle_bool_iff in H. symmetry. now apply Q.min_l.
  - symmetry. apply Q.min_r. apply Qlt_le_weak, Qnot_le_lt.
    intros Hle. apply Qle_bool_iff in Hle. congruence.
Qed.

Lemma py_max_Qmax a b : (py_max a b == Qmax a b)%Q.
Proof.
  unfold py_max, Qlt_bool.
  destruct (Qle_bool b a) eqn:H; simpl.
  - apply Qle_bool_iff in H. symmetry. now apply Q.max_l.
  - symmetry. apply Q.max_r. apply Qlt_le_weak, Qnot_le_lt.
    intros Hle. apply Qle_bool_iff in Hle. congruence.
Qed.

Lemma Qle_bool_false a b : ~ (a <= b)%Q -> Qle_bool a b = false.
Proof.
  intros H. destruct (Qle_bool a b) eqn:E; [|reflexivity].
  apply Qle_bool_iff in E. contradiction.
Qed.

(** ** The portfolio *)

Lemma dict_get_set_eq {V : Type} k (v : V) d : dict_get k (dict_set k v d) = Some v.
Proof.
  induction d as [|[k' v'] d IH]; simpl.
  - now rewrite bool_decide_eq_true_2.
  - destruct (bool_decide (k' = k)) eqn:E; simpl; rewrite E; auto.
Qed.

Lemma dict_get_set_ne {V : Type} k k' (v : V) d :
  k <> k' -> dict_get k' (dict_set k v d) = dict_get k' d.
Proof.
  intros Hne. induction d as [|[k0 v0] d IH]; simpl.
  - now rewrite bool_decide_eq_false_2.
  - destruct (bool_decide (k0 = k)) eqn:E; simpl.
    + apply bool_decide_eq_true_1 in E. subst k0.
      now rewrite bool_decide_eq_false_2.
    + now rewrite IH.
Qed.

Lemma apply_fill_position pm r f :
  Position.quantity
    (PortfolioManager.position (PortfolioManager.apply_fill pm r f)
       (FillEvent.symbol f))
  = Position.quantity (PortfolioManager.position pm (FillEvent.symbol f))
    + PortfolioManager.direction (FillEvent.fill_type f) * FillEvent.quantity f.
Proof.
  unfold PortfolioManager.apply_fill, PortfolioManager.position at 1. simpl.
  now rewrite dict_get_set_eq.
Qed.

Lemma apply_fill_position_other pm r f s :
  s <> FillEvent.symbol f ->
  PortfolioManager.position (PortfolioManager.apply_fill pm r f) s
  = PortfolioManager.position pm s.
Proof.
  intros Hne. unfold PortfolioManager.apply_fill, PortfolioManager.position at 1.
  simpl. rewrite dict_get_set_ne by congruence. reflexivity.
Qed.

Lemma apply_fill_signed pm r f s :
  Position.quantity (PortfolioManager.position (PortfolioManager.apply_fill pm r f) s)
  = Position.quantity (PortfolioManager.position pm s) + signed_quantity s f.
Proof.
  unfold signed_quantity. destruct (decide (FillEvent.symbol f = s)) as [<-|Hne].
  - rewrite bool_decide_eq_true_2 by reflexivity. apply apply_fill_position.
  - rewrite bool_decide_eq_false_2 by exact Hne.
    rewrite apply_fill_position_other by congruence. lia.
Qed.

Lemma apply_all_position fs :
  forall pm s,
    Position.quantity (PortfolioManager.position (apply_all pm fs) s)
    = Position.quantity (PortfolioManager.position pm s) + signed_sum s fs.
Proof.
  induction fs as [|[r f] fs IH]; intros pm s; unfold apply_all, signed_sum;
    simpl; [lia|].
  fold (apply_all (PortfolioManager.apply_fill pm r f) fs).
  rewrite IH, apply_fill_signed. unfold signed_sum. lia.
Qed.

(** C2: a fill moves the position of its symbol by [+quantity] for a BUY and
    by [-quantity] for a SELL and leaves the other positions alone, so that
    after any sequence of fills the position of a symbol is the signed sum of
    the fills on it; and
    [cash_after = cash_before - direction * (price * qty + commission)],
    that is, cash goes down by [price * qty + commission] on a BUY and up by
    the same amount on a SELL. *)
Theorem apply_fill_position_and_cash :
  PortfolioManager.direction BUY = 1
  /\ PortfolioManager.direction SELL = -1
  /\ (forall pm r f,
        Position.quantity
          (PortfolioManager.position (PortfolioManager.apply_fill pm r f)
             (FillEvent.symbol f))
        = Position.quantity (PortfolioManager.position pm (FillEvent.symbol f))
          + PortfolioManager.direction (FillEvent.fill_type f)
            * FillEvent.quantity f
        /\ (forall s, s <> FillEvent.symbol f ->
              PortfolioManager.position (PortfolioManager.apply_fill pm r f) s
              = PortfolioManager.position pm s)
        /\ PortfolioManager.cash (PortfolioManager.apply_fill pm r f)
           = (PortfolioManager.cash pm
              - inject_Z (PortfolioManager.direction (FillEvent.fill_type f))
                * (FillEvent.price f * inject_Z (FillEvent.quantity f)
                   + FillEvent.commission f))%Q
        /\ (FillEvent.fill_type f = BUY ->
              (PortfolioManager.cash (PortfolioManager.apply_fill pm r f)
               == PortfolioManager.cash pm
                  - (FillEvent.price f * inject_Z (FillEvent.quantity f)
                     + FillEvent.commission f))%Q)
        /\ (FillEvent.fill_type f = SELL ->
              (PortfolioManager.cash (PortfolioManager.apply_fill pm r f)
               == PortfolioManager.cash pm
                  + (FillEvent.price f * inject_Z (FillEvent.quantity f)
                     + FillEvent.commission f))%Q))
  /\ (forall pm fs s,
        Position.quantity (PortfolioManager.position (apply_all pm fs) s)
        = Position.quantity (PortfolioManager.position pm s) + signed_sum s fs)
  /\ (forall starting_cash max_leverage fs s,
        Position.quantity
          (PortfolioManager.position
             (apply_all (PortfolioManager.__init__ starting_cash max_leverage) fs)
             s)
        = signed_sum s fs).
Proof.
  split; [reflexivity|]. split; [reflexivity|]. split; [|split].
  - intros pm r f. split; [apply apply_fill_position|].
    split; [intros s; apply apply_fill_position_other|].
    split; [reflexivity|]. split; intros Hty.
    + unfold PortfolioManager.apply_fill. simpl. rewrite Hty. simpl. ring.
    + unfold PortfolioManager.apply_fill. simpl. rewrite Hty. simpl. ring.
  - intros pm fs s. apply apply_all_position.
  - intros c ml fs s. rewrite apply_all_position. reflexivity.
Qed.

(** ** The paper broker: reset *)

Lemma cash_plus_margin c : (c + py_max (- c) 0 == Qmax c 0)%Q.
Proof.
  rewrite py_max_Qmax.
  destruct (Qlt_le_dec c 0) as [Hneg|Hpos].
  - rewrite (Q.max_l (- c) 0), (Q.max_r c 0).
    + ring.
    + now apply Qlt_le_weak.
    + apply Qlt_le_weak in Hneg. apply Qopp_le_compat in Hneg. exact Hneg.
  - rewrite (Q.max_r (- c) 0), (Q.max_l c 0).
    + ring.
    + exact Hpos.
    + apply Qopp_le_compat in Hpos. exact Hpos.
Qed.

(** C9, as the code has it: after [reset] the latency queue and the fills
    list are empty, the book is a new one with the cap of the old one, and
    the portfolio is a new one whose cash is the old cash plus the margin
    used, that is [max(cash, 0)]: the old cash when it is not negative, and
    0 when it is. *)
Theorem reset_clears_and_floors_cash :
  forall b,
    PaperBroker._delay_queue (PaperBroker.reset b) = []
    /\ PaperBroker.fills (PaperBroker.reset b) = []
    /\ PaperBroker.order_book (PaperBroker.reset b)
       = OrderBook.__init__
           (OrderBook._max_qty_per_fill (PaperBroker.order_book b))
    /\ OrderBook._max_qty_per_fill (PaperBroker.order_book (PaperBroker.reset b))
       = OrderBook._max_qty_per_fill (PaperBroker.order_book b)
    /\ PaperBroker.portfolio (PaperBroker.reset b)
       = PortfolioManager.__init__
           (PortfolioManager.cash (PaperBroker.portfolio b)
            + PortfolioManager.margin_used (PaperBroker.portfolio b))%Q 2
    /\ (PortfolioManager.cash (PaperBroker.portfolio (PaperBroker.reset b))
        == Qmax (PortfolioManager.cash (PaperBroker.portfolio b)) 0)%Q.
Proof.
  intros b. repeat split. simpl. unfold PortfolioManager.margin_used.
  apply cash_plus_margin.
Qed.

(** C9 fails for a negative cash: a broker with 100 in cash that bought 10
    units at 100 has a cash of -900, and 0 after [reset]. *)
Lemma reset_negative_cash_counterexample :
  exists h b fs,
    PaperBroker.on_price_tick one_order_heap small_broker "AAPL" 0 100 100 100 0
    = Ok (h, b, fs)
    /\ (PortfolioManager.cash (PaperBroker.portfolio b) == -900)%Q
    /\ (PortfolioManager.cash (PaperBroker.portfolio (PaperBroker.reset b)) == 0)%Q
    /\ ~ (PortfolioManager.cash (PaperBroker.portfolio (PaperBroker.reset b))
          == PortfolioManager.cash (PaperBroker.portfolio b))%Q.
Proof.
  eexists _, _, _. split; [vm_compute; reflexivity|].
  split; [reflexivity|]. split; [reflexivity|]. intros H. discriminate H.
Qed.

(** ** The paper broker: cancelling *)

Lemma queue_index_Some h order_id q :
  forall idx,
    PaperBroker.queue_index h order_id q = Some idx ->
    exists ts r o,
      q !! idx = Some (ts, r) /\ get_order h r = Some o /\ Order.id o = order_id.
Proof.
  induction q as [|[ts r] q IH]; intros idx; simpl; [discriminate|].
  destruct (get_order h r) as [o|] eqn:Hget.
  - destruct (bool_decide (Order.id o = order_id)) eqn:E.
    + intros [= <-]. apply bool_decide_eq_true_1 in E. now exists ts, r, o.
    + destruct (PaperBroker.queue_index h order_id q) as [i|]; [|discriminate].
      intros [= <-]. exact (IH i eq_refl).
  - destruct (PaperBroker.queue_index h order_id q) as [i|]; [|discriminate].
    intros [= <-]. exact (IH i eq_refl).
Qed.

Lemma queue_index_found h order_id q ts r o :
  In (ts, r) q -> get_order h r = Some o -> Order.id o = order_id ->
  exists idx, PaperBroker.queue_index h order_id q = Some idx.
Proof.
  intros Hin Hget Hid. induction q as [|[ts' r'] q IH]; [destruct Hin|].
  simpl. destruct Hin as [[= -> ->]|Hin].
  - rewrite Hget, bool_decide_eq_true_2 by exact Hid. eauto.
  - destruct (IH Hin) as [i ->]. simpl.
    destruct (get_order h r') as [o'|]; [|eauto].
    destruct (bool_decide (Order.id o' = order_id)); eauto.
Qed.

Lemma queue_index_None h order_id q :
  (forall ts r o, In (ts, r) q -> get_order h r = Some o -> Order.id o <> order_id) ->
  PaperBroker.queue_index h order_id q = None.
Proof.
  intros H. destruct (PaperBroker.queue_index h order_id q) as [idx|] eqn:E;
    [|reflexivity].
  apply queue_index_Some in E as (ts & r & o & Hl & Hget & Hid).
  destruct (H ts r o); auto.
  apply list_elem_of_In. eapply list_elem_of_lookup_2, Hl.
Qed.

Lemma cancel_in_true order_id rs :
  forall h h',
    OrderBook.cancel_in h order_id rs = (h', true) ->
    exists r o,
      In r rs /\ get_order h r = Some o /\ Order.id o = order_id
      /\ Order.is_open o = true
      /\ h' = put_order h r (Order.set_status o CANCELLED).
Proof.
  induction rs as [|r rs IH]; intros h h'; simpl; [discriminate|].
  destruct (get_order h r) as [o|] eqn:Hget.
  - destruct (bool_decide (Order.id o = order_id)) eqn:Eid; simpl.
    + destruct (Order.is_open o) eqn:Eopen.
      * intros [= <-]. apply bool_decide_eq_true_1 in Eid.
        exists r, o. unfold Order.cancel. rewrite Eopen. auto.
      * intros H. destruct (IH _ _ H) as (r' & o' & Hin & ?). eauto 8.
    + intros H. destruct (IH _ _ H) as (r' & o' & Hin & ?). eauto 8.
  - intros H. destruct (IH _ _ H) as (r' & o' & Hin & ?). eauto 8.
Qed.

(** C10: when an order with the given id waits in the latency queue,
    [cancel_order] deletes the first queue entry with that id (the entry of
    that very order when ids are unique) and returns [True]; the heap is the
    one before the call, so the order keeps its status.  When no queued
    order has the id the call is the one of the book, and a successful
    cancellation there sets the status of an open order of the book to
    [CANCELLED]. *)
Theorem cancel_queued_order_keeps_status :
  forall h b order_id,
    (forall ts r o,
       In (ts, r) (PaperBroker._delay_queue b) ->
       get_order h r = Some o -> Order.id o = order_id ->
       exists idx ts' r' o',
         PaperBroker._delay_queue b !! idx = Some (ts', r')
         /\ get_order h r' = Some o' /\ Order.id o' = order_id
         /\ PaperBroker.cancel_order h b order_id
            = (h, with_queue b (delete idx (PaperBroker._delay_queue b)), true)
         /\ ((forall r1 o1, get_order h r1 = Some o1 ->
                Order.id o1 = order_id -> r1 = r) -> r' = r))
    /\ ((forall ts r o,
           In (ts, r) (PaperBroker._delay_queue b) ->
           get_order h r = Some o -> Order.id o <> order_id) ->
        PaperBroker.cancel_order h b order_id
        = (fst (OrderBook.cancel_order h (PaperBroker.order_book b) order_id),
           b,
           snd (OrderBook.cancel_order h (PaperBroker.order_book b) order_id)))
    /\ (forall h',
          OrderBook.cancel_order h (PaperBroker.order_book b) order_id
          = (h', true) ->
          exists r o,
            In r (book_refs (PaperBroker.order_book b))
            /\ get_order h r = Some o /\ Order.id o = order_id
            /\ Order.is_open o = true
            /\ get_order h' r = Some (Order.set_status o CANCELLED)).
Proof.
  intros h b order_id. split; [|split].
  - intros ts r o Hin Hget Hid.
    destruct (queue_index_found h order_id _ ts r o Hin Hget Hid) as [idx Hidx].
    destruct (queue_index_Some _ _ _ _ Hidx) as (ts' & r' & o' & Hl & Hget' & Hid').
    exists idx, ts', r', o'. split; [exact Hl|]. split; [exact Hget'|].
    split; [exact Hid'|]. split.
    + unfold PaperBroker.cancel_order. now rewrite Hidx.
    + intros Huniq. exact (Huniq r' o' Hget' Hid').
  - intros Hnone. unfold PaperBroker.cancel_order.
    rewrite queue_index_None by exact Hnone.
    now destruct (OrderBook.cancel_order h (PaperBroker.order_book b) order_id).
  - intros h' Hc. unfold OrderBook.cancel_order in Hc.
    apply cancel_in_true in Hc as (r & o & Hin & Hget & Hid & Hopen & ->).
    exists r, o. repeat (split; [assumption|]).
    eapply get_put_order_eq, Hget.
Qed.

(** The order of [one_order_heap], queued by [small_broker], is cancelled
    from the queue: the heap is untouched and the order is still
    [PENDING]. *)
Lemma cancel_queued_order_keeps_status_witness :
  PaperBroker.cancel_order one_order_heap small_broker "c3d4"
  = (one_order_heap, with_queue small_broker [], true)
  /\ (Order.status <$> get_order one_order_heap 0%nat) = Some PENDING.
Proof.
  destruct (cancel_queued_order_keeps_status one_order_heap small_broker "c3d4")
    as (Hq & _ & _).
  destruct (Hq 0 0%nat (buy_order "c3d4")) as (idx & ts' & r' & o' & Hl & _ & _ & Hc & _).
  - left. reflexivity.
  - reflexivity.
  - reflexivity.
  - destruct idx as [|idx]; [|destruct idx; discriminate Hl].
    split; [exact Hc|reflexivity].
Defined.

(** ** The paper broker: the latency queue *)

Lemma flush_spec h q :
  forall book time,
    PaperBroker.flush h q book time
    = (ready_rest q time,
       fold_left (OrderBook.add_order h) (map snd (ready_prefix q time)) book).
Proof.
  induction q as [|[ts r] q IH]; intros book time; simpl; [reflexivity|].
  destruct (ts <=? time); simpl; [apply IH|reflexivity].
Qed.





Lemma on_price_tick_unfold h b sym time price high low comm h1 fs :
  OrderBook.process_bar h
    (fold_left (OrderBook.add_order h)
       (map snd (ready_prefix (PaperBroker._delay_queue b) time))
       (PaperBroker.order_book b))
    sym time price high low comm None = Ok (h1, fs) ->
  PaperBroker.on_price_tick h b sym time price high low comm
  = Ok (fst (fold_left (PaperBroker.slip_and_apply (PaperBroker.slippage_pct b))
               fs (h1, PaperBroker.portfolio b)),
        PaperBroker.mk (PaperBroker.latency b) (PaperBroker.slippage_pct b)
          (ready_rest (PaperBroker._delay_queue b) time)
          (fold_left (OrderBook.add_order h)
             (map snd (ready_prefix (PaperBroker._delay_queue b) time))
             (PaperBroker.order_book b))
          (snd (fold_left (PaperBroker.slip_and_apply (PaperBroker.slippage_pct b))
                  fs (h1, PaperBroker.portfolio b)))
          (PaperBroker.fills b ++ fs)
          (PaperBroker._equity_curve b
           ++ [(time,
                PortfolioManager.total_equity
                  (snd (fold_left
                          (PaperBroker.slip_and_apply (PaperBroker.slippage_pct b))
                          fs (h1, PaperBroker.portfolio b)))
                  (dict_set sym price (PaperBroker._last_prices b)))])
          (dict_set sym price (PaperBroker._last_prices b)),
        fs).
Proof.
  intros Hp. unfold PaperBroker.on_price_tick. rewrite flush_spec, Hp.
  simpl. now destruct (fold_left _ fs (h1, PaperBroker.portfolio b)).
Qed.

Lemma on_price_tick_total h b sym time price high low comm :
  heap_inv P_valid_only h ->
  exists h1 fs,
    OrderBook.process_bar h
      (fold_left (OrderBook.add_order h)
         (map snd (ready_prefix (PaperBroker._delay_queue b) time))
         (PaperBroker.order_book b))
      sym time price high low comm None = Ok (h1, fs).
Proof.
  intros Hh.
  destruct (process_bar_preserves P_valid_only (fun _ => True)) with
    (h := h) (sym := sym) (time := time) (price := price) (high := high)
    (low := low) (comm := comm) (mq := @None Z)
    (b := fold_left (OrderBook.add_order h)
            (map snd (ready_prefix (PaperBroker._delay_queue b) time))
            (PaperBroker.order_book b))
    as (h1 & fs & Hp & _); unfold P_valid_only in *; eauto.
Qed.


Lemma one_order_heap_valid : heap_inv P_valid_only one_order_heap.
Proof.
  intros r o H. destruct r as [|r]; [|destruct r; discriminate H].
  injection H as <-. repeat split; simpl; try lia; congruence.
Qed.



(** C7, at the failing input: two orders are submitted to a broker without
    latency, the first with [now=100] and the second with [now=10].  The
    second has been ready since the time 10, but the tick at the time 50
    leaves it in the queue, behind the first, which is not ready: the loop
    of the flush stops at the head of the queue.  Nothing enters the book
    and nothing is executed, under the comment "Flush any queued orders
    that have cleared latency window". *)
Theorem tick_leaves_ready_order_queued :
  exists h b,
    PaperBroker.on_price_tick two_order_heap unordered_broker "AAPL" 50 100 101
      99 0 = Ok (h, b, [])
    /\ PaperBroker._delay_queue unordered_broker = [(100, 0%nat); (10, 1%nat)]
    /\ ready_entries (PaperBroker._delay_queue unordered_broker) 50
       = [(10, 1%nat)]
    /\ PaperBroker._delay_queue b = [(100, 0%nat); (10, 1%nat)]
    /\ book_refs (PaperBroker.order_book b) = []
    /\ PaperBroker.pending_orders h b = [0%nat; 1%nat]
    /\ PaperBroker._delay_queue b
       <> waiting_entries (PaperBroker._delay_queue unordered_broker) 50.
Proof.
  eexists _, _. split; [vm_compute; reflexivity|].
  split; [reflexivity|]. split; [reflexivity|]. split; [reflexivity|].
  split; [reflexivity|]. split; [reflexivity|]. vm_compute. discriminate.
Qed.

(** The scenario of [tests/test_paper_broker.py::test_latency_queues_order]:
    the tick 30 seconds after the submission leaves the order in the queue
    and executes nothing; the tick after 61 seconds executes it. *)
Example latency_queues_order :
  exists b1 h2 b2,
    PaperBroker.on_price_tick one_order_heap latency_broker "AAPL" 30000000 100
      101 99 0 = Ok (one_order_heap, b1, [])
    /\ PaperBroker._delay_queue b1 = [(60000000, 0%nat)]
    /\ PaperBroker.pending_orders one_order_heap b1 = [0%nat]
    /\ PaperBroker.on_price_tick one_order_heap b1 "AAPL" 61000000 100 101 99 0
       = Ok (h2, b2, [0%nat])
    /\ PaperBroker._delay_queue b2 = []
    /\ Position.quantity
         (PortfolioManager.position (PaperBroker.portfolio b2) "AAPL") = 10.
Proof.
  eexists. eexists. eexists. split; [vm_compute; reflexivity|].
  split; [reflexivity|]. split; [reflexivity|].
  split; [vm_compute; reflexivity|]. split; reflexivity.
Qed.

(** ** The paper broker: slippage *)

Lemma get_put_fill_ne h r f r' : r <> r' -> get_fill (put_fill h r f) r' = get_fill h r'.
Proof. intros H. unfold get_fill, put_fill. simpl. now apply list_lookup_insert_ne. Qed.

Lemma get_put_fill_eq h r f :
  (r < length (fill_objs h))%nat -> get_fill (put_fill h r f) r = Some f.
Proof. intros H. unfold get_fill, put_fill. simpl. now apply list_lookup_insert_eq. Qed.

Lemma slip_and_apply_step s h pm r f :
  get_fill h r = Some f ->
  PaperBroker.slip_and_apply s (h, pm) r
  = (put_fill h r (slipped s f), PortfolioManager.apply_fill pm r (slipped s f)).
Proof. intros H. unfold PaperBroker.slip_and_apply, slipped. now rewrite H. Qed.

Lemma slipped_fills_put s h r f fs :
  ~ In r fs -> slipped_fills s (put_fill h r f) fs = slipped_fills s h fs.
Proof.
  induction fs as [|r' fs IH]; intros Hnin; [reflexivity|].
  simpl. rewrite get_put_fill_ne by (intros ->; apply Hnin; now left).
  rewrite IH; [reflexivity|]. intros Hin. apply Hnin. now right.
Qed.

Lemma slip_fold s fs :
  forall h pm,
    NoDup fs -> (forall r, In r fs -> (r < length (fill_objs h))%nat) ->
    order_objs (fst (fold_left (PaperBroker.slip_and_apply s) fs (h, pm)))
    = order_objs h
    /\ (forall r, In r fs ->
          get_fill (fst (fold_left (PaperBroker.slip_and_apply s) fs (h, pm))) r
          = slipped s <$> get_fill h r)
    /\ (forall r, ~ In r fs ->
          get_fill (fst (fold_left (PaperBroker.slip_and_apply s) fs (h, pm))) r
          = get_fill h r)
    /\ snd (fold_left (PaperBroker.slip_and_apply s) fs (h, pm))
       = apply_all pm (slipped_fills s h fs).
Proof.
  induction fs as [|r fs IH]; intros h pm Hnd Hb.
  { simpl. split; [reflexivity|]. split; [intros r []|].
    split; [intros; reflexivity|reflexivity]. }
  apply NoDup_cons in Hnd as [Hnin Hnd]. rewrite list_elem_of_In in Hnin.
  assert (Hr : (r < length (fill_objs h))%nat) by (apply Hb; now left).
  destruct (get_fill h r) as [f|] eqn:Hget;
    [|apply lookup_ge_None in Hget; lia].
  cbn [fold_left]. rewrite (slip_and_apply_step s h pm r f Hget).
  destruct (IH (put_fill h r (slipped s f))
              (PortfolioManager.apply_fill pm r (slipped s f)) Hnd)
    as (Ho & Hin & Hout & Hpm).
  { intros r' Hr'. simpl. rewrite length_insert. apply Hb. now right. }
  split; [exact Ho|]. split; [|split].
  - intros r' [<-|Hr'].
    + rewrite Hout by exact Hnin. rewrite get_put_fill_eq by exact Hr.
      now rewrite Hget.
    + rewrite Hin by exact Hr'. rewrite get_put_fill_ne; [reflexivity|].
      intros ->. contradiction.
  - intros r' Hr'. rewrite Hout by (intros H; apply Hr'; now right).
    apply get_put_fill_ne. intros ->. apply Hr'. now left.
  - rewrite Hpm, slipped_fills_put by exact Hnin.
    simpl. rewrite Hget. reflexivity.
Qed.

Lemma apply_all_trade_history fs :
  forall pm,
    PortfolioManager.trade_history (apply_all pm fs)
    = PortfolioManager.trade_history pm ++ map fst fs.
Proof.
  induction fs as [|[r f] fs IH]; intros pm; unfold apply_all; simpl.
  - now rewrite app_nil_r.
  - fold (apply_all (PortfolioManager.apply_fill pm r f) fs).
    rewrite IH. simpl. now rewrite <- app_assoc.
Qed.

Lemma slipped_fills_refs s h fs :
  (forall r, In r fs -> (r < length (fill_objs h))%nat) ->
  map fst (slipped_fills s h fs) = fs.
Proof.
  induction fs as [|r fs IH]; intros Hb; [reflexivity|].
  simpl. destruct (get_fill h r) as [f|] eqn:Hget.
  - simpl. f_equal. apply IH. intros r' Hr'. apply Hb. now right.
  - apply lookup_ge_None in Hget. specialize (Hb r (or_introl eq_refl)). lia.
Qed.

(** C4, as the code has it: the references that [on_price_tick] returns are
    the ones that [process_bar] returned, each in the [fills] of its order;
    the price of every such fill object is updated in place, to
    [price * (1 + slippage_pct)] for a BUY and [price * (1 - slippage_pct)]
    otherwise (no update when [slippage_pct] is 0), before the portfolio
    applies it; the same references are appended to [fills] of the broker and to
    the trade history. *)
Theorem slippage_updates_fill_in_place :
  (forall s f,
     FillEvent.price (slipped s f)
     = (if truthy s then
          match FillEvent.fill_type f with
          | BUY => FillEvent.price f * (1 + s)
          | _ => FillEvent.price f * (1 - s)
          end
        else FillEvent.price f)%Q)
  /\ (forall h b sym time price high low comm,
        heap_inv P_valid_only h ->
        exists h1 h' b' fs,
          OrderBook.process_bar h
            (fold_left (OrderBook.add_order h)
               (map snd (ready_prefix (PaperBroker._delay_queue b) time))
               (PaperBroker.order_book b))
            sym time price high low comm None = Ok (h1, fs)
          /\ PaperBroker.on_price_tick h b sym time price high low comm
             = Ok (h', b', fs)
          /\ order_objs h' = order_objs h1
          /\ (forall r, In r fs ->
                recorded h' r
                /\ exists f, get_fill h1 r = Some f
                             /\ get_fill h' r
                                = Some (slipped (PaperBroker.slippage_pct b) f))
          /\ (forall r, ~ In r fs -> get_fill h' r = get_fill h1 r)
          /\ PaperBroker.portfolio b'
             = apply_all (PaperBroker.portfolio b)
                 (slipped_fills (PaperBroker.slippage_pct b) h1 fs)
          /\ PaperBroker.fills b' = PaperBroker.fills b ++ fs
          /\ PortfolioManager.trade_history (PaperBroker.portfolio b')
             = PortfolioManager.trade_history (PaperBroker.portfolio b) ++ fs).
Proof.
  split.
  - intros s f. unfold slipped. destruct (truthy s); [|reflexivity].
    now destruct (FillEvent.fill_type f).
  - intros h b sym time price high low comm Hh.
    destruct (on_price_tick_total h b sym time price high low comm Hh)
      as (h1 & fs & Hp).
    pose proof (process_bar_shape _ _ _ _ _ _ _ _ _ _ _ Hp)
      as (Hseq & Hlen & _ & Hrec).
    assert (Hnd : NoDup fs) by (rewrite Hseq; apply NoDup_ListNoDup, seq_NoDup).
    assert (Hb : forall r, In r fs -> (r < length (fill_objs h1))%nat).
    { intros r Hr. rewrite Hseq in Hr. apply in_seq in Hr. lia. }
    destruct (slip_fold (PaperBroker.slippage_pct b) fs h1
                (PaperBroker.portfolio b) Hnd Hb) as (Ho & Hin & Hout & Hpm).
    eexists h1, _, _, fs. split; [exact Hp|].
    split; [apply on_price_tick_unfold, Hp|]. simpl.
    split; [exact Ho|]. split; [|split; [exact Hout|]].
    + intros r Hr. split.
      * destruct (Hrec r Hr) as (ro & o & Hro & Hfo). exists ro, o.
        split; [|exact Hfo]. unfold get_order in *. now rewrite Ho.
      * destruct (get_fill h1 r) as [f|] eqn:Hget.
        -- exists f. split; [reflexivity|]. rewrite Hin by exact Hr.
           now rewrite Hget.
        -- apply lookup_ge_None in Hget. specialize (Hb r Hr). lia.
    + split; [exact Hpm|]. split; [reflexivity|].
      rewrite Hpm, apply_all_trade_history, slipped_fills_refs by exact Hb.
      reflexivity.
Qed.

(** The broker of the tests buys 10 units at 100 with a slippage of 0.001:
    the fill object returned and recorded on the order has the price
    100.1. *)
Lemma slippage_updates_fill_in_place_witness :
  exists h' b' fs,
    PaperBroker.on_price_tick one_order_heap slippage_broker "AAPL" 0 100 100
      100 0 = Ok (h', b', fs)
    /\ forall r, In r fs -> recorded h' r.
Proof.
  destruct (proj2 slippage_updates_fill_in_place one_order_heap slippage_broker
              "AAPL" 0 100%Q 100%Q 100%Q 0%Q one_order_heap_valid)
    as (h1 & h' & b' & fs & _ & Ht & _ & Hin & _).
  exists h', b', fs. split; [exact Ht|]. intros r Hr. exact (proj1 (Hin r Hr)).
Defined.

(** C4 fails: [process_bar] creates the fill at the price 100; after the
    tick the same object, the one recorded on the order and returned to the
    caller, has the price 100.1. *)
Lemma fill_price_mutated_counterexample :
  exists h1 h' b',
    OrderBook.process_bar one_order_heap
      (OrderBook.add_order one_order_heap (OrderBook.__init__ None) 0%nat)
      "AAPL" 0 100 100 100 0 None = Ok (h1, [0%nat])
    /\ PaperBroker.on_price_tick one_order_heap slippage_broker "AAPL" 0 100 100
         100 0 = Ok (h', b', [0%nat])
    /\ (Order.fills <$> get_order h' 0%nat) = Some [0%nat]
    /\ (FillEvent.price <$> get_fill h1 0%nat) = Some 100%Q
    /\ (FillEvent.price <$> get_fill h' 0%nat) = Some (100 * (1 + (1 # 1000)))%Q
    /\ ~ (100 * (1 + (1 # 1000)) == 100)%Q.
Proof.
  eexists _, _, _. split; [vm_compute; reflexivity|].
  split; [vm_compute; reflexivity|].
  split; [reflexivity|]. split; [reflexivity|]. split; [reflexivity|].
  intros H. discriminate H.
Qed.

(** ** The backtest loop *)

Lemma dict_get_In {V : Type} k (d : list (string * V)) :
  In k (map fst d) -> exists v, dict_get k d = Some v.
Proof.
  induction d as [|[k' v'] d IH]; simpl; [intros []|].
  intros Hin. destruct (bool_decide (k' = k)) eqn:E; [eauto|].
  apply bool_decide_eq_false_1 in E. destruct Hin as [H|H]; [congruence|auto].
Qed.

Lemma dict_get_not_In {V : Type} k (d : list (string * V)) :
  ~ In k (map fst d) -> dict_get k d = None.
Proof.
  induction d as [|[k' v'] d IH]; simpl; [reflexivity|].
  intros Hnin. rewrite bool_decide_eq_false_2 by (intros ->; apply Hnin; now left).
  apply IH. intros H. apply Hnin. now right.
Qed.

Lemma count_occ_above t index :
  Forall (Z.lt t) index -> count_occ Z.eq_dec index t = 0%nat.
Proof.
  induction 1 as [|x index Hx _ IH]; [reflexivity|].
  simpl. destruct (Z.eq_dec x t); [lia|exact IH].
Qed.

Lemma row_at_absent df t :
  count_occ Z.eq_dec (map fst df) t = 0%nat -> row_at df t = None.
Proof.
  induction df as [|[t' row] df IH]; [reflexivity|].
  simpl. destruct (Z.eq_dec t' t) as [->|Hne]; [discriminate|].
  destruct (Z.eqb_spec t' t); [contradiction|exact IH].
Qed.

(** In a time series [loc] does not raise: it is the row of the
    timestamp, when there is one. *)
Lemma loc_time_series df t :
  StronglySorted Z.lt (map fst df) -> loc df t = Ok (row_at df t).
Proof.
  intros Hs. unfold loc.
  assert (Hc : (count_occ Z.eq_dec (map fst df) t <= 1)%nat).
  { induction df as [|[t' row] df IH]; [simpl; lia|].
    simpl in Hs. apply StronglySorted_inv in Hs as [Hs Hlt].
    simpl. destruct (Z.eq_dec t' t) as [->|Hne]; [|now apply IH].
    now rewrite count_occ_above. }
  destruct (count_occ Z.eq_dec (map fst df) t) as [|[|n]] eqn:E; [| |lia].
  - now rewrite row_at_absent.
  - reflexivity.
Qed.

Lemma positions_from_above i index label :
  Forall (Z.lt label) index -> positions_from i index label = [].
Proof.
  intros H. revert i. induction H as [|x index Hx _ IH]; intros i;
    [reflexivity|].
  simpl. destruct (Z.eqb_spec x label); [lia|apply IH].
Qed.

Lemma filter_le_above label (index : list Z) :
  Forall (Z.lt label) index -> filter (fun t => t <= label) index = [].
Proof.
  induction 1 as [|x index Hx _ IH]; [reflexivity|].
  rewrite filter_cons. destruct (decide (x <= label)); [lia|exact IH].
Qed.

Lemma Forall_lt_trans x y (index : list Z) :
  x < y -> Forall (Z.lt y) index -> Forall (Z.lt x) index.
Proof.
  intros Hxy H. eapply Forall_impl; [exact H|]. intros z Hz. simpl in Hz. lia.
Qed.

Lemma monotonic_time_series index :
  StronglySorted Z.lt index -> is_monotonic_increasing index = true.
Proof.
  induction 1 as [|x index Hs IH Hx]; [reflexivity|].
  destruct index as [|y index]; [reflexivity|].
  change (is_monotonic_increasing (x :: y :: index))
    with ((x <=? y) && is_monotonic_increasing (y :: index)).
  rewrite IH. apply Forall_cons in Hx as [Hxy _].
  rewrite (proj2 (Z.leb_le x y)) by lia. reflexivity.
Qed.

Lemma positions_time_series index label :
  StronglySorted Z.lt index ->
  forall i,
    positions_from i index label = []
    \/ exists p,
         positions_from i index label = [p]
         /\ S p = (i + length (filter (fun t => (t <= label)%Z) index))%nat.
Proof.
  induction 1 as [|x index Hs IH Hx]; intros i; [now left|].
  cbn [positions_from]. rewrite filter_cons.
  destruct (Z.eqb_spec x label) as [->|Hne].
  - right. exists i. rewrite positions_from_above by exact Hx.
    split; [reflexivity|].
    rewrite decide_True by lia. rewrite filter_le_above by exact Hx.
    simpl. lia.
  - destruct (decide (x <= label)) as [Hle|Hgt].
    + destruct (IH (S i)) as [->|(p & -> & Hp)]; [now left|].
      right. exists p. split; [reflexivity|]. simpl. lia.
    + left. apply positions_from_above.
      apply Forall_lt_trans with (y := x); [lia|exact Hx].
Qed.

Lemma take_time_series (df : DataFrame) dt :
  StronglySorted Z.lt (map fst df) ->
  take (length (filter (fun t => t <= dt) (map fst df))) df
  = filter (fun tr => fst tr <= dt) df.
Proof.
  induction df as [|[t row] df IH]; intros Hs; [reflexivity|].
  simpl in Hs. apply StronglySorted_inv in Hs as [Hs Hlt].
  cbn [map fst]. rewrite filter_cons.
  rewrite (filter_cons (fun tr : Z * Row => fst tr <= dt)). cbn [fst].
  destruct (decide (t <= dt)) as [Hle|Hgt].
  - cbn [length take]. f_equal. now apply IH.
  - assert (Hab : Forall (Z.lt dt) (map fst df))
      by (apply Forall_lt_trans with (y := t); [lia|exact Hlt]).
    rewrite filter_le_above by exact Hab. cbn [length take].
    symmetry. clear -Hab. induction df as [|[t' row'] df IH]; [reflexivity|].
    simpl in Hab. apply Forall_cons in Hab as [Ht Hab].
    rewrite filter_cons. cbn [fst].
    destruct (decide (t' <= dt)); [lia|now apply IH].
Qed.

(** In a time series the slice [df.loc[:dt]] does not raise: it holds the
    rows up to and including [dt]. *)
Lemma loc_upto_time_series (df : DataFrame) dt :
  StronglySorted Z.lt (map fst df) ->
  loc_upto df dt = Ok (filter (fun tr => fst tr <= dt) df).
Proof.
  intros Hs. unfold loc_upto, get_slice_bound_right.
  destruct (positions_time_series _ dt Hs 0%nat) as [->|(p & -> & Hp)].
  - rewrite monotonic_time_series by exact Hs. rewrite bind_Ok.
    now rewrite take_time_series.
  - cbn [List.last length]. replace (S p - p)%nat with 1%nat by lia.
    cbn [Nat.eqb]. rewrite bind_Ok. simpl in Hp. rewrite Hp.
    now rewrite take_time_series.
Qed.

(** Slices of tables that are not time series: a label of an unsorted
    index cuts after its position; a label that an unsorted index does not
    hold, and a label whose occurrences are apart, raise [KeyError]; in a
    decreasing index the slice up to a missing label holds the entries
    above it. *)
Example loc_upto_unsorted :
  let r := mkRow 1 None None in
  loc_upto [(3, r); (1, r); (2, r)] 1 = Ok [(3, r); (1, r)]
  /\ loc_upto [(1, r); (3, r); (2, r)] 5 = Raise (KeyError_label 5)
  /\ loc_upto [(2, r); (1, r); (2, r)] 2
     = Raise (KeyError "Cannot get right slice bound for non-unique label")
  /\ loc_upto [(1, r); (2, r); (2, r); (3, r)] 2
     = Ok [(1, r); (2, r); (2, r)]
  /\ loc_upto [(5, r); (3, r); (1, r)] 4 = Ok [(5, r)].
Proof. repeat split. Qed.

Lemma price_at_close_at self sym dt :
  time_series self ->
  In sym (map fst (BacktestEngine.data self)) ->
  BacktestEngine._price_at self sym dt = Ok (close_at self sym dt).
Proof.
  intros Hts Hin.
  unfold BacktestEngine._price_at, BacktestEngine.data_of, close_at.
  destruct (dict_get_In _ _ Hin) as [df Hdf]. rewrite Hdf, bind_Ok.
  rewrite (loc_time_series df dt (Hts sym df Hdf)). reflexivity.
Qed.

Lemma market_events_bars self dt syms :
  time_series self ->
  (forall s, In s syms -> In s (map fst (BacktestEngine.data self))) ->
  forall acc,
    foldM (fun events sym =>
             p ← BacktestEngine._price_at self sym dt;
             match p with
             | None => Ok events
             | Some price => Ok (events ++ [(sym, price)])
             end) syms acc
    = Ok (acc ++ bars_at self dt syms).
Proof.
  intros Hts. induction syms as [|s syms IH]; intros Hin acc.
  - simpl. now rewrite app_nil_r.
  - rewrite foldM_cons, price_at_close_at by (auto; apply Hin; now left).
    rewrite bind_Ok. simpl bars_at.
    destruct (close_at self s dt) as [p|]; rewrite bind_Ok.
    + rewrite IH by (intros x Hx; apply Hin; now right).
      now rewrite <- app_assoc.
    + apply IH. intros x Hx. apply Hin. now right.
Qed.

Lemma prices_now_marks self dt syms :
  time_series self ->
  (forall s, In s syms -> In s (map fst (BacktestEngine.data self))) ->
  forall acc,
    exists prices,
      foldM (fun prices sym =>
               p ← BacktestEngine._price_at self sym dt;
               Ok (dict_set sym (BacktestEngine.price_or_zero p) prices))
        syms acc = Ok prices
      /\ (forall s, In s syms ->
            dict_get s prices
            = Some (BacktestEngine.price_or_zero (close_at self s dt)))
      /\ (forall s, ~ In s syms -> dict_get s prices = dict_get s acc).
Proof.
  intros Hts. induction syms as [|x syms IH]; intros Hin acc.
  - exists acc. split; [reflexivity|]. split; [intros s []|reflexivity].
  - rewrite foldM_cons, price_at_close_at by (auto; apply Hin; now left).
    rewrite !bind_Ok.
    destruct (IH (fun s Hs => Hin s (or_intror Hs))
                (dict_set x (BacktestEngine.price_or_zero (close_at self x dt)) acc))
      as (prices & -> & Hget & Hout).
    exists prices. split; [reflexivity|]. split.
    + intros s Hs. destruct (decide (s ∈ syms)) as [Hs'|Hs'].
      * apply Hget. now apply list_elem_of_In.
      * rewrite list_elem_of_In in Hs'. destruct Hs as [->|Hs]; [|contradiction].
        rewrite Hout by exact Hs'. apply dict_get_set_eq.
    + intros s Hs. rewrite Hout by (intros H; apply Hs; now right).
      apply dict_get_set_ne. intros ->. apply Hs. now left.
Qed.

Lemma foldM_inv {S A : Type} (I : S -> Prop) (Q : A -> Prop)
    (body : S -> A -> result S) l :
  (forall s a, I s -> Q a -> exists s', body s a = Ok s' /\ I s') ->
  (forall a, In a l -> Q a) ->
  forall s, I s -> exists s', foldM body l s = Ok s' /\ I s'.
Proof.
  intros Hbody. induction l as [|a l IH]; intros HQ s Hs.
  - exists s. now split.
  - destruct (Hbody s a Hs (HQ a (or_introl eq_refl))) as (s1 & He & Hs1).
    rewrite foldM_cons, He, bind_Ok.
    apply IH; [|exact Hs1]. intros x Hx. apply HQ. now right.
Qed.

Lemma heap_inv_new_order P h o :
  heap_inv P h -> P (fill_objs h) o -> heap_inv P (fst (new_order h o)).
Proof.
  intros Hh Ho r o' Hget. unfold get_order in Hget. simpl in *.
  apply lookup_app_Some in Hget as [Hget|[_ Hget]]; [exact (Hh r o' Hget)|].
  apply list_lookup_singleton_Some in Hget as [_ <-]. exact Ho.
Qed.

Lemma process_signals_ok uuid4 utcnow st sym sig :
  heap_inv P_valid_only (BacktestEngine.heap st) ->
  exists st',
    BacktestEngine._process_signals uuid4 utcnow st sym sig = Ok st'
    /\ heap_inv P_valid_only (BacktestEngine.heap st')
    /\ BacktestEngine.pm st' = BacktestEngine.pm st
    /\ BacktestEngine.equity_curve st' = BacktestEngine.equity_curve st.
Proof.
  intros Hh. destruct sig; simpl; [| |eauto].
  - eexists. split; [reflexivity|]. simpl. split; [|auto].
    apply heap_inv_new_order; [exact Hh|].
    repeat split; simpl; try lia; congruence.
  - eexists. split; [reflexivity|]. simpl. split; [|auto].
    apply heap_inv_new_order; [exact Hh|].
    repeat split; simpl; try lia; congruence.
Qed.

Lemma required_syms_in_data self strat :
  engine_wf self -> In strat (BacktestEngine.strategies self) ->
  forall s, In s (BacktestEngine.required_syms self strat) ->
            In s (map fst (BacktestEngine.data self)).
Proof.
  intros [Hsyms Hpar] Hin s. unfold BacktestEngine.required_syms.
  destruct (parameters_symbol strat) as [p|] eqn:Ep.
  - destruct (BacktestEngine.symbols self) eqn:Es; [intros []|].
    intros [<-|[]]. rewrite <- Hsyms. eapply Hpar; eauto.
  - intros Hs. rewrite <- Hsyms. apply list_elem_of_In.
    apply list_elem_of_In in Hs.
    exact (proj1 (elem_of_remove_dups _ _) Hs).
Qed.

Lemma data_of_time_series self sym df :
  time_series self -> BacktestEngine.data_of self sym = Ok df ->
  StronglySorted Z.lt (map fst df).
Proof.
  intros Hts. unfold BacktestEngine.data_of.
  destruct (dict_get sym (BacktestEngine.data self)) as [df'|] eqn:E;
    [|discriminate].
  intros [= <-]. exact (Hts sym df' E).
Qed.

Lemma data_of_Ok self sym :
  In sym (map fst (BacktestEngine.data self)) ->
  exists df, BacktestEngine.data_of self sym = Ok df.
Proof.
  intros Hin. unfold BacktestEngine.data_of.
  destruct (dict_get_In _ _ Hin) as [df ->]. eauto.
Qed.

Lemma strategy_signals_ok uuid4 utcnow self dt strat st :
  engine_wf self -> time_series self -> In strat (BacktestEngine.strategies self) ->
  heap_inv P_valid_only (BacktestEngine.heap st) ->
  exists st',
    BacktestEngine.strategy_signals uuid4 utcnow self dt st strat = Ok st'
    /\ heap_inv P_valid_only (BacktestEngine.heap st')
    /\ BacktestEngine.pm st' = BacktestEngine.pm st
    /\ BacktestEngine.equity_curve st' = BacktestEngine.equity_curve st.
Proof.
  intros Hwf Hts Hin Hh. unfold BacktestEngine.strategy_signals.
  apply (foldM_inv
           (fun s => heap_inv P_valid_only (BacktestEngine.heap s)
                     /\ BacktestEngine.pm s = BacktestEngine.pm st
                     /\ BacktestEngine.equity_curve s = BacktestEngine.equity_curve st)
           (fun sym => In sym (map fst (BacktestEngine.data self)))).
  - intros s sym (Hs & Hpm & Hec) Hsym.
    destruct (data_of_Ok self sym Hsym) as [df Hdf]. rewrite Hdf, bind_Ok.
    rewrite (loc_upto_time_series df dt (data_of_time_series _ _ _ Hts Hdf)).
    rewrite bind_Ok.
    destruct (dict_get sym (generate_signals strat
                              (filter (fun tr => fst tr <= dt) df))) as [se|].
    + destruct (process_signals_ok uuid4 utcnow s sym (signal_type se) Hs)
        as (s' & -> & Hs' & Hpm' & Hec').
      exists s'. split; [reflexivity|]. split; [exact Hs'|]. split; congruence.
    + exists s. auto.
  - apply required_syms_in_data; auto.
  - auto.
Qed.

Lemma execute_orders_ok self dt st :
  engine_wf self -> time_series self ->
  heap_inv P_valid_only (BacktestEngine.heap st) ->
  exists st',
    BacktestEngine._execute_orders self dt st = Ok st'
    /\ heap_inv P_valid_only (BacktestEngine.heap st')
    /\ BacktestEngine.equity_curve st' = BacktestEngine.equity_curve st.
Proof.
  intros [Hsyms Hpar] Hts Hh. unfold BacktestEngine._execute_orders.
  apply (foldM_inv
           (fun s => heap_inv P_valid_only (BacktestEngine.heap s)
                     /\ BacktestEngine.equity_curve s = BacktestEngine.equity_curve st)
           (fun sym => In sym (map fst (BacktestEngine.data self)))).
  - intros s sym (Hs & Hec) Hsym.
    destruct (data_of_Ok self sym Hsym) as [df Hdf]. rewrite Hdf, bind_Ok.
    rewrite (loc_time_series df dt (data_of_time_series _ _ _ Hts Hdf)).
    rewrite bind_Ok.
    destruct (row_at df dt) as [row|]; [|exists s; auto].
    destruct (process_bar_preserves P_valid_only (fun _ => True)) with
      (h := BacktestEngine.heap s) (b := BacktestEngine.book s) (sym := sym)
      (time := dt) (price := Close row) (high := default (Close row) (High row))
      (low := default (Close row) (Low row))
      (comm := BacktestEngine.commission self) (mq := @None Z)
      as (h' & fs & Hp & Hh'); unfold P_valid_only in *; eauto.
    rewrite Hp, bind_Ok. eexists. split; [reflexivity|]. simpl. auto.
  - intros sym Hs. now rewrite <- Hsyms.
  - auto.
Qed.

Lemma marks_now self dt prices :
  BacktestEngine.symbols self = map fst (BacktestEngine.data self) ->
  (forall s, In s (BacktestEngine.symbols self) ->
     dict_get s prices
     = Some (BacktestEngine.price_or_zero (close_at self s dt))) ->
  (forall s, ~ In s (BacktestEngine.symbols self) -> dict_get s prices = None) ->
  forall sym,
    PortfolioManager.mark prices sym
    = BacktestEngine.price_or_zero (close_at self sym dt).
Proof.
  intros Hsyms Hin Hout sym. unfold PortfolioManager.mark.
  destruct (decide (sym ∈ BacktestEngine.symbols self)) as [Hs|Hs];
    rewrite list_elem_of_In in Hs.
  - now rewrite Hin.
  - rewrite Hout by exact Hs. unfold close_at.
    rewrite Hsyms in Hs. now rewrite dict_get_not_In.
Qed.

Lemma py_mod_Ok a b : b <> 0 -> py_mod a b = Ok (a mod b).
Proof.
  intros Hb. unfold py_mod. destruct (Z.eqb_spec b 0); [contradiction|].
  reflexivity.
Qed.

Lemma dict_get_Some_In {V : Type} k (v : V) d :
  dict_get k d = Some v -> In (k, v) d.
Proof.
  induction d as [|[k' v'] d IH]; simpl; [discriminate|].
  case_bool_decide as E; [intros [= ->]; left; now rewrite E|].
  intros H. right. now apply IH.
Qed.

(** One pass of the loop of [run] on time series: everything up to the
    progress step succeeds and yields [st']. *)
Lemma run_step_spec uuid4 utcnow self st dt :
  engine_wf self -> time_series self ->
  heap_inv P_valid_only (BacktestEngine.heap st) ->
  exists st',
    (forall idx,
       BacktestEngine.run_step uuid4 utcnow self st (idx, dt)
       = match bars_at self dt (BacktestEngine.symbols self) with
         | [] => Ok st
         | _ :: _ =>
             _ ← py_mod (Z.of_nat idx + 1)
                   (BacktestEngine.progress_interval self);
             Ok st'
         end)
    /\ heap_inv P_valid_only (BacktestEngine.heap st')
    /\ (bars_at self dt (BacktestEngine.symbols self) = [] -> st' = st)
    /\ (bars_at self dt (BacktestEngine.symbols self) <> [] ->
          BacktestEngine.equity_curve st'
          = BacktestEngine.equity_curve st
            ++ [(dt,
                 (PortfolioManager.cash (BacktestEngine.pm st')
                  + py_sum
                      (map (fun sp =>
                              inject_Z (Position.quantity (snd sp))
                              * BacktestEngine.price_or_zero
                                  (close_at self (fst sp) dt))
                         (PortfolioManager._positions (BacktestEngine.pm st'))))%Q)]).
Proof.
  intros Hwf Hts Hh. pose proof Hwf as [Hsyms Hpar].
  unfold BacktestEngine.run_step, BacktestEngine._generate_market_events.
  rewrite market_events_bars by (auto; intros s Hs; now rewrite <- Hsyms).
  simpl app.
  destruct (bars_at self dt (BacktestEngine.symbols self)) as [|e es] eqn:Hbars.
  { exists st. split; [intros idx; now rewrite bind_Ok|].
    split; [exact Hh|]. split; [auto|congruence]. }
  destruct (foldM_inv
              (fun s => heap_inv P_valid_only (BacktestEngine.heap s)
                        /\ BacktestEngine.equity_curve s
                           = BacktestEngine.equity_curve st)
              (fun strat => In strat (BacktestEngine.strategies self))
              (BacktestEngine.strategy_signals uuid4 utcnow self dt)
              (BacktestEngine.strategies self)) with (s := st)
    as (st1 & Hsig & Hh1 & Hec1); auto.
  { intros s strat (Hs & Hec) Hin.
    destruct (strategy_signals_ok uuid4 utcnow self dt strat s Hwf Hts Hin Hs)
      as (s' & -> & Hs' & _ & Hec').
    exists s'. split; [reflexivity|]. split; [exact Hs'|congruence]. }
  destruct (execute_orders_ok self dt st1 Hwf Hts Hh1) as (st2 & Hexec & Hh2 & Hec2).
  destruct (prices_now_marks self dt (BacktestEngine.symbols self)) with
    (acc := @nil (string * Q)) as (prices & Hp & Hin & Hout); [exact Hts| |].
  { intros s Hs. now rewrite <- Hsyms. }
  eexists. split.
  { intros idx. rewrite bind_Ok, Hsig, bind_Ok, Hexec, bind_Ok.
    unfold BacktestEngine.prices_now. rewrite Hp, bind_Ok. reflexivity. }
  simpl. split; [exact Hh2|].
  split; [discriminate|]. intros _. rewrite Hec2, Hec1. do 3 f_equal.
  unfold PortfolioManager.total_equity, PortfolioManager.market_value.
  do 2 f_equal. apply map_ext. intros [sym pos]. simpl.
  unfold Position.market_value.
  now rewrite (marks_now self dt prices Hsyms Hin Hout).
Qed.

Lemma run_loop_spec uuid4 utcnow self dts :
  engine_wf self -> time_series self ->
  BacktestEngine.progress_interval self <> 0 ->
  forall i st,
    heap_inv P_valid_only (BacktestEngine.heap st) ->
    exists st',
      foldM (BacktestEngine.run_step uuid4 utcnow self) (enumerate_from i dts)
        st = Ok st'
      /\ map fst (BacktestEngine.equity_curve st')
         = map fst (BacktestEngine.equity_curve st) ++ processed_dates self dts.
Proof.
  intros Hwf Hts Hpi. induction dts as [|dt dts IH]; intros i st Hh.
  - exists st. split; [reflexivity|]. simpl. now rewrite app_nil_r.
  - destruct (run_step_spec uuid4 utcnow self st dt Hwf Hts Hh)
      as (st1 & Hstep & Hh1 & Hskip & Hrec).
    cbn [enumerate_from processed_dates]. rewrite foldM_cons, Hstep.
    destruct (bars_at self dt (BacktestEngine.symbols self)) as [|e es].
    + rewrite bind_Ok. rewrite <- (Hskip eq_refl). apply IH. exact Hh1.
    + rewrite py_mod_Ok by exact Hpi. rewrite !bind_Ok.
      destruct (IH (S i) st1 Hh1) as (st' & -> & Hmap).
      exists st'. split; [reflexivity|]. rewrite Hmap.
      rewrite Hrec by discriminate. rewrite map_app. simpl.
      now rewrite <- app_assoc.
Qed.

(** With a [progress_interval] of 0 the loop stops at the first date that
    has a bar: the remainder of the progress step raises. *)
Lemma run_loop_zero_interval uuid4 utcnow self dts :
  engine_wf self -> time_series self ->
  BacktestEngine.progress_interval self = 0 ->
  processed_dates self dts <> [] ->
  forall i st,
    heap_inv P_valid_only (BacktestEngine.heap st) ->
    foldM (BacktestEngine.run_step uuid4 utcnow self) (enumerate_from i dts) st
    = Raise ZeroDivisionError.
Proof.
  intros Hwf Hts Hpi. induction dts as [|dt dts IH]; intros Hne i st Hh;
    [contradiction|].
  destruct (run_step_spec uuid4 utcnow self st dt Hwf Hts Hh)
    as (st1 & Hstep & Hh1 & Hskip & Hrec).
  cbn [enumerate_from]. rewrite foldM_cons, Hstep.
  cbn [processed_dates] in Hne.
  destruct (bars_at self dt (BacktestEngine.symbols self)) as [|e es].
  - rewrite bind_Ok. apply IH; assumption.
  - rewrite Hpi. reflexivity.
Qed.

(** *** A pass that completes *)

Lemma bind_Ok_inv {A B : Type} (m : result A) (k : A -> result B) b :
  m ≫= k = Ok b -> exists a, m = Ok a /\ k a = Ok b.
Proof. destruct m as [a|e]; simpl; [eauto|discriminate]. Qed.

Lemma foldM_Ok_inv {S A : Type} (I : S -> Prop) (body : S -> A -> result S) l :
  (forall s a s', I s -> body s a = Ok s' -> I s') ->
  forall s s', I s -> foldM body l s = Ok s' -> I s'.
Proof.
  intros Hbody. induction l as [|a l IH]; intros s s' Hs.
  - simpl. now intros [= <-].
  - rewrite foldM_cons. intros H.
    apply bind_Ok_inv in H as (s1 & H1 & H2).
    eapply IH; [|exact H2]. eapply Hbody; eauto.
Qed.

Lemma loc_Ok df t r : loc df t = Ok r -> r = row_at df t.
Proof.
  unfold loc.
  destruct (count_occ Z.eq_dec (map fst df) t) as [|[|n]] eqn:E;
    [| |discriminate].
  - intros [= <-]. symmetry. now apply row_at_absent.
  - now intros [= <-].
Qed.

Lemma price_at_Ok self sym dt p :
  BacktestEngine._price_at self sym dt = Ok p -> p = close_at self sym dt.
Proof.
  unfold BacktestEngine._price_at, BacktestEngine.data_of, close_at.
  destruct (dict_get sym (BacktestEngine.data self)) as [df|]; [|discriminate].
  rewrite bind_Ok. intros H. apply bind_Ok_inv in H as (r & Hr & [= <-]).
  now rewrite (loc_Ok _ _ _ Hr).
Qed.

Lemma market_events_Ok self dt syms :
  forall acc events,
    foldM (fun events sym =>
             p ← BacktestEngine._price_at self sym dt;
             match p with
             | None => Ok events
             | Some price => Ok (events ++ [(sym, price)])
             end) syms acc
    = Ok events ->
    events = acc ++ bars_at self dt syms.
Proof.
  induction syms as [|s syms IH]; intros acc events.
  - simpl. intros [= <-]. now rewrite app_nil_r.
  - rewrite foldM_cons. intros H.
    apply bind_Ok_inv in H as (ev1 & H1 & H2).
    apply bind_Ok_inv in H1 as (p & Hp & Hev).
    apply price_at_Ok in Hp. subst p. simpl bars_at.
    destruct (close_at self s dt); injection Hev as <-.
    + rewrite (IH _ _ H2). now rewrite <- app_assoc.
    + exact (IH _ _ H2).
Qed.

Lemma prices_now_Ok self dt syms :
  forall acc prices,
    foldM (fun prices sym =>
             p ← BacktestEngine._price_at self sym dt;
             Ok (dict_set sym (BacktestEngine.price_or_zero p) prices))
      syms acc = Ok prices ->
    (forall s, In s syms ->
       dict_get s prices
       = Some (BacktestEngine.price_or_zero (close_at self s dt)))
    /\ (forall s, ~ In s syms -> dict_get s prices = dict_get s acc).
Proof.
  induction syms as [|x syms IH]; intros acc prices.
  - simpl. intros [= <-]. split; [intros s []|reflexivity].
  - rewrite foldM_cons. intros H.
    apply bind_Ok_inv in H as (acc1 & H1 & H2).
    apply bind_Ok_inv in H1 as (p & Hp & [= <-]).
    apply price_at_Ok in Hp. subst p.
    destruct (IH _ _ H2) as [Hget Hout]. split.
    + intros s Hs. destruct (decide (s ∈ syms)) as [Hs'|Hs'].
      * apply Hget. now apply list_elem_of_In.
      * rewrite list_elem_of_In in Hs'. destruct Hs as [->|Hs]; [|contradiction].
        rewrite Hout by exact Hs'. apply dict_get_set_eq.
    + intros s Hs. rewrite Hout by (intros H; apply Hs; now right).
      apply dict_get_set_ne. intros ->. apply Hs. now left.
Qed.

Lemma process_signals_curve uuid4 utcnow st sym sig st' :
  BacktestEngine._process_signals uuid4 utcnow st sym sig = Ok st' ->
  BacktestEngine.equity_curve st' = BacktestEngine.equity_curve st.
Proof. destruct sig; simpl; intros [= <-]; reflexivity. Qed.

Lemma strategy_signals_curve uuid4 utcnow self dt strat st st' :
  BacktestEngine.strategy_signals uuid4 utcnow self dt st strat = Ok st' ->
  BacktestEngine.equity_curve st' = BacktestEngine.equity_curve st.
Proof.
  unfold BacktestEngine.strategy_signals.
  apply (foldM_Ok_inv
           (fun s => BacktestEngine.equity_curve s
                     = BacktestEngine.equity_curve st)); [|reflexivity].
  intros s sym s' Hs H.
  apply bind_Ok_inv in H as (df & _ & H).
  apply bind_Ok_inv in H as (df' & _ & H).
  destruct (dict_get sym (generate_signals strat df')) as [se|].
  - apply process_signals_curve in H. congruence.
  - now injection H as <-.
Qed.

Lemma execute_orders_curve self dt st st' :
  BacktestEngine._execute_orders self dt st = Ok st' ->
  BacktestEngine.equity_curve st' = BacktestEngine.equity_curve st.
Proof.
  unfold BacktestEngine._execute_orders.
  apply (foldM_Ok_inv
           (fun s => BacktestEngine.equity_curve s
                     = BacktestEngine.equity_curve st)); [|reflexivity].
  intros s sym s' Hs H.
  apply bind_Ok_inv in H as (df & _ & H).
  apply bind_Ok_inv in H as ([row|] & _ & H).
  - apply bind_Ok_inv in H as ([h fs] & _ & H). injection H as <-. exact Hs.
  - now injection H as <-.
Qed.

(** A pass of the loop of [run] that completes either skipped the date,
    which has no bar, or added one sample. *)
Lemma run_step_Ok uuid4 utcnow self st idx dt st' :
  BacktestEngine.symbols self = map fst (BacktestEngine.data self) ->
  BacktestEngine.run_step uuid4 utcnow self st (idx, dt) = Ok st' ->
  (bars_at self dt (BacktestEngine.symbols self) = [] /\ st' = st)
  \/ (bars_at self dt (BacktestEngine.symbols self) <> []
      /\ BacktestEngine.equity_curve st'
         = BacktestEngine.equity_curve st
           ++ [(dt,
                (PortfolioManager.cash (BacktestEngine.pm st')
                 + py_sum
                     (map (fun sp =>
                             inject_Z (Position.quantity (snd sp))
                             * BacktestEngine.price_or_zero
                                 (close_at self (fst sp) dt))
                        (PortfolioManager._positions (BacktestEngine.pm st'))))%Q)]).
Proof.
  intros Hsyms H. unfold BacktestEngine.run_step in H.
  apply bind_Ok_inv in H as (events & Hev & H).
  apply market_events_Ok in Hev. simpl in Hev. subst events.
  destruct (bars_at self dt (BacktestEngine.symbols self)) as [|e es];
    [left; split; [reflexivity|congruence]|right].
  split; [discriminate|].
  apply bind_Ok_inv in H as (st1 & H1 & H).
  apply bind_Ok_inv in H as (st2 & H2 & H).
  apply bind_Ok_inv in H as (prices & Hp & H).
  apply bind_Ok_inv in H as (m & _ & H). injection H as <-.
  cbn [BacktestEngine.equity_curve BacktestEngine.pm].
  rewrite (execute_orders_curve _ _ _ _ H2).
  assert (Hec1 : BacktestEngine.equity_curve st1
                 = BacktestEngine.equity_curve st).
  { revert H1.
    apply (foldM_Ok_inv
             (fun s => BacktestEngine.equity_curve s
                       = BacktestEngine.equity_curve st)); [|reflexivity].
    intros s strat s' Hs Hstrat.
    apply strategy_signals_curve in Hstrat. congruence. }
  rewrite Hec1. do 3 f_equal.
  destruct (prices_now_Ok _ _ _ _ _ Hp) as [Hin Hout].
  unfold PortfolioManager.total_equity, PortfolioManager.market_value.
  do 2 f_equal. apply map_ext. intros [sym pos]. simpl.
  unfold Position.market_value.
  now rewrite (marks_now self dt prices Hsyms Hin Hout).
Qed.

Lemma run_loop_Ok uuid4 utcnow self dts :
  BacktestEngine.symbols self = map fst (BacktestEngine.data self) ->
  forall i st st',
    foldM (BacktestEngine.run_step uuid4 utcnow self) (enumerate_from i dts) st
    = Ok st' ->
    map fst (BacktestEngine.equity_curve st')
    = map fst (BacktestEngine.equity_curve st) ++ processed_dates self dts.
Proof.
  intros Hsyms. induction dts as [|dt dts IH]; intros i st st'.
  - simpl. intros [= <-]. now rewrite app_nil_r.
  - cbn [enumerate_from processed_dates]. rewrite foldM_cons. intros H.
    apply bind_Ok_inv in H as (st1 & Hstep & Hrest).
    rewrite (IH _ _ _ Hrest).
    destruct (run_step_Ok _ _ _ _ _ _ _ Hsyms Hstep) as [[-> ->]|[Hne ->]].
    + reflexivity.
    + destruct (bars_at self dt (BacktestEngine.symbols self));
        [contradiction|].
      rewrite map_app. simpl. now rewrite <- app_assoc.
Qed.

(** C5, as the code has it, for an engine built by [__init__].  Whenever a
    pass of the loop of [run] completes, a timestamp at which no symbol has
    a bar was skipped without a sample, and every other timestamp added
    exactly one sample, equal to the cash plus the sum over the positions
    of quantity times mark, where the mark of a symbol is its close at
    this very timestamp, and 0 for a symbol without a bar at this timestamp
    (whatever its earlier bars).  The curve that [run] returns has one
    sample for each date that has a bar.  The passes do complete, on
    orders that satisfy the checks of the constructor, when every price
    table is a time series (strictly increasing timestamps), the
    ["symbol"] parameters of the strategies name symbols of the data and
    [progress_interval] is not 0; [run] then returns a curve when some
    date has a bar. *)
Theorem equity_sample_uses_bars_of_the_timestamp :
  forall data strategies starting_cash commission slippage_pct
         progress_interval uuid4 utcnow,
    let self :=
      BacktestEngine.__init__ data strategies starting_cash commission
        slippage_pct progress_interval in
    (forall st idx dt st',
       BacktestEngine.run_step uuid4 utcnow self st (idx, dt) = Ok st' ->
       (bars_at self dt (BacktestEngine.symbols self) = [] /\ st' = st)
       \/ (bars_at self dt (BacktestEngine.symbols self) <> []
           /\ BacktestEngine.equity_curve st'
              = BacktestEngine.equity_curve st
                ++ [(dt,
                     (PortfolioManager.cash (BacktestEngine.pm st')
                      + py_sum
                          (map (fun sp =>
                                  inject_Z (Position.quantity (snd sp))
                                  * BacktestEngine.price_or_zero
                                      (close_at self (fst sp) dt))
                             (PortfolioManager._positions
                                (BacktestEngine.pm st'))))%Q)]))
    /\ (forall sym dt,
          close_at self sym dt = None ->
          BacktestEngine.price_or_zero (close_at self sym dt) = 0%Q)
    /\ (forall curve,
          BacktestEngine.run uuid4 utcnow self = Ok curve ->
          map fst curve = processed_dates self (BacktestEngine.dates self))
    /\ ((forall sym df, In (sym, df) data ->
           StronglySorted Z.lt (map fst df)) ->
        (forall strat s, In strat strategies ->
           parameters_symbol strat = Some s -> In s (map fst data)) ->
        progress_interval <> 0 ->
        (forall st idx dt,
           heap_inv P_valid_only (BacktestEngine.heap st) ->
           exists st',
             BacktestEngine.run_step uuid4 utcnow self st (idx, dt) = Ok st'
             /\ heap_inv P_valid_only (BacktestEngine.heap st'))
        /\ (processed_dates self (BacktestEngine.dates self) <> [] ->
            exists curve, BacktestEngine.run uuid4 utcnow self = Ok curve)).
Proof.
  intros data strategies cash comm slip pi uuid4 utcnow self.
  assert (Hsyms : BacktestEngine.symbols self
                  = map fst (BacktestEngine.data self)) by reflexivity.
  split; [|split; [|split]].
  - intros st idx dt st'. now apply run_step_Ok.
  - intros sym dt ->. reflexivity.
  - intros curve H. unfold BacktestEngine.run, BacktestEngine.run_loop in H.
    apply bind_Ok_inv in H as (st & Hloop & Hset).
    apply (run_loop_Ok _ _ _ _ Hsyms) in Hloop. simpl in Hloop.
    unfold BacktestEngine.set_index_time in Hset.
    destruct (BacktestEngine.equity_curve st); [discriminate|].
    injection Hset as <-. exact Hloop.
  - intros Hseries Hpar Hpi.
    assert (Hwf : engine_wf self) by (split; [reflexivity|exact Hpar]).
    assert (Hts : time_series self).
    { intros sym df Hget. apply (Hseries sym), dict_get_Some_In, Hget. }
    split.
    + intros st idx dt Hh.
      destruct (run_step_spec uuid4 utcnow self st dt Hwf Hts Hh)
        as (st' & Hstep & Hh' & Hskip & _).
      rewrite Hstep.
      destruct (bars_at self dt (BacktestEngine.symbols self)) as [|e es].
      * exists st. now split.
      * exists st'. rewrite py_mod_Ok by exact Hpi. now split.
    + intros Hne.
      destruct (run_loop_spec uuid4 utcnow self (BacktestEngine.dates self)
                  Hwf Hts Hpi 0%nat (BacktestEngine.initial_state self)
                  (heap_inv_empty _))
        as (st' & Hrun & Hmap).
      exists (BacktestEngine.equity_curve st').
      unfold BacktestEngine.run, BacktestEngine.run_loop, enumerate.
      rewrite Hrun, bind_Ok.
      cbn [BacktestEngine.initial_state BacktestEngine.equity_curve map app]
        in Hmap.
      unfold BacktestEngine.set_index_time.
      destruct (BacktestEngine.equity_curve st'); [|reflexivity].
      exfalso. apply Hne. rewrite <- Hmap. reflexivity.
Qed.

Lemma init_time_series data strategies cash comm slip pi :
  (forall sym df, In (sym, df) data -> StronglySorted Z.lt (map fst df)) ->
  time_series (BacktestEngine.__init__ data strategies cash comm slip pi).
Proof.
  intros H sym df Hget. apply (H sym), dict_get_Some_In, Hget.
Qed.

(** The run on [sparse_data] records one sample at each of the two dates. *)
Lemma equity_sample_uses_bars_of_the_timestamp_witness :
  exists curve,
    BacktestEngine.run example_uuid4 0 sparse_engine = Ok curve
    /\ map fst curve = [1; 2].
Proof.
  destruct (equity_sample_uses_bars_of_the_timestamp sparse_data [buy_b]
              10000 1 0 100 example_uuid4 0) as (_ & _ & Hdates & Htotal).
  destruct Htotal as [_ Hrun].
  - intros sym df [[= <- <-]|[[= <- <-]|[]]]; repeat constructor.
  - intros strat s [<-|[]]. discriminate.
  - discriminate.
  - destruct Hrun as [curve Hrun]; [discriminate|].
    exists curve. split; [exact Hrun|]. now rewrite (Hdates curve Hrun).
Defined.

(** C5 fails: B is bought at the time 1 (100 units at its close of 20, cash
    7999 after a commission of 1) and has no bar at the time 2.  The sample
    of the time 2 is 7999: B is marked at 0, not at its prior close of 20,
    which would give 9999. *)
Lemma equity_sample_prior_close_counterexample :
  exists st e1 e2,
    BacktestEngine.run_loop example_uuid4 0 sparse_engine = Ok st
    /\ BacktestEngine.run example_uuid4 0 sparse_engine = Ok [(1, e1); (2, e2)]
    /\ BacktestEngine.dates sparse_engine = [1; 2]
    /\ BacktestEngine.equity_curve st = [(1, e1); (2, e2)]
    /\ Position.quantity (PortfolioManager.position (BacktestEngine.pm st) "B")
       = 100
    /\ close_at sparse_engine "B" 1 = Some 20%Q
    /\ close_at sparse_engine "B" 2 = None
    /\ claimed_mark [(1, mkRow 20 None None)] 2 = 20%Q
    /\ (e2 == 7999)%Q
    /\ (claimed_equity sparse_engine (BacktestEngine.pm st) 2 == 9999)%Q
    /\ ~ (e2 == claimed_equity sparse_engine (BacktestEngine.pm st) 2)%Q.
Proof.
  eexists _, _, _. split; [vm_compute; reflexivity|].
  split; [vm_compute; reflexivity|].
  split; [reflexivity|]. split; [reflexivity|]. split; [reflexivity|].
  split; [reflexivity|]. split; [reflexivity|]. split; [reflexivity|].
  split; [reflexivity|]. split; [reflexivity|].
  intros H. vm_compute in H. discriminate H.
Qed.

(** ** Further properties of the order life cycle *)

Lemma process_order_closed self_cap sym time price high low comm mq h fs r' h' fs'
    r o :
  OrderBook.process_order self_cap sym time price high low comm mq (h, fs) r'
  = Ok (h', fs') ->
  get_order h r = Some o -> Order.is_open o = false ->
  get_order h' r = Some o.
Proof.
  intros Hp Hget Hclosed. unfold OrderBook.process_order in Hp.
  destruct (get_order h r') as [o'|] eqn:Hget'; [|now injection Hp as <- <-].
  destruct (Order.is_open o') eqn:Hopen'; simpl in Hp;
    [|now injection Hp as <- <-].
  assert (Hne : r' <> r) by (intros ->; congruence).
  destruct (Order.is_open (Order.maybe_timeout o' time)); simpl in Hp.
  2:{ injection Hp as <- <-. now rewrite get_put_order_ne. }
  destruct (OrderBook.fill_decision _ price high low) as [[fp|]|e];
    simpl in Hp; [| |discriminate].
  - injection Hp as <- <-. rewrite get_put_order_ne by exact Hne.
    unfold get_order. simpl. rewrite list_lookup_insert_ne by exact Hne.
    exact Hget.
  - injection Hp as <- <-. now rewrite get_put_order_ne.
Qed.

Lemma process_loop_closed self_cap sym time price high low comm mq rs r o :
  Order.is_open o = false ->
  forall h fs h' fs',
    foldM (OrderBook.process_order self_cap sym time price high low comm mq)
      rs (h, fs) = Ok (h', fs') ->
    get_order h r = Some o -> get_order h' r = Some o.
Proof.
  intros Hclosed. induction rs as [|r' rs IH]; intros h fs h' fs'.
  - now intros [= <- <-].
  - rewrite foldM_cons.
    destruct (OrderBook.process_order self_cap sym time price high low comm mq
                (h, fs) r') as [[h1 fs1]|e] eqn:Hstep; [|discriminate].
    rewrite bind_Ok. intros Hrest Hget. eapply IH; [exact Hrest|].
    eapply process_order_closed; eauto.
Qed.

Lemma cancel_in_closed order_id rs r o :
  Order.is_open o = false ->
  forall h, get_order h r = Some o ->
            get_order (fst (OrderBook.cancel_in h order_id rs)) r = Some o.
Proof.
  intros Hclosed. induction rs as [|r' rs IH]; intros h Hget; simpl; [exact Hget|].
  destruct (get_order h r') as [o'|] eqn:Hget'; [|now apply IH].
  destruct (bool_decide (Order.id o' = order_id)); simpl; [|now apply IH].
  destruct (Order.is_open o') eqn:Hopen'; [|now apply IH].
  simpl. rewrite get_put_order_ne; [exact Hget|]. intros ->. congruence.
Qed.

Lemma exec_closed h b c h' b' r o :
  exec (h, b) c = Ok (h', b') ->
  get_order h r = Some o -> Order.is_open o = false ->
  get_order h' r = Some o.
Proof.
  intros He Hget Hclosed. destruct c; simpl in He.
  - destruct (Order.__init__ _ _ _ _ _ _ _ _ _ _); injection He as <- <-;
      [|exact Hget].
    unfold get_order in *. simpl. now apply lookup_app_l_Some.
  - now injection He as <- <-.
  - destruct (OrderBook.process_bar h b symbol time price high low commission
                max_qty_per_fill) as [[h1 fs]|e] eqn:Hp; [|discriminate].
    injection He as <- <-. unfold OrderBook.process_bar in Hp.
    destruct (dict_get symbol (OrderBook._orders b)) as [rs|].
    + eapply process_loop_closed; eauto.
    + now injection Hp as <- <-.
  - injection He as <- <-. now apply cancel_in_closed.
  - destruct (get_order h r0) as [o0|] eqn:Hget0; injection He as <- <-;
      [|exact Hget].
    destruct (decide (r0 = r)) as [->|Hne].
    + assert (o0 = o) by congruence. subst o0.
      unfold Order.maybe_timeout. rewrite Hclosed.
      destruct (Order.timeout o); simpl; eapply get_put_order_eq, Hget.
    + now rewrite get_put_order_ne.
Qed.

(** X4: [FILLED], [CANCELLED] and [EXPIRED] are terminal: an order that is
    not open is left as it is (status, filled quantity and fills) by every
    sequence of constructor calls, [add_order], [process_bar],
    [cancel_order] and [maybe_timeout]. *)
Theorem closed_order_is_final :
  forall ops h b h' b' r o,
    get_order h r = Some o -> Order.is_open o = false ->
    run_ops ops (h, b) = Ok (h', b') ->
    get_order h' r = Some o.
Proof.
  induction ops as [|c ops IH]; intros h b h' b' r o Hget Hclosed;
    unfold run_ops.
  - now intros [= <- <-].
  - rewrite foldM_cons.
    destruct (exec (h, b) c) as [[h1 b1]|e] eqn:He; [|discriminate].
    rewrite bind_Ok. intros Hrun. eapply IH; [|exact Hclosed|exact Hrun].
    eapply exec_closed; eauto.
Qed.

(** The expired order is added to a book, a bar is processed, the order is
    cancelled and its timeout evaluated again: it is still [EXPIRED]. *)
Lemma closed_order_is_final_witness :
  exists h' b',
    run_ops [AddOrder 0%nat; ProcessBar "AAPL" 3000000 100 101 99 0 None;
             CancelOrder "b2c3"; MaybeTimeout 0%nat 4000000]
      (mkHeap [Order.set_status timeout_order EXPIRED] [], OrderBook.__init__ None)
    = Ok (h', b')
    /\ get_order h' 0%nat = Some (Order.set_status timeout_order EXPIRED).
Proof.
  eexists _, _. split; [vm_compute; reflexivity|].
  eapply (closed_order_is_final
            [AddOrder 0%nat; ProcessBar "AAPL" 3000000 100 101 99 0 None;
             CancelOrder "b2c3"; MaybeTimeout 0%nat 4000000]
            (mkHeap [Order.set_status timeout_order EXPIRED] [])
            (OrderBook.__init__ None)).
  - reflexivity.
  - reflexivity.
  - vm_compute. reflexivity.
Defined.

(** ** What a pass of [process_bar] touches *)

Lemma process_order_effect self_cap sym time price high low comm mq h fs r' h' fs' :
  OrderBook.process_order self_cap sym time price high low comm mq (h, fs) r'
  = Ok (h', fs') ->
  (forall r, r <> r' -> get_order h' r = get_order h r)
  /\ ((fs' = fs /\ fill_objs h' = fill_objs h)
      \/ (exists f, fs' = fs ++ [length (fill_objs h)]
                    /\ fill_objs h' = fill_objs h ++ [f]
                    /\ FillEvent.symbol f = sym
                    /\ FillEvent.time f = time
                    /\ FillEvent.commission f = comm)).
Proof.
  unfold OrderBook.process_order.
  destruct (get_order h r') as [o|] eqn:Hget; [|intros [= <- <-]; auto].
  destruct (Order.is_open o); simpl; [|intros [= <- <-]; auto].
  destruct (Order.is_open (Order.maybe_timeout o time)); simpl.
  2:{ intros [= <- <-]. split; [|now left].
      intros r Hne. now apply get_put_order_ne. }
  destruct (OrderBook.fill_decision _ price high low) as [[fp|]|e]; simpl;
    [| |discriminate].
  - intros [= <- <-]. split.
    + intros r Hne. rewrite get_put_order_ne by auto.
      unfold get_order. simpl. now apply list_lookup_insert_ne.
    + right. eexists. repeat split; reflexivity.
  - intros [= <- <-]. split; [|now left].
    intros r Hne. now apply get_put_order_ne.
Qed.

Lemma process_loop_effect self_cap sym time price high low comm mq rs :
  forall h fs h' fs',
    foldM (OrderBook.process_order self_cap sym time price high low comm mq)
      rs (h, fs) = Ok (h', fs') ->
    (forall r, ~ In r rs -> get_order h' r = get_order h r)
    /\ exists new,
         fill_objs h' = fill_objs h ++ new
         /\ fs' = fs ++ seq (length (fill_objs h)) (length new)
         /\ (length new <= length rs)%nat
         /\ Forall (fun f => FillEvent.symbol f = sym /\ FillEvent.time f = time
                             /\ FillEvent.commission f = comm) new.
Proof.
  induction rs as [|r' rs IH]; intros h fs h' fs'.
  - intros [= <- <-]. split; [auto|]. exists []. simpl.
    rewrite !app_nil_r. auto.
  - rewrite foldM_cons.
    destruct (OrderBook.process_order self_cap sym time price high low comm mq
                (h, fs) r') as [[h1 fs1]|e] eqn:Hstep; [|discriminate].
    rewrite bind_Ok. intros Hrest.
    apply process_order_effect in Hstep as (Hframe & Hcase).
    apply IH in Hrest as (Hframe' & new & Hf & -> & Hlen & Hall).
    split.
    + intros r Hr. rewrite Hframe' by (intros H; apply Hr; now right).
      apply Hframe. intros ->. apply Hr. now left.
    + destruct Hcase as [[-> Hsame]|(f & -> & Hf1 & Hsym & Htime & Hcomm)].
      * exists new. rewrite Hsame in *. repeat split; auto. simpl. lia.
      * exists (f :: new). rewrite Hf1 in *. rewrite length_app in *. simpl in *.
        rewrite <- !app_assoc. simpl.
        replace (length (fill_objs h) + 1)%nat with (S (length (fill_objs h)))
          by lia.
        rewrite <- app_assoc in Hf. simpl in Hf.
        repeat split; auto. lia.
Qed.

(** X5: a pass of [process_bar] for a symbol runs without an exception on
    valid orders; it returns no fill and changes nothing when the book has
    no list for the symbol; it leaves alone every order outside the list of
    the symbol and every fill object that existed before; it creates at most
    one fill for each entry of the list, and each new fill carries the
    symbol, the time and the commission of the call. *)
Theorem process_bar_frame :
  forall h b sym time price high low comm mq,
    heap_inv P_valid_only h ->
    exists h' fs new,
      OrderBook.process_bar h b sym time price high low comm mq = Ok (h', fs)
      /\ (dict_get sym (OrderBook._orders b) = None -> h' = h /\ fs = [])
      /\ (forall r,
            ~ In r (default [] (dict_get sym (OrderBook._orders b))) ->
            get_order h' r = get_order h r)
      /\ fill_objs h' = fill_objs h ++ new
      /\ fs = seq (length (fill_objs h)) (length new)
      /\ (length new
          <= length (default [] (dict_get sym (OrderBook._orders b))))%nat
      /\ Forall (fun f => FillEvent.symbol f = sym /\ FillEvent.time f = time
                          /\ FillEvent.commission f = comm) new.
Proof.
  intros h b sym time price high low comm mq Hh.
  destruct (process_bar_preserves P_valid_only (fun _ => True)) with
    (h := h) (b := b) (sym := sym) (time := time) (price := price)
    (high := high) (low := low) (comm := comm) (mq := mq)
    as (h' & fs & Hp & _); unfold P_valid_only in *; eauto.
  exists h', fs. rewrite Hp. unfold OrderBook.process_bar in Hp.
  destruct (dict_get sym (OrderBook._orders b)) as [rs|]; simpl.
  - apply process_loop_effect in Hp as (Hframe & new & Hf & Hfs & Hlen & Hall).
    exists new. split; [reflexivity|]. split; [discriminate|]. auto.
  - injection Hp as <- <-. exists []. rewrite app_nil_r.
    repeat split; auto.
Qed.

(** A pass for MSFT on a book that only holds the AAPL order. *)
Lemma process_bar_frame_witness :
  OrderBook.process_bar (fst partial_fill_state) (snd partial_fill_state) "MSFT"
    60000000 99 (201 # 2) 98 0 None
  = Ok (fst partial_fill_state, []).
Proof.
  destruct (process_bar_frame (fst partial_fill_state) (snd partial_fill_state)
              "MSFT" 60000000 99%Q (201 # 2)%Q 98%Q 0%Q None)
    as (h' & fs & new & Hp & Hnone & _).
  - intros r o H. destruct r as [|r]; [|destruct r; discriminate H].
    injection H as <-. repeat split; simpl; try lia; congruence.
  - destruct (Hnone eq_refl) as [-> ->]. exact Hp.
Defined.

(** ** Cancelling in the book *)

Lemma cancel_in_false order_id rs :
  forall h h',
    OrderBook.cancel_in h order_id rs = (h', false) ->
    h' = h
    /\ forall r o, In r rs -> get_order h r = Some o -> Order.id o = order_id ->
                   Order.is_open o = false.
Proof.
  induction rs as [|r rs IH]; intros h h'; simpl.
  - intros [= <-]. split; [reflexivity|]. intros r o [].
  - destruct (get_order h r) as [o|] eqn:Hget.
    + destruct (bool_decide (Order.id o = order_id)) eqn:Eid; simpl.
      * destruct (Order.is_open o) eqn:Eopen; [discriminate|].
        intros H. destruct (IH _ _ H) as [-> Hall]. split; [reflexivity|].
        intros r' o' [<-|Hin] Hget' Hid; [congruence|eauto].
      * intros H. destruct (IH _ _ H) as [-> Hall]. split; [reflexivity|].
        apply bool_decide_eq_false_1 in Eid.
        intros r' o' [<-|Hin] Hget' Hid; [congruence|eauto].
    + intros H. destruct (IH _ _ H) as [-> Hall]. split; [reflexivity|].
      intros r' o' [<-|Hin] Hget' Hid; [congruence|eauto].
Qed.

(** X6: [OrderBook.cancel_order] returns [False] exactly when the book holds
    no open order with the id, and then changes nothing; when it returns
    [True] it has set the status of one open order with that id to
    [CANCELLED] and changed nothing else; cancelling the same id again
    returns [False] when ids are unique. *)
Theorem cancel_order_effect :
  forall h b order_id,
    (snd (OrderBook.cancel_order h b order_id) = false ->
       fst (OrderBook.cancel_order h b order_id) = h
       /\ forall r o, In r (book_refs b) -> get_order h r = Some o ->
                      Order.id o = order_id -> Order.is_open o = false)
    /\ (snd (OrderBook.cancel_order h b order_id) = true ->
          exists r o,
            In r (book_refs b) /\ get_order h r = Some o
            /\ Order.id o = order_id /\ Order.is_open o = true
            /\ fst (OrderBook.cancel_order h b order_id)
               = put_order h r (Order.set_status o CANCELLED)
            /\ ((forall r1 o1, get_order h r1 = Some o1 ->
                   Order.id o1 = order_id -> r1 = r) ->
                snd (OrderBook.cancel_order
                       (fst (OrderBook.cancel_order h b order_id)) b order_id)
                = false)).
Proof.
  intros h b order_id. unfold OrderBook.cancel_order. fold (book_refs b).
  destruct (OrderBook.cancel_in h order_id (book_refs b)) as [h' ok] eqn:Hc.
  simpl. split; intros ->.
  - now apply cancel_in_false in Hc.
  - apply cancel_in_true in Hc as (r & o & Hin & Hget & Hid & Hopen & ->).
    exists r, o. repeat (split; [assumption || reflexivity|]).
    intros Huniq.
    destruct (OrderBook.cancel_in (put_order h r (Order.set_status o CANCELLED))
                order_id (book_refs b)) as [h2 ok2] eqn:Hc2.
    simpl. destruct ok2; [|reflexivity].
    apply cancel_in_true in Hc2 as (r2 & o2 & _ & Hget2 & Hid2 & Hopen2 & _).
    exfalso. destruct (decide (r2 = r)) as [->|Hne].
    + rewrite (get_put_order_eq _ _ _ _ Hget) in Hget2.
      injection Hget2 as <-. discriminate Hopen2.
    + rewrite get_put_order_ne in Hget2 by auto.
      apply Hne. eapply Huniq; eauto.
Qed.

(** ** The book only grows *)

Lemma book_extends_refl b : book_extends b b.
Proof.
  repeat split; [exists []|intros sym; exists []]; now rewrite app_nil_r.
Qed.

Lemma book_extends_trans b1 b2 b3 :
  book_extends b1 b2 -> book_extends b2 b3 -> book_extends b1 b3.
Proof.
  intros ([a1 H1] & Hs1 & Hc1) ([a2 H2] & Hs2 & Hc2). repeat split.
  - exists (a1 ++ a2). now rewrite H2, H1, app_assoc.
  - intros sym. destruct (Hs1 sym) as [x1 Hx1], (Hs2 sym) as [x2 Hx2].
    exists (x1 ++ x2). now rewrite Hx2, Hx1, app_assoc.
  - congruence.
Qed.

Lemma add_order_extends h b r : book_extends b (OrderBook.add_order h b r).
Proof.
  unfold OrderBook.add_order.
  destruct (get_order h r) as [o|]; [|apply book_extends_refl].
  repeat split; simpl.
  - now exists [r].
  - intros sym. destruct (decide (Order.symbol o = sym)) as [<-|Hne].
    + rewrite dict_get_set_eq. now exists [r].
    + rewrite dict_get_set_ne by exact Hne. exists []. now rewrite app_nil_r.
Qed.

Lemma add_order_history h b r :
  history_is_book b -> history_is_book (OrderBook.add_order h b r).
Proof.
  intros Hb x. rewrite add_order_refs, <- (Hb x).
  unfold OrderBook.add_order.
  destruct (get_order h r) as [o|]; simpl.
  - rewrite in_app_iff. simpl. split.
    + intros [H|[<-|[]]]; [now right|left; eauto].
    + intros [[-> _]|H]; auto.
  - split; [now right|]. intros [[_ [o Ho]]|H]; [discriminate|exact H].
Qed.

Lemma exec_book h b c h' b' :
  exec (h, b) c = Ok (h', b') ->
  book_extends b b' /\ (history_is_book b -> history_is_book b').
Proof.
  intros He. destruct c; simpl in He.
  - destruct (Order.__init__ _ _ _ _ _ _ _ _ _ _); injection He as <- <-;
      auto using book_extends_refl.
  - injection He as <- <-. auto using add_order_extends, add_order_history.
  - destruct (OrderBook.process_bar h b symbol time price high low commission
                max_qty_per_fill) as [[h1 fs]|e]; [|discriminate].
    injection He as <- <-. auto using book_extends_refl.
  - injection He as <- <-. auto using book_extends_refl.
  - destruct (get_order h r); injection He as <- <-;
      auto using book_extends_refl.
Qed.

(** X7: the book never drops or reorders an order.  Through every sequence
    of constructor calls, [add_order], [process_bar], [cancel_order] and
    [maybe_timeout], the history and the list of every symbol are only
    extended at the back (filled, cancelled and expired orders stay in the
    book, in the order of their submission), the cap of the book is
    unchanged, and the history and the per-symbol lists keep holding the
    same orders. *)
Theorem book_keeps_every_order :
  forall ops h b h' b',
    run_ops ops (h, b) = Ok (h', b') ->
    book_extends b b' /\ (history_is_book b -> history_is_book b').
Proof.
  induction ops as [|c ops IH]; intros h b h' b'; unfold run_ops.
  - intros [= <- <-]. auto using book_extends_refl.
  - rewrite foldM_cons.
    destruct (exec (h, b) c) as [[h1 b1]|e] eqn:He; [|discriminate].
    rewrite bind_Ok. intros Hrest.
    apply exec_book in He as [He1 He2].
    apply IH in Hrest as [Hr1 Hr2].
    split; [eapply book_extends_trans; eauto|auto].
Qed.

(** One order added to an empty book. *)
Lemma book_keeps_every_order_witness :
  book_extends (OrderBook.__init__ None)
    (OrderBook.add_order one_order_heap (OrderBook.__init__ None) 0%nat)
  /\ history_is_book
       (OrderBook.add_order one_order_heap (OrderBook.__init__ None) 0%nat).
Proof.
  destruct (book_keeps_every_order [AddOrder 0%nat] one_order_heap
              (OrderBook.__init__ None) one_order_heap
              (OrderBook.add_order one_order_heap (OrderBook.__init__ None)
                 0%nat)) as [H1 H2].
  - reflexivity.
  - split; [exact H1|]. apply H2. intros r. simpl. tauto.
Defined.

(** ** The average price of a position *)

Lemma inject_Z_nonzero z : z <> 0 -> ~ (inject_Z z == 0)%Q.
Proof. unfold Qeq. simpl. lia. Qed.

Lemma apply_fill_avg pm r f :
  Position.quantity (PortfolioManager.position pm (FillEvent.symbol f))
  + PortfolioManager.direction (FillEvent.fill_type f) * FillEvent.quantity f
  <> 0 ->
  (Position.avg_price
     (PortfolioManager.position (PortfolioManager.apply_fill pm r f)
        (FillEvent.symbol f))
   * inject_Z
       (Z.abs
          (Position.quantity (PortfolioManager.position pm (FillEvent.symbol f))
           + PortfolioManager.direction (FillEvent.fill_type f)
             * FillEvent.quantity f))
   == Position.avg_price (PortfolioManager.position pm (FillEvent.symbol f))
      * inject_Z
          (Z.abs
             (Position.quantity
                (PortfolioManager.position pm (FillEvent.symbol f))))
      + FillEvent.price f * inject_Z (FillEvent.quantity f))%Q.
Proof.
  intros Hne.
  unfold PortfolioManager.apply_fill, PortfolioManager.position at 1. simpl.
  rewrite dict_get_set_eq. simpl.
  destruct (Z.eqb_spec
              (Position.quantity
                 (PortfolioManager.position pm (FillEvent.symbol f))
               + PortfolioManager.direction (FillEvent.fill_type f)
                 * FillEvent.quantity f) 0) as [H0|_]; [contradiction|].
  field. apply inject_Z_nonzero. lia.
Qed.

Lemma same_direction_basis sym d fs :
  d = 1 \/ d = -1 ->
  forall pm,
    0 <= d * Position.quantity (PortfolioManager.position pm sym) ->
    same_direction sym d fs ->
    (Position.avg_price (PortfolioManager.position (apply_all pm fs) sym)
     * inject_Z
         (Z.abs (Position.quantity
                   (PortfolioManager.position (apply_all pm fs) sym)))
     == Position.avg_price (PortfolioManager.position pm sym)
        * inject_Z (Z.abs (Position.quantity (PortfolioManager.position pm sym)))
        + traded_value sym fs)%Q.
Proof.
  intros Hd. induction fs as [|[r f] fs IH]; intros pm Hq Hall.
  - unfold apply_all, traded_value. simpl. ring.
  - apply Forall_cons in Hall as [Hf Hall]. simpl in Hf.
    unfold apply_all, traded_value. simpl.
    fold (apply_all (PortfolioManager.apply_fill pm r f) fs).
    fold (traded_value sym fs).
    destruct (decide (FillEvent.symbol f = sym)) as [Hs|Hs].
    + rewrite bool_decide_eq_true_2 by exact Hs.
      destruct (Hf Hs) as [Hdir Hpos]. subst sym.
      rewrite IH; [|rewrite apply_fill_position; nia|exact Hall].
      rewrite apply_fill_position at 1. rewrite apply_fill_avg by nia. ring.
    + rewrite bool_decide_eq_false_2 by exact Hs.
      rewrite IH; [|now rewrite apply_fill_position_other by congruence
                   |exact Hall].
      rewrite apply_fill_position_other by congruence. ring.
Qed.

(** X8: the average price of a position is its volume-weighted cost as
    long as the fills go in the direction of the position.  A fill that
    brings the position to zero resets the average price to 0.  When every
    fill on a symbol is a BUY on a position that is long or flat (or a SELL
    on a position that is short or flat), the average price times the size
    of the position is the former basis plus the money exchanged by the
    fills, and the unrealised profit at a price is the market value less
    the signed basis. *)
Theorem average_price_is_volume_weighted :
  (forall pm r f,
      Position.quantity
        (PortfolioManager.position (PortfolioManager.apply_fill pm r f)
           (FillEvent.symbol f)) = 0 ->
      Position.avg_price
        (PortfolioManager.position (PortfolioManager.apply_fill pm r f)
           (FillEvent.symbol f)) = 0%Q)
  /\ (forall sym d fs pm,
        d = 1 \/ d = -1 ->
        0 <= d * Position.quantity (PortfolioManager.position pm sym) ->
        same_direction sym d fs ->
        let p := PortfolioManager.position pm sym in
        let p' := PortfolioManager.position (apply_all pm fs) sym in
        let basis :=
          (Position.avg_price p * inject_Z (Z.abs (Position.quantity p))
           + traded_value sym fs)%Q in
        Z.abs (Position.quantity p')
        = Z.abs (Position.quantity p) + Z.abs (signed_sum sym fs)
        /\ (Position.avg_price p' * inject_Z (Z.abs (Position.quantity p'))
            == basis)%Q
        /\ forall price,
             (Position.unrealised_pnl p' price
              == Position.market_value p' price - inject_Z d * basis)%Q).
Proof.
  split.
  - intros pm r f.
    unfold PortfolioManager.position at 1 2, PortfolioManager.apply_fill.
    cbn [PortfolioManager._positions]. rewrite dict_get_set_eq.
    cbn [default from_option id Position.quantity Position.avg_price].
    intros ->. reflexivity.
  - intros sym d fs pm Hd Hq Hall p p' basis.
    pose proof (same_direction_basis sym d fs Hd pm Hq Hall) as Hbasis.
    fold p p' basis in Hbasis.
    assert (Hsum : 0 <= d * signed_sum sym fs).
    { clear - Hall Hd. induction Hall as [|[r f] fs Hf _ IH];
        unfold signed_sum; simpl; [lia|].
      fold (signed_sum sym fs). unfold signed_quantity. simpl in Hf.
      destruct (decide (FillEvent.symbol f = sym)) as [Hs|Hs].
      - rewrite bool_decide_eq_true_2 by exact Hs.
        destruct (Hf Hs) as [-> Hpos]. nia.
      - rewrite bool_decide_eq_false_2 by exact Hs. lia. }
    assert (Hq' : Position.quantity p'
                  = Position.quantity p + signed_sum sym fs)
      by apply apply_all_position.
    change (0 <= d * Position.quantity p) in Hq.
    split; [destruct Hd as [-> | ->]; lia|]. split; [exact Hbasis|].
    intros price. rewrite <- Hbasis.
    unfold Position.unrealised_pnl, Position.market_value.
    assert (Habs : inject_Z (Z.abs (Position.quantity p'))
                   = inject_Z (d * Position.quantity p')).
    { f_equal. destruct Hd as [-> | ->]; lia. }
    rewrite Habs, inject_Z_mult.
    assert (Hdd : (inject_Z d * inject_Z d == 1)%Q)
      by (destruct Hd as [-> | ->]; reflexivity).
    transitivity
      (inject_Z (Position.quantity p') * price
       - inject_Z d * inject_Z d
         * (Position.avg_price p' * inject_Z (Position.quantity p')))%Q;
      [rewrite Hdd|]; ring.
Qed.

(** Ten AAPL at 100, thirty at 110 and ten at 90 bought from flat: the
    basis is 10 * 100 + 30 * 110 + 10 * 90. *)
Lemma average_price_is_volume_weighted_witness :
  (Position.avg_price
     (PortfolioManager.position
        (apply_all (PortfolioManager.__init__ 100000 2) three_buys) "AAPL")
   * inject_Z 50 == 5200)%Q.
Proof.
  destruct average_price_is_volume_weighted as [_ H].
  destruct (H "AAPL" 1 three_buys (PortfolioManager.__init__ 100000 2))
    as (_ & Hb & _).
  - now left.
  - simpl. lia.
  - repeat constructor; simpl; intros; try discriminate; lia.
  - exact Hb.
Defined.

(** ** Equity across a fill *)

Lemma fold_left_Qplus l :
  forall a, (fold_left Qplus l a == a + fold_right Qplus 0 l)%Q.
Proof.
  induction l as [|x l IH]; intros a; simpl; [ring|].
  rewrite IH. ring.
Qed.

Lemma py_sum_fold_right l : (py_sum l == fold_right Qplus 0 l)%Q.
Proof. unfold py_sum. rewrite fold_left_Qplus. ring. Qed.

Lemma market_value_set prices sym p d :
  (py_sum (map (fun sp => Position.market_value (snd sp) (PortfolioManager.mark prices (fst sp)))
             (dict_set sym p d))
   == py_sum (map (fun sp => Position.market_value (snd sp) (PortfolioManager.mark prices (fst sp))) d)
      - Position.market_value (default (Position.mk 0 0) (dict_get sym d))
          (PortfolioManager.mark prices sym)
      + Position.market_value p (PortfolioManager.mark prices sym))%Q.
Proof.
  rewrite !py_sum_fold_right.
  induction d as [|[k v] d IH]; simpl.
  - unfold Position.market_value. simpl. ring.
  - destruct (bool_decide (k = sym)) eqn:E; simpl.
    + apply bool_decide_eq_true_1 in E. subst k. ring.
    + rewrite IH. ring.
Qed.

(** X9: what a fill does to the equity of the portfolio.  At any prices,
    the equity after the fill is the equity before, plus the quantity bought
    (or minus the quantity sold) times the difference between the mark of
    the symbol and the price of the fill, minus [direction * commission]:
    a BUY at the mark costs the portfolio its commission, and a SELL at the
    mark raises the equity by its commission. *)
Theorem fill_changes_equity_by_commission :
  forall pm r f prices,
    let d := inject_Z (PortfolioManager.direction (FillEvent.fill_type f)) in
    (PortfolioManager.total_equity (PortfolioManager.apply_fill pm r f) prices
     == PortfolioManager.total_equity pm prices
        + d * inject_Z (FillEvent.quantity f)
          * (PortfolioManager.mark prices (FillEvent.symbol f)
             - FillEvent.price f)
        - d * FillEvent.commission f)%Q
    /\ ((PortfolioManager.mark prices (FillEvent.symbol f) == FillEvent.price f)%Q ->
        (FillEvent.fill_type f = BUY ->
         (PortfolioManager.total_equity (PortfolioManager.apply_fill pm r f)
            prices
          == PortfolioManager.total_equity pm prices
             - FillEvent.commission f)%Q)
        /\ (FillEvent.fill_type f = SELL ->
            (PortfolioManager.total_equity (PortfolioManager.apply_fill pm r f)
               prices
             == PortfolioManager.total_equity pm prices
                + FillEvent.commission f)%Q)).
Proof.
  intros pm r f prices d.
  assert (Hgen :
    (PortfolioManager.total_equity (PortfolioManager.apply_fill pm r f) prices
     == PortfolioManager.total_equity pm prices
        + d * inject_Z (FillEvent.quantity f)
          * (PortfolioManager.mark prices (FillEvent.symbol f)
             - FillEvent.price f)
        - d * FillEvent.commission f)%Q).
  { unfold PortfolioManager.total_equity, PortfolioManager.market_value,
      PortfolioManager.apply_fill.
    cbn [PortfolioManager.cash PortfolioManager._positions].
    rewrite market_value_set. fold (PortfolioManager.position pm (FillEvent.symbol f)).
    unfold Position.market_value. cbn [Position.quantity].
    rewrite inject_Z_plus, inject_Z_mult. fold d. ring. }
  split; [exact Hgen|]. intros Hmark. split; intros Hty; rewrite Hgen;
    subst d; rewrite Hty, Hmark; simpl; ring.
Qed.



(** ** Persistence *)

Lemma dict_set_fresh {V : Type} k (v : V) d :
  dict_get k d = None -> dict_set k v d = d ++ [(k, v)].
Proof.
  induction d as [|[k' v'] d IH]; simpl; [reflexivity|].
  destruct (bool_decide (k' = k)); [discriminate|].
  intros H. now rewrite IH.
Qed.

Lemma dict_get_app_fresh {V : Type} k k' (v : V) d :
  k <> k' -> dict_get k' d = None -> dict_get k' (d ++ [(k, v)]) = None.
Proof.
  intros Hne. induction d as [|[k0 v0] d IH]; simpl.
  - now rewrite bool_decide_eq_false_2.
  - destruct (bool_decide (k0 = k')); [discriminate|exact IH].
Qed.

Lemma fold_dict_set_fresh {A V : Type} (g : string * A -> V) l :
  forall acc,
    NoDup (map fst l) ->
    (forall k, In k (map fst l) -> dict_get k acc = None) ->
    fold_left (fun d si => dict_set (fst si) (g si) d) l acc
    = acc ++ map (fun si => (fst si, g si)) l.
Proof.
  induction l as [|[k a] l IH]; intros acc Hnd Hfresh; simpl.
  - now rewrite app_nil_r.
  - simpl in Hnd. apply NoDup_cons in Hnd as [Hk Hnd].
    rewrite list_elem_of_In in Hk.
    rewrite dict_set_fresh by (apply Hfresh; now left).
    rewrite IH; [now rewrite <- app_assoc|exact Hnd|].
    intros k' Hk'. apply dict_get_app_fresh; [congruence|].
    apply Hfresh. now right.
Qed.

(** X14: what a [save] followed by a [load] brings back.  For a portfolio
    whose positions have distinct symbols, the loaded portfolio has the cash
    and the positions of the saved one, symbol by symbol and in the same
    order, hence the same equity at any prices; its trade history and its
    equity history are empty and its [max_leverage] is the default of 2,
    whatever they were. *)
Theorem save_load_round_trip :
  forall h pm,
    NoDup (map fst (PortfolioManager._positions pm)) ->
    PortfolioManager.load (PortfolioManager.save h pm)
    = PortfolioManager.mk (PortfolioManager.cash pm) 2
        (PortfolioManager._positions pm) [] []
    /\ (forall sym,
          PortfolioManager.position
            (PortfolioManager.load (PortfolioManager.save h pm)) sym
          = PortfolioManager.position pm sym)
    /\ (forall prices,
          PortfolioManager.total_equity
            (PortfolioManager.load (PortfolioManager.save h pm)) prices
          = PortfolioManager.total_equity pm prices).
Proof.
  intros h pm Hnd.
  assert (Hload : PortfolioManager.load (PortfolioManager.save h pm)
                  = PortfolioManager.mk (PortfolioManager.cash pm) 2
                      (PortfolioManager._positions pm) [] []).
  { unfold PortfolioManager.load, PortfolioManager.save.
    cbn [PortfolioManager.saved_cash PortfolioManager.saved_positions
         PortfolioManager.__init__ PortfolioManager.max_leverage
         PortfolioManager._positions PortfolioManager.trade_history
         PortfolioManager._equity_history].
    f_equal.
    rewrite (fold_dict_set_fresh
               (fun si : string * (Z * Q) =>
                  Position.mk (fst (snd si)) (snd (snd si)))).
    - rewrite app_nil_l, map_map. simpl.
      rewrite <- (map_id (PortfolioManager._positions pm)) at 2.
      apply map_ext. now intros [k [q a]].
    - now rewrite map_map.
    - reflexivity. }
  rewrite Hload. repeat split.
Qed.

(** The portfolio of 100000 in cash and ten AAPL comes back as it was. *)
Lemma save_load_round_trip_witness :
  PortfolioManager.load (PortfolioManager.save empty_heap cash_and_aapl)
  = cash_and_aapl.
Proof.
  destruct (save_load_round_trip empty_heap cash_and_aapl) as [H _].
  - repeat constructor. rewrite list_elem_of_In. simpl. tauto.
  - exact H.
Defined.

(** ** The bookkeeping of the broker *)








(** ** A market order through the broker *)



(** ** The dates of the engine *)

Lemma insert_date_In t l x : In x (insert_date t l) <-> x = t \/ In x l.
Proof.
  induction l as [|y l IH]; simpl; [intuition|].
  destruct (Z.ltb_spec t y); [simpl; intuition|].
  destruct (Z.eqb_spec t y) as [->|Hne]; simpl; [intuition|].
  rewrite IH. intuition.
Qed.

Lemma insert_date_sorted t l :
  StronglySorted Z.lt l -> StronglySorted Z.lt (insert_date t l).
Proof.
  induction 1 as [|y l Hl IH Hy]; simpl; [repeat constructor|].
  destruct (Z.ltb_spec t y) as [Hlt|Hge].
  - constructor; [now constructor|]. constructor; [exact Hlt|].
    eapply Forall_impl; [exact Hy|]. intros z Hz. lia.
  - destruct (Z.eqb_spec t y) as [->|Hne]; [now constructor|].
    constructor; [exact IH|]. apply Forall_forall. intros z Hz.
    apply list_elem_of_In, insert_date_In in Hz as [->|Hz]; [lia|].
    rewrite Forall_forall in Hy. apply Hy. now apply list_elem_of_In.
Qed.

Lemma sorted_dates_spec ts :
  StronglySorted Z.lt (fold_right insert_date [] ts)
  /\ forall t, In t (fold_right insert_date [] ts) <-> In t ts.
Proof.
  induction ts as [|x ts [IHs IHi]]; simpl; [split; [constructor|tauto]|].
  split; [now apply insert_date_sorted|].
  intros t. rewrite insert_date_In, IHi. intuition.
Qed.

Lemma dict_get_NoDup {V : Type} k (v : V) d :
  NoDup (map fst d) -> In (k, v) d -> dict_get k d = Some v.
Proof.
  induction d as [|[k' v'] d IH]; simpl; [intros _ []|].
  intros Hnd Hin. apply NoDup_cons in Hnd as [Hk Hnd].
  destruct Hin as [[= -> ->]|Hin].
  - now rewrite bool_decide_eq_true_2.
  - rewrite bool_decide_eq_false_2; [now apply IH|].
    intros ->. apply Hk, list_elem_of_In, in_map_iff. now exists (k, v).
Qed.

Lemma row_at_In df t : In t (map fst df) -> is_Some (row_at df t).
Proof.
  induction df as [|[t' row] df IH]; simpl; [intros []|].
  destruct (Z.eqb_spec t' t) as [->|Hne]; [eauto|].
  intros [H|H]; [contradiction|auto].
Qed.

Lemma bars_at_nonempty self dt syms s :
  In s syms -> is_Some (close_at self s dt) -> bars_at self dt syms <> [].
Proof.
  induction syms as [|x syms IH]; simpl; [intros []|].
  intros [->|Hin] Hs.
  - destruct Hs as [p ->]. discriminate.
  - destruct (close_at self x dt); [discriminate|auto].
Qed.

Lemma processed_dates_all self dts :
  (forall dt, In dt dts -> bars_at self dt (BacktestEngine.symbols self) <> []) ->
  processed_dates self dts = dts.
Proof.
  induction dts as [|dt dts IH]; intros Hall; simpl; [reflexivity|].
  destruct (bars_at self dt (BacktestEngine.symbols self)) eqn:E.
  - exfalso. apply (Hall dt); [now left|exact E].
  - f_equal. apply IH. intros x Hx. apply Hall. now right.
Qed.

(** A table that repeats a timestamp: [float] is applied to a series of two
    closes. *)
Example run_repeated_timestamp :
  BacktestEngine.run example_uuid4 0
    (BacktestEngine.__init__
       [("A", [(1, mkRow 10 None None); (1, mkRow 11 None None)])] []
       10000 1 0 100)
  = Raise TypeError.
Proof. reflexivity. Qed.

(** X17: the dates of an engine built by [__init__] are the timestamps of
    the bars of its data, each once and in increasing order.  Without any
    bar [run] raises [KeyError], from [set_index] on a frame without
    columns.  When the symbols of the data are distinct, every price table
    is a time series (strictly increasing timestamps), the ["symbol"]
    parameter of every strategy names a symbol of the data and there is a
    bar: with a [progress_interval] other than 0, [run] does not raise and
    records exactly one equity sample for each of the dates, in increasing
    order, so that no date is skipped; with a [progress_interval] of 0,
    [run] raises [ZeroDivisionError]. *)
Theorem run_samples_every_date :
  forall data strategies starting_cash commission slippage_pct progress_interval,
    let self :=
      BacktestEngine.__init__ data strategies starting_cash commission
        slippage_pct progress_interval in
    StronglySorted Z.lt (BacktestEngine.dates self)
    /\ (forall t,
          In t (BacktestEngine.dates self)
          <-> exists sym df, In (sym, df) data /\ In t (map fst df))
    /\ (BacktestEngine.dates self = [] ->
        forall uuid4 utcnow,
          BacktestEngine.run uuid4 utcnow self
          = Raise (KeyError "None of ['time'] are in the columns"))
    /\ (NoDup (map fst data) ->
        (forall sym df, In (sym, df) data -> StronglySorted Z.lt (map fst df)) ->
        (forall strat s, In strat strategies ->
           parameters_symbol strat = Some s -> In s (map fst data)) ->
        BacktestEngine.dates self <> [] ->
        forall uuid4 utcnow,
          (progress_interval <> 0 ->
           exists curve,
             BacktestEngine.run uuid4 utcnow self = Ok curve
             /\ map fst curve = BacktestEngine.dates self)
          /\ (progress_interval = 0 ->
              BacktestEngine.run uuid4 utcnow self = Raise ZeroDivisionError)).
Proof.
  intros data strategies cash comm slip pi self.
  destruct (sorted_dates_spec
              (concat (map (fun sd : string * DataFrame => map fst (snd sd))
                         data))) as [Hsorted Hin].
  assert (Hdates : forall t,
    In t (BacktestEngine.dates self)
    <-> exists sym df, In (sym, df) data /\ In t (map fst df)).
  { intros t. unfold self, BacktestEngine.__init__. cbn [BacktestEngine.dates].
    rewrite Hin, in_concat. split.
    - intros (l & Hl & Ht). apply in_map_iff in Hl as ([sym df] & <- & Hsd).
      eauto.
    - intros (sym & df & Hsd & Ht). exists (map fst df). split; [|exact Ht].
      apply in_map_iff. now exists (sym, df). }
  split; [exact Hsorted|]. split; [exact Hdates|]. split.
  { intros Hnil uuid4 utcnow.
    unfold BacktestEngine.run, BacktestEngine.run_loop. rewrite Hnil.
    reflexivity. }
  intros Hnd Hseries Hpar Hne uuid4 utcnow.
  assert (Hwf : engine_wf self) by (split; [reflexivity|exact Hpar]).
  assert (Hts : time_series self) by now apply init_time_series.
  assert (Hall : processed_dates self (BacktestEngine.dates self)
                 = BacktestEngine.dates self).
  { apply processed_dates_all. intros dt Hdt.
    apply Hdates in Hdt as (sym & df & Hsd & Ht).
    apply bars_at_nonempty with (s := sym).
    - unfold self. cbn [BacktestEngine.__init__ BacktestEngine.symbols].
      apply in_map_iff. now exists (sym, df).
    - unfold close_at, self. cbn [BacktestEngine.__init__ BacktestEngine.data].
      rewrite (dict_get_NoDup _ _ _ Hnd Hsd).
      destruct (row_at_In df dt Ht) as [row ->]. simpl. eauto. }
  split.
  - intros Hpi.
    destruct (run_loop_spec uuid4 utcnow self (BacktestEngine.dates self) Hwf
                Hts Hpi 0%nat (BacktestEngine.initial_state self))
      as (st & Hrun & Hcurve); [apply heap_inv_empty|].
    exists (BacktestEngine.equity_curve st).
    unfold BacktestEngine.run, BacktestEngine.run_loop, enumerate.
    rewrite Hrun, bind_Ok.
    cbn [BacktestEngine.initial_state BacktestEngine.equity_curve map app]
      in Hcurve.
    rewrite Hall in Hcurve. split; [|exact Hcurve].
    destruct (BacktestEngine.equity_curve st); [|reflexivity].
    exfalso. apply Hne. rewrite <- Hcurve. reflexivity.
  - intros Hpi. unfold BacktestEngine.run, BacktestEngine.run_loop, enumerate.
    rewrite (run_loop_zero_interval uuid4 utcnow self _ Hwf Hts Hpi);
      [reflexivity| |apply heap_inv_empty].
    now rewrite Hall.
Qed.

(** The run on [sparse_data]: its dates are 1 and 2 and each has a sample. *)
Lemma run_samples_every_date_witness :
  exists curve,
    BacktestEngine.run example_uuid4 0 sparse_engine = Ok curve
    /\ map fst curve = [1; 2].
Proof.
  destruct (run_samples_every_date sparse_data [buy_b] 10000 1 0 100)
    as (_ & _ & _ & H).
  destruct H with (uuid4 := example_uuid4) (utcnow := 0) as [H1 _].
  - repeat constructor; rewrite ?list_elem_of_In; simpl; intuition congruence.
  - intros sym df [[= <- <-]|[[= <- <-]|[]]]; repeat constructor.
  - intros strat s [<-|[]]. discriminate.
  - discriminate.
  - destruct H1 as (curve & Hr & Hc); [discriminate|].
    exists curve. split; [exact Hr|exact Hc].
Defined.

(** ** A strategy that signals BUY at every bar *)

Lemma foldM_app {S A : Type} (body : S -> A -> result S) l1 l2 :
  forall s, foldM body (l1 ++ l2) s = foldM body l1 s ≫= foldM body l2.
Proof.
  induction l1 as [|a l1 IH]; intros s; [reflexivity|].
  simpl app. rewrite !foldM_cons. destruct (body s a) as [s1|e]; [|reflexivity].
  rewrite !bind_Ok. apply IH.
Qed.

Lemma process_loop_all_closed self_cap sym time price high low comm mq rs h fs :
  (forall r o, In r rs -> get_order h r = Some o -> Order.is_open o = false) ->
  foldM (OrderBook.process_order self_cap sym time price high low comm mq)
    rs (h, fs) = Ok (h, fs).
Proof.
  induction rs as [|r rs IH]; intros Hall; [reflexivity|].
  rewrite foldM_cons.
  assert (Hstep : OrderBook.process_order self_cap sym time price high low comm
                    mq (h, fs) r = Ok (h, fs)).
  { unfold OrderBook.process_order.
    destruct (get_order h r) as [o|] eqn:Hget; [|reflexivity].
    now rewrite (Hall r o (or_introl eq_refl) Hget). }
  rewrite Hstep, bind_Ok. apply IH. intros r' o' Hin. apply Hall. now right.
Qed.

Lemma sorted_dates_id l :
  StronglySorted Z.lt l -> fold_right insert_date [] l = l.
Proof.
  induction 1 as [|x l Hl IH Hx]; [reflexivity|].
  simpl. rewrite IH. destruct l as [|y l]; [reflexivity|].
  simpl. apply Forall_cons in Hx as [Hxy _].
  now rewrite (proj2 (Z.ltb_lt _ _) Hxy).
Qed.

Lemma row_at_sorted df :
  StronglySorted Z.lt (map fst df) ->
  forall t row, In (t, row) df -> row_at df t = Some row.
Proof.
  induction df as [|[t' row'] df IH]; intros Hs t row; [intros []|].
  simpl in Hs. apply StronglySorted_inv in Hs as [Hs Hlt].
  simpl. intros [[= -> ->]|Hin].
  - now rewrite Z.eqb_refl.
  - destruct (Z.eqb_spec t' t) as [->|Hne]; [|now apply IH].
    exfalso. rewrite Forall_forall in Hlt.
    assert (t < t); [|lia].
    apply Hlt, list_elem_of_In, in_map_iff. now exists (t, row).
Qed.

Lemma filter_upto_nonempty (df : DataFrame) t row :
  row_at df t = Some row -> filter (fun tr => fst tr <= t) df <> [].
Proof.
  unfold DataFrame in *. induction df as [|[t' row'] df IH]; cbn [row_at];
    [discriminate|].
  rewrite filter_cons. cbn [fst].
  destruct (decide (t' <= t)) as [Hle|Hgt]; [discriminate|].
  destruct (Z.eqb_spec t' t) as [->|Hne]; [lia|exact IH].
Qed.

Section LotPerBar.
Variable uuid4 : nat -> string.
Variable utcnow : Z.
Variable self : BacktestEngine.t.
Variable sym : string.
Variable df : DataFrame.
Variable strat : Strategy.

Hypothesis Hdata : BacktestEngine.data self = [(sym, df)].
Hypothesis Hsyms : BacktestEngine.symbols self = [sym].
Hypothesis Hstrats : BacktestEngine.strategies self = [strat].
Hypothesis Hbuys : always_buys strat sym.
Hypothesis Hsorted : StronglySorted Z.lt (map fst df).
Hypothesis Hpi : BacktestEngine.progress_interval self <> 0.

Lemma lot_time_series : time_series self.
Proof.
  intros s d. rewrite Hdata. cbn [dict_get].
  case_bool_decide; [|discriminate]. now intros [= <-].
Qed.

Lemma lot_data_of : BacktestEngine.data_of self sym = Ok df.
Proof.
  unfold BacktestEngine.data_of. rewrite Hdata. cbn [dict_get].
  now rewrite bool_decide_eq_true_2.
Qed.

Lemma lot_close_at dt row :
  row_at df dt = Some row -> close_at self sym dt = Some (Close row).
Proof.
  intros Hloc. unfold close_at. rewrite Hdata. cbn [dict_get].
  rewrite bool_decide_eq_true_2 by reflexivity. now rewrite Hloc.
Qed.

Lemma lot_sym_in_data : In sym (map fst (BacktestEngine.data self)).
Proof. rewrite Hdata. now left. Qed.

Lemma lot_signals st dt row :
  row_at df dt = Some row ->
  BacktestEngine.strategy_signals uuid4 utcnow self dt st strat
  = BacktestEngine._process_signals uuid4 utcnow st sym BUY.
Proof.
  intros Hloc. destruct Hbuys as [Hpar Hsig].
  unfold BacktestEngine.strategy_signals, BacktestEngine.required_syms.
  rewrite Hpar, Hsyms.
  change (remove_dups [sym]) with [sym].
  rewrite foldM_cons, lot_data_of, bind_Ok.
  rewrite (loc_upto_time_series df dt Hsorted), bind_Ok.
  destruct (Hsig _ (filter_upto_nonempty _ _ _ Hloc)) as [c ->].
  cbn [signal_type].
  destruct (BacktestEngine._process_signals uuid4 utcnow st sym BUY);
    reflexivity.
Qed.

Lemma lot_step st idx dt row :
  row_at df dt = Some row -> lot_inv sym st ->
  exists st',
    BacktestEngine.run_step uuid4 utcnow self st (idx, dt) = Ok st'
    /\ lot_inv sym st'
    /\ BacktestEngine.pm st'
       = PortfolioManager.apply_fill (BacktestEngine.pm st)
           (length (fill_objs (BacktestEngine.heap st)))
           (FillEvent.mk sym dt BUY 100 (Close row)
              (BacktestEngine.commission self))
    /\ BacktestEngine.equity_curve st'
       = BacktestEngine.equity_curve st
         ++ [(dt, PortfolioManager.total_equity (BacktestEngine.pm st')
                    [(sym, BacktestEngine.price_or_zero (Some (Close row)))])].
Proof.
  intros Hloc (Hclosed & Hcap & Hrefs).
  set (h := BacktestEngine.heap st) in *.
  set (o := Order.mk sym BUY MARKET 100 None None utcnow None
              (uuid4 (length (order_objs h))) 0 PENDING []).
  set (r := length (order_objs h)).
  set (h1 := fst (new_order h o)).
  set (book1 := OrderBook.add_order h1 (BacktestEngine.book st) r).
  set (old := default [] (dict_get sym
                            (OrderBook._orders (BacktestEngine.book st)))) in *.
  set (close := Close row).
  assert (Hget1 : get_order h1 r = Some o).
  { unfold h1, get_order, new_order, r. simpl.
    rewrite lookup_app_r, Nat.sub_diag by lia. reflexivity. }
  assert (Hold1 : forall x, (x < r)%nat -> get_order h1 x = get_order h x).
  { intros x Hx. unfold h1, get_order, new_order. simpl.
    now rewrite lookup_app_l by exact Hx. }
  assert (Hlist : dict_get sym (OrderBook._orders book1) = Some (old ++ [r])).
  { unfold book1, OrderBook.add_order. rewrite Hget1.
    cbn [OrderBook._orders Order.symbol o]. apply dict_get_set_eq. }
  assert (Hcap1 : OrderBook._max_qty_per_fill book1 = None).
  { unfold book1, OrderBook.add_order. rewrite Hget1. exact Hcap. }
  destruct (process_order_fill None sym dt close
              (default close (High row)) (default close (Low row))
              (BacktestEngine.commission self) None h1 [] r o close Hget1)
    as (h2 & Hp & Hf & Ho); [reflexivity|reflexivity|].
  change (OrderBook.fill_qty (OrderBook.effective_cap None None) o)
    with 100 in Hf, Ho.
  change (Order.side o) with BUY in Hf, Ho. cbn [app] in Hp.
  assert (Hfr : length (fill_objs h1) = length (fill_objs h)) by reflexivity.
  rewrite Hfr in Hp, Hf, Ho.
  set (fr := length (fill_objs h)) in *.
  set (f := FillEvent.mk sym dt BUY 100 close (BacktestEngine.commission self))
    in *.
  assert (Hbar :
    OrderBook.process_bar h1 book1 sym dt close (default close (High row))
      (default close (Low row)) (BacktestEngine.commission self) None
    = Ok (h2, [fr])).
  { unfold OrderBook.process_bar. rewrite Hlist, Hcap1, foldM_app.
    rewrite process_loop_all_closed, bind_Ok.
    - rewrite foldM_cons, Hp. reflexivity.
    - intros x ox Hx Hgx. rewrite Forall_forall in Hrefs.
      apply list_elem_of_In, Hrefs in Hx. rewrite Hold1 in Hgx by exact Hx.
      eapply Hclosed, Hgx. }
  pose proof (process_order_effect _ _ _ _ _ _ _ _ _ _ _ _ _ Hp)
    as [Hframe _].
  pose proof (process_bar_shape _ _ _ _ _ _ _ _ _ _ _ Hbar)
    as (_ & _ & Hlen & _).
  set (st1 := BacktestEngine.mkState h1 book1 (BacktestEngine.pm st)
                (BacktestEngine.equity_curve st)).
  assert (Hsig :
    foldM (BacktestEngine.strategy_signals uuid4 utcnow self dt)
      (BacktestEngine.strategies self) st = Ok st1).
  { rewrite Hstrats, foldM_cons, (lot_signals _ _ _ Hloc). reflexivity. }
  assert (Hexec :
    BacktestEngine._execute_orders self dt st1
    = Ok (BacktestEngine.mkState h2 book1
            (PortfolioManager.apply_fill (BacktestEngine.pm st) fr f)
            (BacktestEngine.equity_curve st))).
  { unfold BacktestEngine._execute_orders.
    rewrite Hsyms, foldM_cons, lot_data_of, bind_Ok.
    rewrite (loc_time_series df dt Hsorted), bind_Ok, Hloc.
    unfold st1. cbn [BacktestEngine.heap BacktestEngine.book BacktestEngine.pm
                     BacktestEngine.equity_curve].
    fold close. rewrite Hbar, bind_Ok.
    unfold BacktestEngine.apply_fills. cbn [fold_left]. rewrite Hf.
    reflexivity. }
  assert (Hprices :
    BacktestEngine.prices_now self dt
    = Ok [(sym, BacktestEngine.price_or_zero (Some close))]).
  { unfold BacktestEngine.prices_now. rewrite Hsyms, foldM_cons.
    rewrite price_at_close_at
      by (apply lot_time_series || apply lot_sym_in_data).
    rewrite (lot_close_at _ _ Hloc). reflexivity. }
  unfold BacktestEngine.run_step, BacktestEngine._generate_market_events.
  rewrite market_events_bars
    by (apply lot_time_series
        || (intros s Hs; rewrite Hsyms in Hs; destruct Hs as [<-|[]];
            apply lot_sym_in_data)).
  rewrite Hsyms. cbn [bars_at]. rewrite (lot_close_at _ _ Hloc).
  rewrite bind_Ok. cbn [app].
  rewrite Hsig, bind_Ok, Hexec, bind_Ok, Hprices, bind_Ok.
  rewrite py_mod_Ok by exact Hpi. rewrite bind_Ok.
  eexists. split; [reflexivity|].
  cbn [BacktestEngine.heap BacktestEngine.book BacktestEngine.pm
       BacktestEngine.equity_curve].
  split; [|split; reflexivity].
  unfold lot_inv. cbn [BacktestEngine.heap BacktestEngine.book].
  split; [|split; [exact Hcap1|]].
  - intros x ox Hgx. destruct (decide (x = r)) as [->|Hne].
    + rewrite Ho in Hgx. injection Hgx as <-. reflexivity.
    + rewrite Hframe in Hgx by exact Hne.
      destruct (decide (x < r)%nat) as [Hlt|Hge].
      * rewrite Hold1 in Hgx by exact Hlt. eapply Hclosed, Hgx.
      * unfold h1, get_order, new_order in Hgx. simpl in Hgx.
        apply lookup_lt_Some in Hgx. rewrite length_app in Hgx. simpl in Hgx.
        fold r in Hgx. lia.
  - rewrite Hlist, Hlen. cbn [default from_option id].
    assert (Hlen1 : length (order_objs h1) = S r)
      by (unfold h1, new_order; simpl; rewrite length_app; simpl; lia).
    rewrite Hlen1. apply Forall_app. split.
    + eapply Forall_impl; [exact Hrefs|]. intros x Hx. simpl in Hx. lia.
    + repeat constructor.
Qed.
Lemma price_or_zero_Some x : (BacktestEngine.price_or_zero (Some x) == x)%Q.
Proof.
  unfold BacktestEngine.price_or_zero, truthy.
  destruct (Qeq_bool x 0) eqn:E; simpl; [|reflexivity].
  apply Qeq_bool_iff in E. now rewrite E.
Qed.

Lemma lot_equity pm fr f c held :
  FillEvent.symbol f = sym -> FillEvent.fill_type f = BUY ->
  FillEvent.quantity f = 100 ->
  PortfolioManager._positions pm = []
  \/ (exists p, PortfolioManager._positions pm = [(sym, p)]) ->
  (PortfolioManager.cash pm == c)%Q ->
  Position.quantity (PortfolioManager.position pm sym) = held ->
  let pm' := PortfolioManager.apply_fill pm fr f in
  (PortfolioManager._positions pm' = []
   \/ exists p, PortfolioManager._positions pm' = [(sym, p)])
  /\ (PortfolioManager.cash pm'
      == c - (FillEvent.price f * 100 + FillEvent.commission f))%Q
  /\ Position.quantity (PortfolioManager.position pm' sym) = held + 100
  /\ (PortfolioManager.total_equity pm'
        [(sym, BacktestEngine.price_or_zero (Some (FillEvent.price f)))]
      == c - (FillEvent.price f * 100 + FillEvent.commission f)
         + inject_Z (held + 100) * FillEvent.price f)%Q.
Proof.
  intros Hs Hty Hq Hshape Hc Hheld pm'.
  assert (Hcash : (PortfolioManager.cash pm'
                   == c - (FillEvent.price f * 100 + FillEvent.commission f))%Q).
  { unfold pm', PortfolioManager.apply_fill. cbn [PortfolioManager.cash].
    rewrite Hty, Hq, Hc. cbn [PortfolioManager.direction]. ring. }
  assert (Hset : forall v,
            dict_set sym v (PortfolioManager._positions pm) = [(sym, v)]).
  { intros v. destruct Hshape as [->|[p ->]]; cbn [dict_set];
      rewrite ?bool_decide_eq_true_2 by reflexivity; reflexivity. }
  assert (Hpos : exists p', PortfolioManager._positions pm' = [(sym, p')]).
  { unfold pm', PortfolioManager.apply_fill.
    cbn [PortfolioManager._positions]. rewrite Hs, Hset. eauto. }
  assert (Hqty : Position.quantity (PortfolioManager.position pm' sym)
                 = held + 100).
  { unfold pm'. rewrite <- Hs.
    rewrite apply_fill_position, Hs, Hheld, Hty, Hq.
    cbn [PortfolioManager.direction]. lia. }
  split; [right; exact Hpos|]. split; [exact Hcash|]. split; [exact Hqty|].
  destruct Hpos as [p' Hpos].
  assert (Hp' : PortfolioManager.position pm' sym = p').
  { unfold PortfolioManager.position. rewrite Hpos. cbn [dict_get].
    now rewrite bool_decide_eq_true_2. }
  rewrite Hp' in Hqty.
  unfold PortfolioManager.total_equity, PortfolioManager.market_value.
  rewrite Hpos. cbn [map fst snd]. unfold py_sum, PortfolioManager.mark.
  cbn [fold_left dict_get]. rewrite bool_decide_eq_true_2 by reflexivity.
  cbn [default from_option id]. unfold Position.market_value.
  rewrite Hqty, Hcash, price_or_zero_Some. ring.
Qed.

Lemma lot_loop rest :
  forall i st c held,
    (forall t row, In (t, row) rest -> row_at df t = Some row) ->
    lot_inv sym st ->
    PortfolioManager._positions (BacktestEngine.pm st) = []
    \/ (exists p, PortfolioManager._positions (BacktestEngine.pm st)
                  = [(sym, p)]) ->
    (PortfolioManager.cash (BacktestEngine.pm st) == c)%Q ->
    Position.quantity (PortfolioManager.position (BacktestEngine.pm st) sym)
    = held ->
    exists st' new,
      foldM (BacktestEngine.run_step uuid4 utcnow self)
        (enumerate_from i (map fst rest)) st
      = Ok st'
      /\ BacktestEngine.equity_curve st' = BacktestEngine.equity_curve st ++ new
      /\ same_curve new
           (lot_per_bar_curve c held (BacktestEngine.commission self) rest)
      /\ Position.quantity
           (PortfolioManager.position (BacktestEngine.pm st') sym)
         = held + 100 * Z.of_nat (length rest).
Proof.
  induction rest as [|[t row] rest IH];
    intros i st c held Hloc Hinv Hshape Hc Hheld.
  - exists st, []. split; [reflexivity|]. rewrite app_nil_r.
    split; [reflexivity|]. split; [constructor|]. simpl. lia.
  - destruct (lot_step st i t row (Hloc t row (or_introl eq_refl)) Hinv)
      as (st1 & Hstep & Hinv1 & Hpm1 & Hcurve1).
    destruct (lot_equity (BacktestEngine.pm st)
                (length (fill_objs (BacktestEngine.heap st)))
                (FillEvent.mk sym t BUY 100 (Close row)
                   (BacktestEngine.commission self)) c held
                eq_refl eq_refl eq_refl Hshape Hc Hheld)
      as (Hshape1 & Hc1 & Hheld1 & Heq1).
    rewrite <- Hpm1 in Hshape1, Hc1, Hheld1, Heq1.
    cbn [FillEvent.price FillEvent.commission] in Hc1, Heq1.
    destruct (IH (S i) st1 _ _ (fun t' row' H => Hloc t' row' (or_intror H))
                Hinv1
                Hshape1 Hc1 Hheld1) as (st' & new & Hrun & Hcurve & Hsame & Hq).
    exists st', ((t, PortfolioManager.total_equity (BacktestEngine.pm st1)
                      [(sym, BacktestEngine.price_or_zero (Some (Close row)))])
                 :: new).
    cbn [map fst enumerate_from]. rewrite foldM_cons, Hstep, bind_Ok.
    split; [exact Hrun|]. split.
    + rewrite Hcurve, Hcurve1, <- app_assoc. reflexivity.
    + split.
      * cbn [lot_per_bar_curve]. constructor; [|exact Hsame].
        split; [reflexivity|exact Heq1].
      * rewrite Hq. cbn [length]. lia.
Qed.
End LotPerBar.

Lemma same_curve_trans c1 c2 c3 :
  same_curve c1 c2 -> same_curve c2 c3 -> same_curve c1 c3.
Proof.
  unfold same_curve. intros H. revert c3.
  induction H as [|a b c1 c2 [H1 H2] _ IH]; intros c3 H3;
    inversion H3 as [|b' c c2' c3' [H4 H5] Hrest]; subst; constructor.
  - split; [congruence|]. eapply Qeq_trans; eassumption.
  - now apply IH.
Qed.

(** X18: a strategy that signals BUY at every bar makes the engine buy a
    new lot at every bar.  [BuyAndHoldStrategy] signals a BUY of AAPL on
    every history that is not empty.  With such a strategy on the one
    symbol of the data, a price table that is a time series (strictly
    increasing timestamps) with at least one bar, and a
    [progress_interval] other than 0, [run] does not raise; at every bar
    it creates a market order for 100 and fills it at the close of that
    same bar, so that after the run the position is 100 times the number
    of bars; the sample of each bar is the cash left after paying
    [100 * close + commission] for each bar so far, plus the quantity held
    at the close. *)
Theorem buy_signal_at_every_bar_buys_every_bar :
  always_buys (BuyAndHoldStrategy None) "AAPL"
  /\ forall uuid4 utcnow strat sym df starting_cash commission slippage_pct
            progress_interval,
       always_buys strat sym ->
       StronglySorted Z.lt (map fst df) ->
       df <> [] ->
       progress_interval <> 0 ->
       let self :=
         BacktestEngine.__init__ [(sym, df)] [strat] starting_cash commission
           slippage_pct progress_interval in
       exists st curve,
         BacktestEngine.run_loop uuid4 utcnow self = Ok st
         /\ BacktestEngine.run uuid4 utcnow self = Ok curve
         /\ curve = BacktestEngine.equity_curve st
         /\ same_curve curve (lot_per_bar_curve starting_cash 0 commission df)
         /\ Position.quantity
              (PortfolioManager.position (BacktestEngine.pm st) sym)
            = 100 * Z.of_nat (length df).
Proof.
  split.
  - split; [reflexivity|]. intros [|x data] Hne; [contradiction|].
    exists 1%Q. reflexivity.
  - intros uuid4 utcnow strat sym df cash comm slip pi Hbuys Hsorted Hne Hpi
      self.
    assert (Hdates : BacktestEngine.dates self = map fst df).
    { unfold self, BacktestEngine.__init__. cbn [BacktestEngine.dates map concat snd].
      rewrite app_nil_r. now apply sorted_dates_id. }
    destruct (lot_loop uuid4 utcnow self sym df strat eq_refl eq_refl eq_refl
                Hbuys Hsorted Hpi df 0%nat (BacktestEngine.initial_state self)
                cash 0)
      as (st & new & Hrun & Hcurve & Hsame & Hq).
    + now apply row_at_sorted.
    + split; [|split; [reflexivity|constructor]].
      intros r o Hget. unfold get_order in Hget. simpl in Hget.
      now rewrite lookup_nil in Hget.
    + now left.
    + reflexivity.
    + reflexivity.
    + exists st, (BacktestEngine.equity_curve st).
      unfold BacktestEngine.run, BacktestEngine.run_loop, enumerate.
      rewrite Hdates, Hrun, bind_Ok. split; [reflexivity|].
      cbn [BacktestEngine.initial_state BacktestEngine.equity_curve app]
        in Hcurve.
      rewrite Hcurve. split; [|split; [reflexivity|]].
      * destruct df as [|[t row] df]; [contradiction|].
        inversion Hsame; subst. reflexivity.
      * split; [exact Hsame|rewrite Hq; lia].
Qed.

(** [BuyAndHoldStrategy] on two bars of AAPL, closes 10 and 12, with
    100000 in cash and a commission of 1: 200 AAPL are held after the run. *)
Lemma buy_signal_at_every_bar_buys_every_bar_witness :
  exists curve,
    BacktestEngine.run example_uuid4 0
      (BacktestEngine.__init__ [("AAPL", two_bars)] [BuyAndHoldStrategy None]
         100000 1 (1 # 2000) 100) = Ok curve
    /\ same_curve curve [(1, 99999%Q); (2, 100198%Q)].
Proof.
  destruct buy_signal_at_every_bar_buys_every_bar as [Hb H].
  destruct (H example_uuid4 0 (BuyAndHoldStrategy None) "AAPL" two_bars
              100000%Q 1%Q (1 # 2000)%Q 100 Hb)
    as (st & curve & _ & Hrun & _ & Hsame & _).
  - repeat constructor.
  - discriminate.
  - discriminate.
  - exists curve. split; [exact Hrun|].
    eapply same_curve_trans; [exact Hsame|]. repeat constructor.
Defined.

(** ** The trade statistics *)

Lemma round_trip_folds l :
  forall w ls ds op,
    snd (fold_left metrics.win_loss_step l (w, ls, op))
    = snd (fold_left metrics.duration_step l (ds, op))
    /\ w <= fst (fst (fold_left metrics.win_loss_step l (w, ls, op)))
    /\ ls <= snd (fst (fold_left metrics.win_loss_step l (w, ls, op)))
    /\ fst (fst (fold_left metrics.win_loss_step l (w, ls, op)))
       + snd (fst (fold_left metrics.win_loss_step l (w, ls, op)))
       + Z.of_nat (length ds)
       = w + ls
         + Z.of_nat (length (fst (fold_left metrics.duration_step l (ds, op)))).
Proof.
  induction l as [|f l IH]; intros w ls ds op; cbn [fold_left].
  - simpl. repeat split; lia.
  - assert (Hstep : exists w1 ls1 ds1 op1,
              metrics.win_loss_step (w, ls, op) f = (w1, ls1, op1)
              /\ metrics.duration_step (ds, op) f = (ds1, op1)
              /\ w <= w1 /\ ls <= ls1
              /\ w1 + ls1 + Z.of_nat (length ds)
                 = w + ls + Z.of_nat (length ds1)).
    { unfold metrics.win_loss_step, metrics.duration_step.
      destruct (FillEvent.fill_type f).
      - eexists _, _, _, _. repeat split; lia.
      - destruct (dict_get (FillEvent.symbol f) op) as [entry|].
        + destruct (Qlt_bool 0 _); eexists _, _, _, _;
            (split; [reflexivity|]); (split; [reflexivity|]);
            rewrite length_app; simpl; repeat split; lia.
        + eexists _, _, _, _. repeat split; lia.
      - eexists _, _, _, _. repeat split; lia. }
    destruct Hstep as (w1 & ls1 & ds1 & op1 & -> & -> & Hw & Hl & Hc).
    destruct (IH w1 ls1 ds1 op1) as (H1 & H2 & H3 & H4).
    repeat split; [exact H1|lia..].
Qed.

Lemma win_loss_no_sell l :
  (forall f, In f l -> FillEvent.fill_type f <> SELL) ->
  forall w ls op,
    fst (fold_left metrics.win_loss_step l (w, ls, op)) = (w, ls).
Proof.
  induction l as [|f l IH]; intros Hall w ls op; [reflexivity|].
  cbn [fold_left]. unfold metrics.win_loss_step at 2.
  pose proof (Hall f (or_introl eq_refl)) as Hf.
  destruct (FillEvent.fill_type f); [|contradiction|];
    apply IH; intros x Hx; apply Hall; now right.
Qed.

Lemma win_loss_no_buy l :
  (forall f, In f l -> FillEvent.fill_type f <> BUY) ->
  forall w ls,
    fold_left metrics.win_loss_step l (w, ls, []) = (w, ls, []).
Proof.
  induction l as [|f l IH]; intros Hall w ls; [reflexivity|].
  cbn [fold_left]. unfold metrics.win_loss_step at 2.
  pose proof (Hall f (or_introl eq_refl)) as Hf.
  destruct (FillEvent.fill_type f); [contradiction| |]; cbn [dict_get];
    apply IH; intros x Hx; apply Hall; now right.
Qed.

Lemma rate_range w ls :
  0 <= w -> 0 <= ls -> w + ls <> 0 ->
  (0 <= inject_Z w / inject_Z (w + ls) <= 1)%Q.
Proof.
  intros Hw Hl Hne.
  assert (Hpos : (0 < inject_Z (w + ls))%Q) by (unfold Qlt; simpl; lia).
  split.
  - apply Qle_shift_div_l; [exact Hpos|]. rewrite Qmult_0_l.
    unfold Qle. simpl. lia.
  - apply Qle_shift_div_r; [exact Hpos|]. rewrite Qmult_1_l.
    unfold Qle. simpl. lia.
Qed.

(** X19: [win_loss_ratio] is a win rate.  When it is a number it lies
    between 0 and 1: the wins over all the round trips, where a round trip
    is a SELL that finds an open BUY of its symbol.  It is [nan] exactly
    when [average_trade_duration] is, both pairing the fills alike; it is
    [nan] when the trades hold no SELL, or no BUY.  A round trip closed at
    the price of its entry counts as a loss. *)
Theorem win_loss_ratio_is_a_rate :
  forall trades,
    (forall r, metrics.win_loss_ratio trades = Some r -> (0 <= r <= 1)%Q)
    /\ (metrics.win_loss_ratio trades = None
        <-> metrics.average_trade_duration trades = None)
    /\ (forall l, trades = Some l ->
          (forall f, In f l -> FillEvent.fill_type f <> SELL)
          \/ (forall f, In f l -> FillEvent.fill_type f <> BUY) ->
          metrics.win_loss_ratio trades = None)
    /\ (forall b s l,
          trades = Some (b :: s :: l) ->
          FillEvent.fill_type b = BUY -> FillEvent.fill_type s = SELL ->
          FillEvent.symbol s = FillEvent.symbol b ->
          (FillEvent.price s == FillEvent.price b)%Q ->
          forall r, metrics.win_loss_ratio trades = Some r -> (r < 1)%Q).
Proof.
  intros [[|f0 l0]|].
  2:{ set (l := f0 :: l0).
      destruct (round_trip_folds l 0 0 [] []) as (Hop & Hw & Hl & Hcount).
      assert (Hwl : metrics.win_loss_ratio (Some l)
                    = let st := fold_left metrics.win_loss_step l (0, 0, []) in
                      if fst (fst st) + snd (fst st) =? 0 then None
                      else Some (inject_Z (fst (fst st))
                                 / inject_Z (fst (fst st) + snd (fst st)))%Q).
      { unfold metrics.win_loss_ratio, l.
        destruct (fold_left metrics.win_loss_step (f0 :: l0) (0, 0, []))
          as [[w ls] op]. reflexivity. }
      assert (Hdur : metrics.average_trade_duration (Some l) = None
                     <-> fst (fold_left metrics.duration_step l ([], [])) = []).
      { unfold metrics.average_trade_duration, l.
        destruct (fold_left metrics.duration_step (f0 :: l0) ([], []))
          as [[|d ds] op]; simpl; split; congruence. }
      rewrite Hwl. cbn zeta.
      set (w := fst (fst (fold_left metrics.win_loss_step l (0, 0, [])))) in *.
      set (ls := snd (fst (fold_left metrics.win_loss_step l (0, 0, [])))) in *.
      split; [|split; [|split]].
      - intros r. destruct (Z.eqb_spec (w + ls) 0) as [_|Hne]; [discriminate|].
        intros [= <-]. now apply rate_range.
      - rewrite Hdur.
        destruct (fst (fold_left metrics.duration_step l ([], []))) as [|d ds];
          simpl in Hcount.
        + destruct (Z.eqb_spec (w + ls) 0); [tauto|lia].
        + destruct (Z.eqb_spec (w + ls) 0); [lia|split; discriminate].
      - intros l' [= <-] [Hns|Hnb].
        + pose proof (win_loss_no_sell l Hns 0 0 []) as H.
          unfold w, ls. rewrite H. reflexivity.
        + pose proof (win_loss_no_buy l Hnb 0 0) as H.
          unfold w, ls. rewrite H. reflexivity.
      - intros b s l' [= -> ->] Hb Hs Hsym Hprice r.
        destruct (Z.eqb_spec (w + ls) 0) as [_|Hne]; [discriminate|].
        intros [= <-].
        assert (Hloss : 1 <= ls).
        { assert (Hnot : Qlt_bool 0
                           ((FillEvent.price s - FillEvent.price b)
                            * inject_Z (FillEvent.quantity b)) = false).
          { unfold Qlt_bool. apply negb_false_iff, Qle_bool_iff.
            rewrite Hprice.
            assert (H0 : ((FillEvent.price b - FillEvent.price b)
                          * inject_Z (FillEvent.quantity b) == 0)%Q) by ring.
            rewrite H0. apply Qle_refl. }
          assert (Hs1 : metrics.win_loss_step (0, 0, []) b
                        = (0, 0, [(FillEvent.symbol b, b)]))
            by (unfold metrics.win_loss_step; rewrite Hb; reflexivity).
          assert (Hs2 : metrics.win_loss_step
                          (0, 0, [(FillEvent.symbol b, b)]) s
                        = (0, 0 + 1,
                           dict_pop (FillEvent.symbol b)
                             [(FillEvent.symbol b, b)])).
          { unfold metrics.win_loss_step. rewrite Hs, Hsym. cbn [dict_get].
            rewrite bool_decide_eq_true_2 by reflexivity. now rewrite Hnot. }
          unfold ls, l. cbn [fold_left]. rewrite Hs1, Hs2.
          destruct (round_trip_folds l' 0 (0 + 1) []
                      (dict_pop (FillEvent.symbol b) [(FillEvent.symbol b, b)]))
            as (_ & _ & H & _). exact H. }
        assert (Hpos : (0 < inject_Z (w + ls))%Q) by (unfold Qlt; simpl; lia).
        apply Qlt_shift_div_r; [exact Hpos|]. rewrite Qmult_1_l.
        unfold Qlt. simpl. lia. }
  all: split; [discriminate|]; split; [split; reflexivity|];
    split; [reflexivity|discriminate].
Qed.

(** The gain, the break-even and the stray sale of [three_round_trips]:
    one win out of two round trips. *)
Lemma win_loss_ratio_is_a_rate_witness :
  metrics.win_loss_ratio (Some three_round_trips) = Some (1 / 2)%Q
  /\ (0 <= 1 / 2 <= 1)%Q.
Proof.
  assert (H : metrics.win_loss_ratio (Some three_round_trips) = Some (1 / 2)%Q)
    by reflexivity.
  split; [exact H|].
  destruct (win_loss_ratio_is_a_rate (Some three_round_trips)) as [Hr _].
  exact (Hr _ H).
Defined.

(** ** The portfolio of the engine module and the portfolio manager *)

Lemma dict_get_map {V W : Type} (g : V -> W) k d :
  dict_get k (map (fun sp => (fst sp, g (snd sp))) d) = g <$> dict_get k d.
Proof.
  induction d as [|[k' v] d IH]; simpl; [reflexivity|].
  destruct (bool_decide (k' = k)); [reflexivity|exact IH].
Qed.

Lemma dict_set_map {V W : Type} (g : V -> W) k v d :
  map (fun sp => (fst sp, g (snd sp))) (dict_set k v d)
  = dict_set k (g v) (map (fun sp => (fst sp, g (snd sp))) d).
Proof.
  induction d as [|[k' v'] d IH]; simpl; [reflexivity|].
  destruct (bool_decide (k' = k)); simpl; [reflexivity|now rewrite IH].
Qed.

Lemma update_with_fill_same_books p pm r f :
  same_books p pm ->
  same_books (Portfolio.update_with_fill p r f)
    (PortfolioManager.apply_fill pm r f).
Proof.
  intros (Hc & Hp & Ht).
  unfold same_books, Portfolio.update_with_fill, PortfolioManager.apply_fill,
    PortfolioManager.position.
  cbn [Portfolio.cash Portfolio.positions Portfolio.trades
       PortfolioManager.cash PortfolioManager._positions
       PortfolioManager.trade_history].
  rewrite <- Hp, <- Hc, <- Ht, dict_set_map, dict_get_map.
  destruct (dict_get (FillEvent.symbol f) (Portfolio.positions p)) as [pos|];
    destruct (FillEvent.fill_type f); repeat split.
Qed.

(** X20: the [Portfolio] of the engine module and the [PortfolioManager]
    keep the same books.  Started with the same cash and given the same
    fills, they hold the same cash, the same positions (symbols in the same
    order, quantities and average prices) and the same trades after every
    sequence of fills, and report the same equity at any prices. *)
Theorem portfolio_manager_agrees_with_portfolio :
  forall fs p pm,
    same_books p pm ->
    same_books (update_all p fs) (apply_all pm fs)
    /\ forall prices,
         Portfolio.total_equity (update_all p fs) prices
         = PortfolioManager.total_equity (apply_all pm fs) prices.
Proof.
  assert (Hequity : forall p pm prices,
            same_books p pm ->
            Portfolio.total_equity p prices
            = PortfolioManager.total_equity pm prices).
  { intros p pm prices (Hc & Hp & _).
    unfold Portfolio.total_equity, PortfolioManager.total_equity,
      Portfolio.market_value, PortfolioManager.market_value.
    rewrite <- Hc, <- Hp, map_map. reflexivity. }
  induction fs as [|[r f] fs IH]; intros p pm Hsame.
  - split; [exact Hsame|]. intros prices. now apply Hequity.
  - apply (IH (Portfolio.update_with_fill p r f)
              (PortfolioManager.apply_fill pm r f)).
    now apply update_with_fill_same_books.
Qed.

(** The three purchases of [three_buys], from 100000 in cash. *)
Lemma portfolio_manager_agrees_with_portfolio_witness :
  Portfolio.total_equity (update_all (Portfolio.__init__ 100000) three_buys)
    two_prices
  = PortfolioManager.total_equity
      (apply_all (PortfolioManager.__init__ 100000 2) three_buys) two_prices.
Proof.
  destruct (portfolio_manager_agrees_with_portfolio three_buys
              (Portfolio.__init__ 100000) (PortfolioManager.__init__ 100000 2))
    as [_ H].
  - repeat split.
  - apply H.
Defined.

(** ** The progress of a market order *)

Lemma market_stage_weaken k q o : market_stage (S k) q o -> market_stage k q o.
Proof.
  intros (Hty & Htmo & Hq & [(Hopen & Hk & Hf & Hlt)|Hdone]);
    repeat (split; [assumption|]); [left|now right].
  destruct k as [|k]; [|lia]. repeat split; auto; lia.
Qed.

Lemma market_stage_self self_cap sym time price high low comm mq h fs r h' fs'
    k q o :
  OrderBook.process_order self_cap sym time price high low comm mq (h, fs) r
  = Ok (h', fs') ->
  get_order h r = Some o -> market_stage k q o ->
  exists o',
    get_order h' r = Some o'
    /\ (cap_positive (OrderBook.effective_cap self_cap mq) \/ (1 <= k)%nat ->
        market_stage (S k) q o').
Proof.
  intros Hp Hget (Hty & Htmo & Hq & Hstage).
  assert (Hmt : Order.maybe_timeout o time = o)
    by (unfold Order.maybe_timeout; now rewrite Htmo).
  destruct Hstage as [(Hopen & Hk & Hf & Hlt)|[Hst Hfq]].
  - destruct (process_order_fill self_cap sym time price high low comm mq h fs
                r o price Hget) as (h1 & Hp1 & _ & Ho1).
    { now rewrite Hmt. }
    { rewrite Hmt. unfold OrderBook.fill_decision. now rewrite Hty. }
    rewrite Hp1 in Hp. injection Hp as <- <-.
    eexists. split; [exact Ho1|]. intros Hcond.
    unfold market_stage, Order._record_fill.
    cbn [Order.order_type Order.timeout Order.quantity Order.status
         Order.filled_qty Order.is_open FillEvent.quantity].
    repeat (split; [assumption|]).
    unfold OrderBook.fill_qty, Order.remaining.
    destruct (OrderBook.effective_cap self_cap mq) as [c|] eqn:Ecap.
    + destruct (Z.ltb_spec 0 (Order.filled_qty o)) as [Hpos|Hzero].
      * right. rewrite (proj2 (Z.leb_le _ _)) by lia. split; [reflexivity|lia].
      * assert (Hk0 : k = 0%nat) by (destruct k; [reflexivity|simpl in Hf; lia]).
        subst k.
        assert (Hc : 0 < c) by (destruct Hcond as [Hc|Hk1]; [exact Hc|lia]).
        destruct (Z.leb_spec (Order.quantity o)
                    (Order.filled_qty o
                     + Z.min (Order.quantity o - Order.filled_qty o) c))
          as [Hfull|Hpart].
        -- right. split; [reflexivity|lia].
        -- left. cbn [Order.is_open]. repeat split; lia.
    + right. rewrite (proj2 (Z.leb_le _ _)) by lia. split; [reflexivity|lia].
  - assert (Hclosed : Order.is_open o = false)
      by (unfold Order.is_open; now rewrite Hst).
    unfold OrderBook.process_order in Hp. rewrite Hget, Hclosed in Hp.
    injection Hp as <- <-. exists o. split; [exact Hget|]. intros _.
    repeat (split; [assumption|]). now right.
Qed.

Lemma market_stage_loop self_cap sym time price high low comm mq r q rs :
  forall h fs h' fs' k o,
    cap_positive (OrderBook.effective_cap self_cap mq) \/ (1 <= k)%nat ->
    foldM (OrderBook.process_order self_cap sym time price high low comm mq)
      rs (h, fs) = Ok (h', fs') ->
    get_order h r = Some o -> market_stage k q o ->
    exists o',
      get_order h' r = Some o' /\ market_stage k q o'
      /\ (In r rs -> market_stage (S k) q o').
Proof.
  induction rs as [|r' rs IH]; intros h fs h' fs' k o Hcond.
  - intros [= <- <-] Hget Hst. exists o. split; [exact Hget|].
    split; [exact Hst|intros []].
  - rewrite foldM_cons.
    destruct (OrderBook.process_order self_cap sym time price high low comm mq
                (h, fs) r') as [[h1 fs1]|e] eqn:Hstep; [|discriminate].
    rewrite bind_Ok. intros Hrest Hget Hst.
    destruct (decide (r' = r)) as [->|Hne].
    + destruct (market_stage_self _ _ _ _ _ _ _ _ _ _ _ _ _ _ _ _ Hstep Hget Hst)
        as (o1 & Hget1 & Hadv).
      destruct (IH _ _ _ _ (S k) o1 (or_intror (le_n_S _ _ (Nat.le_0_l k)))
                  Hrest Hget1 (Hadv Hcond)) as (o' & Hget' & Hst' & _).
      exists o'. split; [exact Hget'|].
      split; [now apply market_stage_weaken|auto].
    + pose proof (process_order_effect _ _ _ _ _ _ _ _ _ _ _ _ _ Hstep)
        as [Hframe _].
      rewrite <- (Hframe r) in Hget by auto.
      destruct (IH _ _ _ _ k o Hcond Hrest Hget Hst)
        as (o' & Hget' & Hst' & Hadv).
      exists o'. split; [exact Hget'|]. split; [exact Hst'|].
      intros [Heq|Hin]; [congruence|auto].
Qed.

Lemma market_stage_pass h b sym time price high low comm mq r q k o :
  heap_inv P_valid_only h ->
  cap_positive (OrderBook.effective_cap (OrderBook._max_qty_per_fill b) mq)
  \/ (1 <= k)%nat ->
  In r (default [] (dict_get sym (OrderBook._orders b))) ->
  get_order h r = Some o -> market_stage k q o ->
  exists h' fs o',
    OrderBook.process_bar h b sym time price high low comm mq = Ok (h', fs)
    /\ heap_inv P_valid_only h'
    /\ get_order h' r = Some o' /\ market_stage (S k) q o'.
Proof.
  intros Hh Hcond Hin Hget Hst.
  destruct (process_bar_preserves P_valid_only (fun _ => True)) with
    (h := h) (b := b) (sym := sym) (time := time) (price := price)
    (high := high) (low := low) (comm := comm) (mq := mq)
    as (h' & fs & Hp & Hh'); unfold P_valid_only in *; eauto.
  exists h', fs. rewrite Hp. unfold OrderBook.process_bar in Hp.
  destruct (dict_get sym (OrderBook._orders b)) as [rs|]; [|destruct Hin].
  destruct (market_stage_loop _ _ _ _ _ _ _ _ r q rs _ _ _ _ k o Hcond Hp Hget
              Hst) as (o' & Hget' & _ & Hadv).
  exists o'. split; [reflexivity|]. split; [exact Hh'|].
  split; [exact Hget'|]. now apply Hadv.
Qed.

(** X21: a liquidity cap delays a market order by one bar at most.  An open
    market order without timeout that is in the book is FILLED, with its
    whole quantity, after two passes of [process_bar] on its symbol,
    whatever the bars and whatever the cap of the second pass, provided the
    cap in force on the first pass is positive: the cap bounds the first
    fill only, and the next fill takes all that remains. *)
Theorem market_order_filled_within_two_bars :
  forall h b sym r o time1 price1 high1 low1 comm1 mq1
         time2 price2 high2 low2 comm2 mq2,
    heap_inv P_valid_only h ->
    In r (default [] (dict_get sym (OrderBook._orders b))) ->
    get_order h r = Some o ->
    Order.order_type o = MARKET -> Order.timeout o = None ->
    Order.is_open o = true ->
    0 <= Order.filled_qty o < Order.quantity o ->
    cap_positive (OrderBook.effective_cap (OrderBook._max_qty_per_fill b) mq1) ->
    exists h1 fs1 h2 fs2 o2,
      OrderBook.process_bar h b sym time1 price1 high1 low1 comm1 mq1
      = Ok (h1, fs1)
      /\ OrderBook.process_bar h1 b sym time2 price2 high2 low2 comm2 mq2
         = Ok (h2, fs2)
      /\ get_order h2 r = Some o2
      /\ Order.status o2 = FILLED
      /\ Order.filled_qty o2 = Order.quantity o
      /\ Order.quantity o2 = Order.quantity o.
Proof.
  intros h b sym r o time1 price1 high1 low1 comm1 mq1 time2 price2 high2 low2
    comm2 mq2 Hh Hin Hget Hty Htmo Hopen Hf Hcap.
  assert (Hst0 : market_stage 0 (Order.quantity o) o).
  { repeat (split; [assumption || reflexivity|]). left.
    repeat split; auto; lia. }
  destruct (market_stage_pass h b sym time1 price1 high1 low1 comm1 mq1 r
              (Order.quantity o) 0 o Hh (or_introl Hcap) Hin Hget Hst0)
    as (h1 & fs1 & o1 & Hp1 & Hh1 & Hget1 & Hst1).
  destruct (market_stage_pass h1 b sym time2 price2 high2 low2 comm2 mq2 r
              (Order.quantity o) 1 o1 Hh1 (or_intror (le_n 1)) Hin Hget1 Hst1)
    as (h2 & fs2 & o2 & Hp2 & _ & Hget2 & Hst2).
  exists h1, fs1, h2, fs2, o2.
  destruct Hst2 as (_ & _ & Hq2 & [(_ & Hk & _)|[Hs2 Hf2]]); [lia|].
  auto 10.
Qed.

(** The order for 120 of the partial-fill scenario in a book with a cap of
    50: two passes fill it. *)
Lemma market_order_filled_within_two_bars_witness :
  exists h2 o2,
    get_order h2 0%nat = Some o2 /\ Order.status o2 = FILLED
    /\ Order.filled_qty o2 = 120.
Proof.
  destruct (market_order_filled_within_two_bars
              (mkHeap [Order.mk "AAPL" SELL MARKET 120 None None 0 None "5f0c" 0
                         PENDING []] [])
              (OrderBook.mk [("AAPL", [0%nat])] [0%nat] (Some 50))
              "AAPL" 0%nat
              (Order.mk "AAPL" SELL MARKET 120 None None 0 None "5f0c" 0
                 PENDING [])
              0 100%Q 101%Q 99%Q 0%Q None 60000000 99%Q (201 # 2)%Q 98%Q 0%Q None)
    as (h1 & fs1 & h2 & fs2 & o2 & _ & _ & Hget & Hst & Hf & _);
    try reflexivity.
  - intros r o H. destruct r as [|r]; [|destruct r; discriminate H].
    injection H as <-. repeat split; simpl; try lia; congruence.
  - now left.
  - simpl. lia.
  - exists h2, o2. auto.
Defined.

(** ** Cancelling through the broker *)

Lemma filter_shorter {A : Type} (P P' : A -> Prop)
    `{forall x, Decision (P x)} `{forall x, Decision (P' x)} (l : list A) r :
  (forall x, P' x -> P x) -> In r l -> P r -> ~ P' r ->
  (length (filter P' l) < length (filter P l))%nat.
Proof.
  intros Himp Hin Hr Hnr.
  assert (Hle : forall l', (length (filter P' l') <= length (filter P l'))%nat).
  { induction l' as [|x l' IH]; [reflexivity|]. rewrite !filter_cons.
    destruct (decide (P' x)) as [Hx|Hx].
    - destruct (decide (P x)) as [_|Hn]; [simpl; lia|destruct Hn; auto].
    - destruct (decide (P x)); simpl; lia. }
  induction l as [|x l IH]; [destruct Hin|]. rewrite !filter_cons.
  destruct Hin as [->|Hin].
  - destruct (decide (P' r)) as [Hx|_]; [contradiction|].
    destruct (decide (P r)) as [_|Hn]; [|contradiction].
    simpl. specialize (Hle l). lia.
  - specialize (IH Hin). destruct (decide (P' x)) as [Hx|Hx].
    + destruct (decide (P x)) as [_|Hn]; [simpl; lia|destruct Hn; auto].
    + destruct (decide (P x)); simpl; lia.
Qed.

(** X22: [PaperBroker.cancel_order] and [pending_orders].  When the call
    returns [False] nothing has changed and no pending order has the id.
    When it returns [True] a pending order with the id has left the pending
    orders: the list is shorter, and for every other order being pending is
    as before. *)
Theorem broker_cancel_removes_a_pending_order :
  forall h b order_id,
    let h' := fst (fst (PaperBroker.cancel_order h b order_id)) in
    let b' := snd (fst (PaperBroker.cancel_order h b order_id)) in
    (snd (PaperBroker.cancel_order h b order_id) = false ->
       h' = h /\ b' = b
       /\ forall r o, In r (PaperBroker.pending_orders h b) ->
                      get_order h r = Some o -> Order.id o <> order_id)
    /\ (snd (PaperBroker.cancel_order h b order_id) = true ->
          exists r o,
            In r (PaperBroker.pending_orders h b)
            /\ get_order h r = Some o /\ Order.id o = order_id
            /\ (length (PaperBroker.pending_orders h' b')
                < length (PaperBroker.pending_orders h b))%nat
            /\ forall x, x <> r ->
                 (In x (PaperBroker.pending_orders h' b')
                  <-> In x (PaperBroker.pending_orders h b))).
Proof.
  intros h b order_id. unfold PaperBroker.cancel_order.
  destruct (PaperBroker.queue_index h order_id (PaperBroker._delay_queue b))
    as [idx|] eqn:Hq.
  - cbn [fst snd]. split; [discriminate|]. intros _.
    apply queue_index_Some in Hq as (ts & r & o & Hl & Hget & Hid).
    exists r, o. unfold PaperBroker.pending_orders.
    cbn [PaperBroker._delay_queue PaperBroker.order_book].
    pose proof (take_drop_middle _ _ _ Hl) as Hmid.
    rewrite delete_take_drop.
    set (q1 := take idx (PaperBroker._delay_queue b)) in *.
    set (q2 := drop (S idx) (PaperBroker._delay_queue b)) in *.
    rewrite <- Hmid. rewrite !map_app. cbn [map snd].
    split; [rewrite !in_app_iff; simpl; auto|].
    split; [exact Hget|]. split; [exact Hid|]. split.
    + rewrite !length_app. simpl. lia.
    + intros x Hx. rewrite !in_app_iff. simpl. intuition congruence.
  - destruct (OrderBook.cancel_order h (PaperBroker.order_book b) order_id)
      as [h1 ok] eqn:Hc.
    cbn [fst snd]. unfold OrderBook.cancel_order in Hc.
    fold (book_refs (PaperBroker.order_book b)) in Hc.
    unfold PaperBroker.pending_orders.
    fold (book_refs (PaperBroker.order_book b)).
    split; intros ->.
    + apply cancel_in_false in Hc as [-> Hall].
      split; [reflexivity|]. split; [reflexivity|].
      intros r o Hin Hget Hid. apply in_app_or in Hin as [Hin|Hin].
      * apply in_map_iff in Hin as ([ts r'] & Hr & Hin). simpl in Hr. subst r'.
        destruct (queue_index_found h order_id _ ts r o Hin Hget Hid)
          as [i Hi]. congruence.
      * apply list_elem_of_In, list_elem_of_filter in Hin as [Hopen Hin].
        apply list_elem_of_In in Hin.
        unfold PaperBroker.is_open_ref in Hopen. rewrite Hget in Hopen.
        rewrite (Hall r o Hin Hget Hid) in Hopen. discriminate.
    + apply cancel_in_true in Hc as (r & o & Hin & Hget & Hid & Hopen & ->).
      exists r, o.
      assert (Hr : PaperBroker.is_open_ref h r = true)
        by (unfold PaperBroker.is_open_ref; now rewrite Hget).
      assert (Hr' : PaperBroker.is_open_ref
                      (put_order h r (Order.set_status o CANCELLED)) r
                    <> true).
      { unfold PaperBroker.is_open_ref.
        rewrite (get_put_order_eq _ _ _ _ Hget). discriminate. }
      assert (Hother : forall x, x <> r ->
                PaperBroker.is_open_ref
                  (put_order h r (Order.set_status o CANCELLED)) x
                = PaperBroker.is_open_ref h x).
      { intros x Hx. unfold PaperBroker.is_open_ref.
        now rewrite get_put_order_ne by auto. }
      split.
      { apply in_or_app. right. apply list_elem_of_In, list_elem_of_filter.
        split; [exact Hr|now apply list_elem_of_In]. }
      split; [exact Hget|]. split; [exact Hid|]. split.
      * rewrite !length_app. apply Nat.add_lt_mono_l.
        apply filter_shorter with (r := r); auto.
        intros x Hx. destruct (decide (x = r)) as [->|Hne]; [exact Hr|].
        now rewrite <- Hother.
      * intros x Hx. rewrite !in_app_iff.
        rewrite <- !list_elem_of_In, !list_elem_of_filter, Hother by exact Hx.
        reflexivity.
Qed.


(** ** The rules of a pass of [process_bar] *)

Lemma process_order_extends self_cap sym time price high low comm mq h fs r' h'
    fs' r o :
  OrderBook.process_order self_cap sym time price high low comm mq (h, fs) r'
  = Ok (h', fs') ->
  get_order h r = Some o ->
  exists o' more,
    get_order h' r = Some o' /\ Order.fills o' = Order.fills o ++ more.
Proof.
  intros Hp Hget. destruct (decide (r' = r)) as [->|Hne].
  - unfold OrderBook.process_order in Hp. rewrite Hget in Hp.
    destruct (Order.is_open o); simpl in Hp.
    2:{ injection Hp as <- <-. exists o, []. now rewrite app_nil_r. }
    assert (Hput : get_order (put_order h r (Order.maybe_timeout o time)) r
                   = Some (Order.maybe_timeout o time))
      by (eapply get_put_order_eq, Hget).
    destruct (Order.is_open (Order.maybe_timeout o time)); simpl in Hp.
    2:{ injection Hp as <- <-. exists (Order.maybe_timeout o time), [].
        split; [exact Hput|]. now rewrite maybe_timeout_fills, app_nil_r. }
    destruct (OrderBook.fill_decision _ price high low) as [[fp|]|e];
      simpl in Hp; [| |discriminate].
    + injection Hp as <- <-. eexists _, [_]. split.
      * apply get_put_order_eq with (o0 := Order.maybe_timeout o time).
        unfold get_order. simpl. exact Hput.
      * simpl. now rewrite maybe_timeout_fills.
    + injection Hp as <- <-. exists (Order.maybe_timeout o time), [].
      split; [exact Hput|]. now rewrite maybe_timeout_fills, app_nil_r.
  - apply process_order_effect in Hp as [Hframe _]. exists o, [].
    rewrite Hframe by auto. split; [exact Hget|now rewrite app_nil_r].
Qed.

Lemma process_loop_extends self_cap sym time price high low comm mq rs :
  forall h fs h' fs' r o,
    foldM (OrderBook.process_order self_cap sym time price high low comm mq)
      rs (h, fs) = Ok (h', fs') ->
    get_order h r = Some o ->
    exists o' more,
      get_order h' r = Some o' /\ Order.fills o' = Order.fills o ++ more.
Proof.
  induction rs as [|r' rs IH]; intros h fs h' fs' r o.
  - intros [= <- <-] Hget. exists o, []. now rewrite app_nil_r.
  - rewrite foldM_cons.
    destruct (OrderBook.process_order self_cap sym time price high low comm mq
                (h, fs) r') as [[h1 fs1]|e] eqn:Hstep; [|discriminate].
    rewrite bind_Ok. intros Hrest Hget.
    destruct (process_order_extends _ _ _ _ _ _ _ _ _ _ _ _ _ _ _ Hstep Hget)
      as (o1 & more1 & Hget1 & Hf1).
    destruct (IH _ _ _ _ _ _ Hrest Hget1) as (o' & more & Hget' & Hf').
    exists o', (more1 ++ more). split; [exact Hget'|].
    now rewrite Hf', Hf1, app_assoc.
Qed.

(** An eligible order of the list receives its fill at its first visit. *)
Lemma process_loop_fill self_cap sym time price high low comm mq rs :
  forall h fs h' fs' r o fp,
    foldM (OrderBook.process_order self_cap sym time price high low comm mq)
      rs (h, fs) = Ok (h', fs') ->
    In r rs -> get_order h r = Some o ->
    Order.is_open (Order.maybe_timeout o time) = true ->
    OrderBook.fill_decision (Order.maybe_timeout o time) price high low
    = Ok (Some fp) ->
    exists fr o',
      In fr fs'
      /\ (length (fill_objs h) <= fr)%nat
      /\ get_fill h' fr
         = Some (FillEvent.mk sym time (Order.side o)
                   (OrderBook.fill_qty (OrderBook.effective_cap self_cap mq) o)
                   fp comm)
      /\ get_order h' r = Some o'
      /\ (exists more, Order.fills o' = Order.fills o ++ fr :: more)
      /\ (NoDup rs ->
          o' = Order._record_fill o fr
                 (FillEvent.mk sym time (Order.side o)
                    (OrderBook.fill_qty
                       (OrderBook.effective_cap self_cap mq) o)
                    fp comm)).
Proof.
  induction rs as [|r' rs IH]; intros h fs h' fs' r o fp; [intros _ []|].
  rewrite foldM_cons.
  destruct (OrderBook.process_order self_cap sym time price high low comm mq
              (h, fs) r') as [[h1 fs1]|e] eqn:Hstep; [|discriminate].
  rewrite bind_Ok. intros Hrest Hin Hget Hopen Hd.
  destruct (decide (r' = r)) as [->|Hne].
  - destruct (process_order_fill self_cap sym time price high low comm mq h fs
                r o fp Hget Hopen Hd) as (h1' & Hp & Hf1 & Ho1).
    rewrite Hp in Hstep. injection Hstep as <- <-.
    pose proof (process_loop_effect _ _ _ _ _ _ _ _ _ _ _ _ _ Hrest)
      as (Hframe & new & Hfo & Hfs & _).
    destruct (process_loop_extends _ _ _ _ _ _ _ _ _ _ _ _ _ _ _ Hrest Ho1)
      as (o' & more & Hget' & Hfills).
    exists (length (fill_objs h)), o'.
    split; [rewrite Hfs; apply in_or_app; left; apply in_or_app; right;
            now left|].
    split; [reflexivity|]. split.
    { unfold get_fill in *. rewrite Hfo. now apply lookup_app_l_Some. }
    split; [exact Hget'|]. split.
    { exists more. rewrite Hfills. simpl. now rewrite <- app_assoc. }
    intros Hnd. apply NoDup_cons in Hnd as [Hnin _].
    rewrite list_elem_of_In in Hnin. rewrite (Hframe r Hnin) in Hget'.
    congruence.
  - destruct Hin as [Heq|Hin]; [contradiction|].
    pose proof (process_order_effect _ _ _ _ _ _ _ _ _ _ _ _ _ Hstep)
      as [Hframe Hcase].
    rewrite <- (Hframe r) in Hget by auto.
    destruct (IH _ _ _ _ _ _ _ Hrest Hin Hget Hopen Hd)
      as (fr & o' & Hfr & Hle & Hf & Hget' & Hfills & Hexact).
    exists fr, o'. split; [exact Hfr|]. split.
    { destruct Hcase as [[_ Hsame]|(f & _ & Hf1 & _)].
      - now rewrite <- Hsame.
      - rewrite Hf1, length_app in Hle. simpl in Hle. lia. }
    split; [exact Hf|]. split; [exact Hget'|]. split; [exact Hfills|].
    intros Hnd. apply NoDup_cons in Hnd as [_ Hnd]. auto.
Qed.

(** An open order that is not eligible is left as it is. *)
Lemma process_loop_skip self_cap sym time price high low comm mq rs :
  forall h fs h' fs' r o,
    foldM (OrderBook.process_order self_cap sym time price high low comm mq)
      rs (h, fs) = Ok (h', fs') ->
    get_order h r = Some o ->
    Order.is_open (Order.maybe_timeout o time) = true ->
    OrderBook.fill_decision (Order.maybe_timeout o time) price high low
    = Ok None ->
    get_order h' r = Some o.
Proof.
  induction rs as [|r' rs IH]; intros h fs h' fs' r o.
  - intros [= <- <-]. auto.
  - rewrite foldM_cons.
    destruct (OrderBook.process_order self_cap sym time price high low comm mq
                (h, fs) r') as [[h1 fs1]|e] eqn:Hstep; [|discriminate].
    rewrite bind_Ok. intros Hrest Hget Hopen Hd.
    apply (IH _ _ _ _ _ _ Hrest); [|exact Hopen|exact Hd].
    destruct (decide (r' = r)) as [->|Hne].
    + rewrite (process_order_skip _ _ _ _ _ _ _ _ _ _ _ _ Hget Hopen Hd)
        in Hstep.
      now injection Hstep as <- <-.
    + apply process_order_effect in Hstep as [Hframe _].
      now rewrite Hframe by auto.
Qed.

(** An open order of the list whose timeout has elapsed ends the pass
    expired. *)
Lemma process_loop_expire self_cap sym time price high low comm mq rs :
  forall h fs h' fs' r o,
    foldM (OrderBook.process_order self_cap sym time price high low comm mq)
      rs (h, fs) = Ok (h', fs') ->
    In r rs -> get_order h r = Some o ->
    Order.is_open o = true ->
    Order.is_open (Order.maybe_timeout o time) = false ->
    get_order h' r = Some (Order.maybe_timeout o time).
Proof.
  induction rs as [|r' rs IH]; intros h fs h' fs' r o; [intros _ []|].
  rewrite foldM_cons.
  destruct (OrderBook.process_order self_cap sym time price high low comm mq
              (h, fs) r') as [[h1 fs1]|e] eqn:Hstep; [|discriminate].
  rewrite bind_Ok. intros Hrest Hin Hget Hopen Hclosed.
  destruct (decide (r' = r)) as [->|Hne].
  - unfold OrderBook.process_order in Hstep.
    rewrite Hget, Hopen in Hstep. simpl in Hstep.
    rewrite Hclosed in Hstep. simpl in Hstep. injection Hstep as <- <-.
    eapply process_loop_closed; [exact Hclosed|exact Hrest|].
    eapply get_put_order_eq, Hget.
  - destruct Hin as [Heq|Hin]; [contradiction|].
    apply process_order_effect in Hstep as [Hframe _].
    rewrite <- (Hframe r) in Hget by auto.
    exact (IH _ _ _ _ _ _ Hrest Hin Hget Hopen Hclosed).
Qed.

(** On valid orders the pass over the list of the symbol does not raise. *)
Lemma process_bar_runs h b sym time price high low comm mq rs :
  heap_inv P_valid_only h ->
  dict_get sym (OrderBook._orders b) = Some rs ->
  exists h' fs,
    OrderBook.process_bar h b sym time price high low comm mq = Ok (h', fs)
    /\ foldM (OrderBook.process_order (OrderBook._max_qty_per_fill b) sym time
                price high low comm mq) rs (h, []) = Ok (h', fs).
Proof.
  intros Hh Hrs.
  destruct (process_bar_preserves P_valid_only (fun _ => True)) with
    (h := h) (b := b) (sym := sym) (time := time) (price := price)
    (high := high) (low := low) (comm := comm) (mq := mq)
    as (h' & fs & Hp & _); unfold P_valid_only in *; eauto.
  exists h', fs. split; [exact Hp|].
  unfold OrderBook.process_bar in Hp. now rewrite Hrs in Hp.
Qed.

Lemma process_bar_fill h b sym time price high low comm mq rs r o fp :
  heap_inv P_valid_only h ->
  dict_get sym (OrderBook._orders b) = Some rs -> In r rs ->
  get_order h r = Some o ->
  Order.is_open (Order.maybe_timeout o time) = true ->
  OrderBook.fill_decision (Order.maybe_timeout o time) price high low
  = Ok (Some fp) ->
  exists h' fs,
    OrderBook.process_bar h b sym time price high low comm mq = Ok (h', fs)
    /\ receives_fill h rs h' fs r o
         (FillEvent.mk sym time (Order.side o)
            (OrderBook.fill_qty
               (OrderBook.effective_cap (OrderBook._max_qty_per_fill b) mq) o)
            fp comm).
Proof.
  intros Hh Hrs Hin Hget Hopen Hd.
  destruct (process_bar_runs h b sym time price high low comm mq rs Hh Hrs)
    as (h' & fs & Hp & Hloop).
  exists h', fs. split; [exact Hp|].
  destruct (process_loop_fill _ _ _ _ _ _ _ _ _ _ _ _ _ _ _ _ Hloop Hin Hget
              Hopen Hd) as (fr & o' & H).
  exists fr, o'. exact H.
Qed.

Lemma heap_inv_one_order o fs :
  order_valid o -> heap_inv P_valid_only (mkHeap [o] fs).
Proof.
  intros Hv r o' H. destruct r as [|r]; [|destruct r; discriminate H].
  injection H as <-. exact Hv.
Qed.

(** C6: in a pass of [process_bar] over the list of a symbol, an open
    LIMIT BUY order of the list with limit [l] (whose timeout, if it has
    one, has not elapsed) is filled iff [low <= l], at the price
    [min(l, close)]: the pass creates a fill at that price, returns it and
    records it on the order.  An open LIMIT SELL order is filled iff
    [high >= l], at the price [max(l, close)].  Otherwise the pass leaves
    the order as it was: open and without a new fill.  This holds of every
    pass that returns, and the pass does return when the orders of the
    heap passed the checks of the constructor. *)
Theorem limit_order_fill_rule :
  forall h b sym time price high low comm mq rs r o l,
    dict_get sym (OrderBook._orders b) = Some rs -> In r rs ->
    get_order h r = Some o ->
    Order.is_open (Order.maybe_timeout o time) = true ->
    Order.order_type o = LIMIT ->
    Order.limit_price o = Some l ->
    (heap_inv P_valid_only h ->
     exists h' fs,
       OrderBook.process_bar h b sym time price high low comm mq = Ok (h', fs))
    /\ (forall h' fs,
          OrderBook.process_bar h b sym time price high low comm mq
          = Ok (h', fs) ->
          (Order.side o = BUY ->
           ((low <= l)%Q ->
              receives_fill h rs h' fs r o
                (FillEvent.mk sym time BUY
                   (OrderBook.fill_qty
                      (OrderBook.effective_cap (OrderBook._max_qty_per_fill b)
                         mq) o)
                   (py_min l price) comm)
              /\ (py_min l price == Qmin l price)%Q)
           /\ (~ (low <= l)%Q ->
               get_order h' r = Some o /\ Order.is_open o = true))
          /\ (Order.side o = SELL ->
              ((l <= high)%Q ->
                 receives_fill h rs h' fs r o
                   (FillEvent.mk sym time SELL
                      (OrderBook.fill_qty
                         (OrderBook.effective_cap
                            (OrderBook._max_qty_per_fill b) mq) o)
                      (py_max l price) comm)
                 /\ (py_max l price == Qmax l price)%Q)
              /\ (~ (l <= high)%Q ->
                  get_order h' r = Some o /\ Order.is_open o = true))).
Proof.
  intros h b sym time price high low comm mq rs r o l Hrs Hin Hget Hopen Hty Hl.
  pose proof (maybe_timeout_still_open _ _ Hopen) as Heq.
  pose proof (maybe_timeout_open _ _ Hopen) as Hopen0.
  split.
  { intros Hh.
    destruct (process_bar_runs h b sym time price high low comm mq rs Hh Hrs)
      as (h' & fs & Hp & _).
    eauto. }
  intros h' fs Hloop. unfold OrderBook.process_bar in Hloop.
  rewrite Hrs in Hloop.
  split; intros Hside; split; intros Hcmp.
  - split; [|apply py_min_Qmin].
    destruct (process_loop_fill _ _ _ _ _ _ _ _ _ _ _ _ _ _ _ (py_min l price)
                Hloop Hin Hget Hopen) as (fr & o' & H).
    { rewrite Heq. unfold OrderBook.fill_decision. rewrite Hty, Hside, Hl.
      apply Qle_bool_iff in Hcmp. now rewrite Hcmp. }
    rewrite Hside in H. exists fr, o'. exact H.
  - split; [|exact Hopen0].
    apply (process_loop_skip _ _ _ _ _ _ _ _ _ _ _ _ _ _ _ Hloop Hget Hopen).
    rewrite Heq. unfold OrderBook.fill_decision. rewrite Hty, Hside, Hl.
    now rewrite Qle_bool_false.
  - split; [|apply py_max_Qmax].
    destruct (process_loop_fill _ _ _ _ _ _ _ _ _ _ _ _ _ _ _ (py_max l price)
                Hloop Hin Hget Hopen) as (fr & o' & H).
    { rewrite Heq. unfold OrderBook.fill_decision. rewrite Hty, Hside, Hl.
      apply Qle_bool_iff in Hcmp. now rewrite Hcmp. }
    rewrite Hside in H. exists fr, o'. exact H.
  - split; [|exact Hopen0].
    apply (process_loop_skip _ _ _ _ _ _ _ _ _ _ _ _ _ _ _ Hloop Hget Hopen).
    rewrite Heq. unfold OrderBook.fill_decision. rewrite Hty, Hside, Hl.
    now rewrite Qle_bool_false.
Qed.

Lemma limit_heap_valid : heap_inv P_valid_only limit_heap.
Proof.
  apply heap_inv_one_order. repeat split; simpl; try lia; congruence.
Qed.

(** The limit order to buy 100 at 95, in a book: a bar whose low is 96
    leaves it as it is, and a bar whose low is 94 fills it, at
    [min(95, 100)], and the order is [FILLED]. *)
Lemma limit_order_fill_rule_witness :
  (exists h' fs,
     OrderBook.process_bar limit_heap one_order_book "AAPL" 0 100 100 96 0 None
     = Ok (h', fs)
     /\ get_order h' 0%nat = Some limit_order)
  /\ (exists h' fs,
        OrderBook.process_bar limit_heap one_order_book "AAPL" 0 100 100 94 0
          None = Ok (h', fs)
        /\ receives_fill limit_heap [0%nat] h' fs 0%nat limit_order
             (FillEvent.mk "AAPL" 0 BUY 100 (py_min 95 100) 0)
        /\ (Order.status <$> get_order h' 0%nat) = Some FILLED).
Proof.
  split.
  - destruct (limit_order_fill_rule limit_heap one_order_book "AAPL" 0 100%Q
                100%Q 96%Q 0%Q None [0%nat] 0%nat limit_order 95%Q
                eq_refl (or_introl eq_refl) eq_refl eq_refl eq_refl eq_refl)
      as (Hruns & Hrule).
    destruct (Hruns limit_heap_valid) as (h' & fs & Hp).
    exists h', fs. split; [exact Hp|].
    destruct (Hrule h' fs Hp) as [Hbuy _].
    destruct (Hbuy eq_refl) as [_ Hno]. apply Hno.
    intros H. apply Qle_bool_iff in H. discriminate H.
  - destruct (limit_order_fill_rule limit_heap one_order_book "AAPL" 0 100%Q
                100%Q 94%Q 0%Q None [0%nat] 0%nat limit_order 95%Q
                eq_refl (or_introl eq_refl) eq_refl eq_refl eq_refl eq_refl)
      as (Hruns & Hrule).
    destruct (Hruns limit_heap_valid) as (h' & fs & Hp).
    exists h', fs. split; [exact Hp|].
    destruct (Hrule h' fs Hp) as [Hbuy _].
    destruct (Hbuy eq_refl) as [Hyes _].
    destruct Hyes as [Hfill _]; [apply Qle_bool_iff; reflexivity|].
    split; [exact Hfill|].
    vm_compute in Hp. injection Hp as <- <-. reflexivity.
Defined.

Lemma maybe_timeout_not_elapsed o time d :
  Order.timeout o = Some d -> time - Order.created_at o <= d ->
  Order.maybe_timeout o time = o.
Proof.
  intros Ht Hd. unfold Order.maybe_timeout. rewrite Ht.
  destruct (negb (Order.is_open o)); [reflexivity|].
  destruct (Z.ltb_spec d (time - Order.created_at o)); [lia|reflexivity].
Qed.

Lemma process_order_not_expired self_cap sym time price high low comm mq h fs r'
    h' fs' r o d :
  OrderBook.process_order self_cap sym time price high low comm mq (h, fs) r'
  = Ok (h', fs') ->
  get_order h r = Some o ->
  Order.timeout o = Some d -> time - Order.created_at o <= d ->
  Order.status o <> EXPIRED ->
  exists o',
    get_order h' r = Some o' /\ Order.timeout o' = Some d
    /\ Order.created_at o' = Order.created_at o
    /\ Order.status o' <> EXPIRED.
Proof.
  intros Hp Hget Ht Hd Hst. destruct (decide (r' = r)) as [->|Hne].
  - unfold OrderBook.process_order in Hp. rewrite Hget in Hp.
    rewrite (maybe_timeout_not_elapsed o time d Ht Hd) in Hp.
    assert (Hput : get_order (put_order h r o) r = Some o)
      by (eapply get_put_order_eq, Hget).
    destruct (Order.is_open o); simpl in Hp.
    2:{ injection Hp as <- <-. exists o. auto. }
    destruct (OrderBook.fill_decision o price high low) as [[fp|]|e];
      simpl in Hp; [| |discriminate].
    + injection Hp as <- <-. eexists. split.
      * apply get_put_order_eq with (o0 := o). unfold get_order. simpl.
        exact Hput.
      * simpl. split; [exact Ht|]. split; [reflexivity|].
        now destruct (_ <=? _).
    + injection Hp as <- <-. exists o. auto.
  - apply process_order_effect in Hp as [Hframe _]. exists o.
    rewrite Hframe by auto. auto.
Qed.

Lemma process_loop_not_expired self_cap sym time price high low comm mq rs d :
  forall h fs h' fs' r o,
    foldM (OrderBook.process_order self_cap sym time price high low comm mq)
      rs (h, fs) = Ok (h', fs') ->
    get_order h r = Some o ->
    Order.timeout o = Some d -> time - Order.created_at o <= d ->
    Order.status o <> EXPIRED ->
    exists o', get_order h' r = Some o' /\ Order.status o' <> EXPIRED.
Proof.
  induction rs as [|r' rs IH]; intros h fs h' fs' r o.
  - intros [= <- <-] Hget _ _ Hst. exists o. auto.
  - rewrite foldM_cons.
    destruct (OrderBook.process_order self_cap sym time price high low comm mq
                (h, fs) r') as [[h1 fs1]|e] eqn:Hstep; [|discriminate].
    rewrite bind_Ok. intros Hrest Hget Ht Hd Hst.
    destruct (process_order_not_expired _ _ _ _ _ _ _ _ _ _ _ _ _ _ _ _ Hstep
                Hget Ht Hd Hst) as (o1 & Hget1 & Ht1 & Hc1 & Hst1).
    apply (IH _ _ _ _ _ _ Hrest Hget1 Ht1); [|exact Hst1].
    now rewrite Hc1.
Qed.

(** X2: in a pass of [process_bar] over the list of a symbol, on orders
    that passed the checks of the constructor, an open order of the list
    whose timeout has elapsed ([time - created_at > timeout]) ends the pass
    [EXPIRED] and with the fills and the filled quantity it had, whatever
    its type and the bar; an order whose timeout has not elapsed is not
    changed by [maybe_timeout] and is not [EXPIRED] after the pass. *)
Theorem expired_order_gets_no_fill :
  forall h b sym time price high low comm mq rs r o d,
    heap_inv P_valid_only h ->
    dict_get sym (OrderBook._orders b) = Some rs -> In r rs ->
    get_order h r = Some o ->
    Order.is_open o = true ->
    Order.timeout o = Some d ->
    exists h' fs,
      OrderBook.process_bar h b sym time price high low comm mq = Ok (h', fs)
      /\ (d < time - Order.created_at o ->
          get_order h' r = Some (Order.set_status o EXPIRED))
      /\ (time - Order.created_at o <= d ->
          Order.maybe_timeout o time = o
          /\ exists o',
               get_order h' r = Some o' /\ Order.status o' <> EXPIRED).
Proof.
  intros h b sym time price high low comm mq rs r o d Hh Hrs Hin Hget Hopen Ht.
  destruct (process_bar_runs h b sym time price high low comm mq rs Hh Hrs)
    as (h' & fs & Hp & Hloop).
  exists h', fs. split; [exact Hp|]. split; intros Hd.
  - assert (Hexp : Order.maybe_timeout o time = Order.set_status o EXPIRED).
    { unfold Order.maybe_timeout. rewrite Ht, Hopen. simpl.
      destruct (Z.ltb_spec d (time - Order.created_at o)); [reflexivity|lia]. }
    rewrite <- Hexp.
    apply (process_loop_expire _ _ _ _ _ _ _ _ _ _ _ _ _ _ _ Hloop Hin Hget
             Hopen).
    now rewrite Hexp.
  - split; [exact (maybe_timeout_not_elapsed o time d Ht Hd)|].
    apply (process_loop_not_expired _ _ _ _ _ _ _ _ _ _ _ _ _ _ _ _ Hloop Hget
             Ht Hd).
    unfold Order.is_open in Hopen. intros Hst. now rewrite Hst in Hopen.
Qed.

Lemma timeout_heap_valid : heap_inv P_valid_only timeout_heap.
Proof.
  apply heap_inv_one_order. repeat split; simpl; try lia; congruence.
Qed.

(** The market order with a timeout of one second, in a book, two seconds
    after its creation: the pass returns no fill and the order is
    [EXPIRED]. *)
Lemma expired_order_gets_no_fill_witness :
  exists h',
    OrderBook.process_bar timeout_heap one_order_book "AAPL" 2000000 100 101 99
      0 None = Ok (h', [])
    /\ get_order h' 0%nat = Some (Order.set_status timeout_order EXPIRED).
Proof.
  destruct (expired_order_gets_no_fill timeout_heap one_order_book "AAPL"
              2000000 100%Q 101%Q 99%Q 0%Q None [0%nat] 0%nat timeout_order
              1000000 timeout_heap_valid eq_refl (or_introl eq_refl) eq_refl
              eq_refl eq_refl) as (h' & fs & Hp & Hexp & _).
  exists h'. split; [|apply Hexp; simpl; lia].
  rewrite Hp. vm_compute in Hp. now injection Hp as <- <-.
Defined.

(** X3: in a pass of [process_bar] over the list of a symbol, on orders
    that passed the checks of the constructor, an open MARKET order of the
    list (whose timeout, if it has one, has not elapsed) is always filled
    at the close of the bar: the pass creates a fill at that price, returns
    it and records it on the order.  An open STOP BUY order is filled, at
    the close, iff [high >= stop], and an open STOP SELL order iff
    [low <= stop]; otherwise the pass leaves the order as it was. *)
Theorem market_and_stop_fill_rule :
  forall h b sym time price high low comm mq rs r o,
    heap_inv P_valid_only h ->
    dict_get sym (OrderBook._orders b) = Some rs -> In r rs ->
    get_order h r = Some o ->
    Order.is_open (Order.maybe_timeout o time) = true ->
    exists h' fs,
      OrderBook.process_bar h b sym time price high low comm mq = Ok (h', fs)
      /\ (Order.order_type o = MARKET ->
          receives_fill h rs h' fs r o
            (FillEvent.mk sym time (Order.side o)
               (OrderBook.fill_qty
                  (OrderBook.effective_cap (OrderBook._max_qty_per_fill b) mq)
                  o)
               price comm))
      /\ (forall s,
            Order.order_type o = STOP -> Order.stop_price o = Some s ->
            (Order.side o = BUY /\ (s <= high)%Q
             \/ Order.side o = SELL /\ (low <= s)%Q ->
               receives_fill h rs h' fs r o
                 (FillEvent.mk sym time (Order.side o)
                    (OrderBook.fill_qty
                       (OrderBook.effective_cap
                          (OrderBook._max_qty_per_fill b) mq) o)
                    price comm))
            /\ (Order.side o = BUY /\ ~ (s <= high)%Q
                \/ Order.side o = SELL /\ ~ (low <= s)%Q ->
                  get_order h' r = Some o /\ Order.is_open o = true)).
Proof.
  intros h b sym time price high low comm mq rs r o Hh Hrs Hin Hget Hopen.
  pose proof (maybe_timeout_still_open _ _ Hopen) as Heq.
  pose proof (maybe_timeout_open _ _ Hopen) as Hopen0.
  destruct (process_bar_runs h b sym time price high low comm mq rs Hh Hrs)
    as (h' & fs & Hp & Hloop).
  exists h', fs. split; [exact Hp|]. split.
  - intros Hty.
    destruct (process_loop_fill _ _ _ _ _ _ _ _ _ _ _ _ _ _ _ price Hloop Hin
                Hget Hopen) as (fr & o' & H).
    { rewrite Heq. unfold OrderBook.fill_decision. now rewrite Hty. }
    exists fr, o'. exact H.
  - intros s Hty Hs. split; intros Hc.
    + destruct (process_loop_fill _ _ _ _ _ _ _ _ _ _ _ _ _ _ _ price Hloop Hin
                  Hget Hopen) as (fr & o' & H).
      { rewrite Heq. unfold OrderBook.fill_decision. rewrite Hty, Hs.
        destruct Hc as [[-> Hc]|[-> Hc]]; apply Qle_bool_iff in Hc;
          now rewrite Hc. }
      exists fr, o'. exact H.
    + split; [|exact Hopen0].
      apply (process_loop_skip _ _ _ _ _ _ _ _ _ _ _ _ _ _ _ Hloop Hget Hopen).
      rewrite Heq. unfold OrderBook.fill_decision. rewrite Hty, Hs.
      destruct Hc as [[-> Hc]|[-> Hc]]; now rewrite Qle_bool_false.
Qed.

(** A market order to buy 10 at a close of 100, in a book: one fill of 10
    at 100, and the order is [FILLED]. *)
Lemma market_and_stop_fill_rule_witness :
  exists h' fs,
    OrderBook.process_bar one_order_heap one_order_book "AAPL" 0 100 101 99 0
      None = Ok (h', fs)
    /\ receives_fill one_order_heap [0%nat] h' fs 0%nat (buy_order "c3d4")
         (FillEvent.mk "AAPL" 0 BUY 10 100 0)
    /\ (Order.status <$> get_order h' 0%nat) = Some FILLED.
Proof.
  destruct (market_and_stop_fill_rule one_order_heap one_order_book "AAPL" 0
              100%Q 101%Q 99%Q 0%Q None [0%nat] 0%nat (buy_order "c3d4")
              one_order_heap_valid eq_refl (or_introl eq_refl) eq_refl eq_refl)
    as (h' & fs & Hp & Hm & _).
  exists h', fs. split; [exact Hp|]. split; [exact (Hm eq_refl)|].
  vm_compute in Hp. injection Hp as <- <-. reflexivity.
Defined.


(** ** The liquidity cap *)


(** X23: the liquidity cap bounds the first fill only.  In a pass of
    [process_bar] over the list of a symbol, on orders that passed the
    checks of the constructor, an open and eligible order of the list
    receives a fill.  When nothing of it is filled yet, the quantity of
    the fill is [min(remaining, cap)] for the cap in force, which is the
    cap of the call when the call gives one and the cap of the book
    otherwise, and the whole remaining quantity when neither gives one.
    When its filled quantity is positive, the fill takes all that remains,
    whatever the caps.  After calls whose caps are positive, on orders
    constructed with a [filled_qty] that is not negative, an order that
    has a fill has a positive filled quantity. *)
Theorem first_fill_is_capped :
  (forall h b sym time price high low comm mq rs r o fp,
     heap_inv P_valid_only h ->
     dict_get sym (OrderBook._orders b) = Some rs -> In r rs ->
     get_order h r = Some o ->
     Order.is_open (Order.maybe_timeout o time) = true ->
     OrderBook.fill_decision (Order.maybe_timeout o time) price high low
     = Ok (Some fp) ->
     exists h' fs qty,
       OrderBook.process_bar h b sym time price high low comm mq = Ok (h', fs)
       /\ receives_fill h rs h' fs r o
            (FillEvent.mk sym time (Order.side o) qty fp comm)
       /\ (Order.filled_qty o = 0 ->
           (forall c, mq = Some c -> qty = Z.min (Order.remaining o) c)
           /\ (forall c,
                 mq = None -> OrderBook._max_qty_per_fill b = Some c ->
                 qty = Z.min (Order.remaining o) c)
           /\ (mq = None -> OrderBook._max_qty_per_fill b = None ->
               qty = Order.remaining o))
       /\ (0 < Order.filled_qty o -> qty = Order.remaining o))
  /\ (forall ops cap0 h b r o,
        Forall positive_caps ops -> cap_positive cap0 ->
        run_ops ops (empty_heap, OrderBook.__init__ cap0) = Ok (h, b) ->
        get_order h r = Some o ->
        Order.fills o <> [] -> 0 < Order.filled_qty o).
Proof.
  split.
  - intros h b sym time price high low comm mq rs r o fp Hh Hrs Hin Hget Hopen
      Hd.
    destruct (process_bar_fill h b sym time price high low comm mq rs r o fp Hh
                Hrs Hin Hget Hopen Hd) as (h' & fs & Hp & Hfill).
    exists h', fs. eexists. split; [exact Hp|]. split; [exact Hfill|].
    unfold OrderBook.fill_qty, OrderBook.effective_cap. split.
    + intros H0. rewrite H0. split; [|split].
      * now intros c ->.
      * now intros c -> ->.
      * now intros -> ->.
    + intros Hpos.
      destruct (match mq with Some c => Some c
                | None => OrderBook._max_qty_per_fill b end); [|reflexivity].
      now rewrite (proj2 (Z.ltb_lt _ _) Hpos).
  - intros ops cap0 h b r o Hops Hcap0 Hrun Hget Hne.
    destruct (P_first_fill_preserved ops Hops empty_heap
                (OrderBook.__init__ cap0) Hcap0 (heap_inv_empty _))
      as (h' & b' & Hrun' & Hh & _).
    rewrite Hrun in Hrun'. injection Hrun' as <- <-.
    destruct (Hh r o Hget) as (_ & _ & Hpos). auto.
Qed.

(** The scenario of [tests/test_order_management.py::
    test_partial_fill_handling], with the cap of 50 set on the book and no
    cap given to the calls: the first pass fills 50 of the 120, and the
    second pass, on the order that has 50 filled, fills the remaining
    70. *)
Lemma first_fill_is_capped_witness :
  (exists h1 fs1,
     OrderBook.process_bar
       (mkHeap [Order.mk "AAPL" SELL MARKET 120 None None 0 None "5f0c" 0
                  PENDING []] [])
       (snd partial_fill_state) "AAPL" 0 100 101 99 0 None = Ok (h1, fs1)
     /\ receives_fill
          (mkHeap [Order.mk "AAPL" SELL MARKET 120 None None 0 None "5f0c" 0
                     PENDING []] [])
          [0%nat] h1 fs1 0%nat
          (Order.mk "AAPL" SELL MARKET 120 None None 0 None "5f0c" 0 PENDING [])
          (FillEvent.mk "AAPL" 0 SELL 50 100 0))
  /\ (exists h2 fs2,
        OrderBook.process_bar (fst partial_fill_state) (snd partial_fill_state)
          "AAPL" 60000000 99 (201 # 2) 98 0 None = Ok (h2, fs2)
        /\ receives_fill (fst partial_fill_state) [0%nat] h2 fs2 0%nat
             (Order.mk "AAPL" SELL MARKET 120 None None 0 None "5f0c" 50
                PARTIALLY_FILLED [0%nat])
             (FillEvent.mk "AAPL" 60000000 SELL 70 99 0)).
Proof.
  destruct first_fill_is_capped as [Hrule _]. split.
  - destruct (Hrule
                (mkHeap [Order.mk "AAPL" SELL MARKET 120 None None 0 None "5f0c"
                           0 PENDING []] [])
                (snd partial_fill_state) "AAPL" 0 100%Q 101%Q 99%Q 0%Q None
                [0%nat] 0%nat
                (Order.mk "AAPL" SELL MARKET 120 None None 0 None "5f0c" 0
                   PENDING []) 100%Q)
      as (h1 & fs1 & qty & Hp & Hfill & Hfirst & _);
      try reflexivity; [| |].
    + apply heap_inv_one_order. repeat split; simpl; try lia; congruence.
    + now left.
    + exists h1, fs1. split; [exact Hp|].
      destruct (Hfirst eq_refl) as (_ & Hbook & _).
      rewrite (Hbook 50 eq_refl eq_refl) in Hfill. exact Hfill.
  - destruct (Hrule (fst partial_fill_state) (snd partial_fill_state) "AAPL"
                60000000 99%Q (201 # 2)%Q 98%Q 0%Q None [0%nat] 0%nat
                (Order.mk "AAPL" SELL MARKET 120 None None 0 None "5f0c" 50
                   PARTIALLY_FILLED [0%nat]) 99%Q)
      as (h2 & fs2 & qty & Hp & Hfill & _ & Hnext);
      try reflexivity; [| |].
    + apply heap_inv_one_order. repeat split; simpl; try lia; congruence.
    + now left.
    + exists h2, fs2. split; [exact Hp|].
      rewrite Hnext in Hfill by (simpl; lia). exact Hfill.
Defined.
